(** * Questionnaire answering system: a shallow embedding and its properties

    The development follows the TypeScript sources of the questionnaire
    system:

    - [memory/DigitalPersonMemoryManager.ts] and [memory/MemoryManager.ts]
      (answer consistency memory),
    - [completion/IntelligentCompletionManager.ts] (completion detector),
    - [answering/ContinuousAnsweringEnhancer.ts] (continuous answering loop),
    - [lifecycle/UnifiedResourceCleanupManager.ts] (six phase cleanup),
    - [lifecycle/WindowMonitoringSystem.ts] (window monitor).

    Conventions of the embedding.

    - A JavaScript string is the list of its UTF-16 code units ([list N]).
    - A JavaScript number that the code uses as a counter is a [nat] or an
      [N]; a similarity score is an exact rational ([Q]): the rounding of
      IEEE doubles is not part of the model.
    - A call that may throw returns a [Res]: [Ok v] or [Throw e].
    - The answers of the outside world (browser page, provisioning service,
      automation backend) are explicit arguments of the functions. *)

From Stdlib Require Import NArith ZArith QArith Qreduction Lqa Lia.
From Stdlib Require Import Ascii.
From stdpp Require Import base list strings gmap sets.

#[local] Open Scope N_scope.

(* ===================================================================== *)
(** * JavaScript strings *)
(* ===================================================================== *)

Module JS.

(** A string is its sequence of UTF-16 code units. *)
Abbreviation jsstring := (list N).

Definition SP : N := 0x20.

(** The characters matched by [\s] (and removed by [trim]):
    the WhiteSpace and LineTerminator productions of ECMAScript. *)
Definition isSpace (c : N) : bool :=
  ((0x09 <=? c) && (c <=? 0x0D))
  || (c =? 0x20) || (c =? 0xA0) || (c =? 0x1680)
  || ((0x2000 <=? c) && (c <=? 0x200A))
  || (c =? 0x2028) || (c =? 0x2029) || (c =? 0x202F)
  || (c =? 0x205F) || (c =? 0x3000) || (c =? 0xFEFF).

Definition isUpper (c : N) : bool := (0x41 <=? c) && (c <=? 0x5A).
Definition isLower (c : N) : bool := (0x61 <=? c) && (c <=? 0x7A).
Definition isDigit (c : N) : bool := (0x30 <=? c) && (c <=? 0x39).

(** The characters matched by [\w]: [A-Za-z0-9_]. *)
Definition isWord (c : N) : bool :=
  isUpper c || isLower c || isDigit c || (c =? 0x5F).

(** [String.prototype.toLowerCase], on the ASCII letters.  Code units
    outside ASCII are kept: their Unicode case mappings are not modelled.
    Inside [normalizeQuestionText] the function only ever sees [\w] and
    [\s] characters, where this is the full behaviour. *)
Definition lowerUnit (c : N) : N := if isUpper c then c + 0x20 else c.
Definition toLowerCase (s : jsstring) : jsstring := map lowerUnit s.
Definition upperUnit (c : N) : N := if isLower c then c - 0x20 else c.
Definition toUpperCase (s : jsstring) : jsstring := map upperUnit s.

Fixpoint startsWith (s p : jsstring) : bool :=
  match p, s with
  | [], _ => true
  | _ :: _, [] => false
  | a :: p', b :: s' => (a =? b) && startsWith s' p'
  end.

(** [s.includes(p)] *)
Fixpoint includes (s p : jsstring) : bool :=
  startsWith s p ||
  match s with
  | [] => false
  | _ :: s' => includes s' p
  end.

Definition headIsSpace (s : jsstring) : bool :=
  match s with
  | c :: _ => isSpace c
  | [] => false
  end.

(** [s.replace(/\s+/g, ' ')]: every maximal run of white space becomes
    one space. *)
Fixpoint replaceSpaceRuns (s : jsstring) : jsstring :=
  match s with
  | [] => []
  | c :: s' =>
      if isSpace c
      then if headIsSpace s' then replaceSpaceRuns s'
           else SP :: replaceSpaceRuns s'
      else c :: replaceSpaceRuns s'
  end.

Fixpoint trimStart (s : jsstring) : jsstring :=
  match s with
  | c :: s' => if isSpace c then trimStart s' else s
  | [] => []
  end.

Definition trimEnd (s : jsstring) : jsstring := rev (trimStart (rev s)).

(** [s.trim()] *)
Definition trim (s : jsstring) : jsstring := trimEnd (trimStart s).

(** [s.replace(/[^\w\s]/g, '')] *)
Definition stripNonWord (s : jsstring) : jsstring :=
  List.filter (fun c => isWord c || isSpace c) s.

(** [s.split(sep)] for a separator of one code unit. *)
Fixpoint split (sep : N) (s : jsstring) : list jsstring :=
  match s with
  | [] => [[]]
  | c :: s' =>
      if c =? sep then [] :: split sep s'
      else match split sep s' with
           | w :: ws => (c :: w) :: ws
           | [] => [[c]]
           end
  end.

(** [s.substring(0, n)] *)
Definition substring0 (n : nat) (s : jsstring) : jsstring := take n s.

(** Source literals are written as Rocq strings, whose bytes are the
    UTF-8 encoding of the text; [decodeUtf8] turns them into code units. *)
Fixpoint decodeUtf8 (bs : list N) : jsstring :=
  match bs with
  | [] => []
  | b0 :: r0 =>
      if b0 <? 0x80 then b0 :: decodeUtf8 r0
      else match r0 with
           | [] => [b0]
           | b1 :: r1 =>
               if b0 <? 0xE0
               then ((b0 - 0xC0) * 64 + (b1 - 0x80)) :: decodeUtf8 r1
               else match r1 with
                    | [] => [b0; b1]
                    | b2 :: r2 =>
                        if b0 <? 0xF0
                        then ((b0 - 0xE0) * 4096 + (b1 - 0x80) * 64 + (b2 - 0x80))
                               :: decodeUtf8 r2
                        else match r2 with
                             | [] => [b0; b1; b2]
                             | b3 :: r3 =>
                                 let cp := (b0 - 0xF0) * 262144 + (b1 - 0x80) * 4096
                                           + (b2 - 0x80) * 64 + (b3 - 0x80) in
                                 let v := cp - 0x10000 in
                                 (0xD800 + v / 1024) :: (0xDC00 + v mod 1024)
                                   :: decodeUtf8 r3
                             end
                    end
           end
  end.

Fixpoint bytesOfString (s : string) : list N :=
  match s with
  | EmptyString => []
  | String a s' => N_of_ascii a :: bytesOfString s'
  end.

Definition js (s : string) : jsstring := decodeUtf8 (bytesOfString s).

Definition isHighSurrogate (c : N) : bool := (0xD800 <=? c) && (c <? 0xDC00).
Definition isLowSurrogate (c : N) : bool := (0xDC00 <=? c) && (c <? 0xE000).

Definition replacementBytes : list N := [0xEF; 0xBF; 0xBD].

(** The UTF-8 encoding Node applies to a string handed to
    [hash.update]; a lone surrogate is encoded as U+FFFD. *)
Fixpoint encodeUtf8 (s : jsstring) : list N :=
  match s with
  | [] => []
  | c :: s' =>
      if c <? 0x80 then c :: encodeUtf8 s'
      else if c <? 0x800 then
        (0xC0 + c / 64) :: (0x80 + c mod 64) :: encodeUtf8 s'
      else if isHighSurrogate c then
        match s' with
        | d :: s'' =>
            if isLowSurrogate d then
              let cp := 0x10000 + (c - 0xD800) * 1024 + (d - 0xDC00) in
              (0xF0 + cp / 262144) :: (0x80 + (cp / 4096) mod 64)
                :: (0x80 + (cp / 64) mod 64) :: (0x80 + cp mod 64)
                :: encodeUtf8 s''
            else replacementBytes ++ encodeUtf8 s'
        | [] => replacementBytes
        end
      else if isLowSurrogate c then replacementBytes ++ encodeUtf8 s'
      else (0xE0 + c / 4096) :: (0x80 + (c / 64) mod 64)
             :: (0x80 + c mod 64) :: encodeUtf8 s'
  end.

(** Decimal rendering of a counter, as a template literal prints it. *)
Fixpoint decimalFuel (fuel : nat) (n : N) (acc : jsstring) : jsstring :=
  match fuel with
  | O => acc
  | S fuel' =>
      let acc' := (0x30 + n mod 10) :: acc in
      if n <? 10 then acc' else decimalFuel fuel' (n / 10) acc'
  end.

Definition decimal (n : N) : jsstring := decimalFuel (S (N.to_nat (N.log2 n))) n [].

End JS.

(* ===================================================================== *)
(** * MD5, as computed by [createHash('md5')] *)
(* ===================================================================== *)

Module Md5.

Definition mask32 : N := 0xFFFFFFFF.
Definition add32 (a b : N) : N := N.land (a + b) mask32.
Definition not32 (a : N) : N := N.lxor a mask32.
Definition rotl32 (x n : N) : N :=
  N.lor (N.land (N.shiftl x n) mask32) (N.shiftr x (32 - n)).

(** The sine table [floor(2^32 * |sin(i + 1)|)]. *)
Definition K : list N :=
  [ 0xd76aa478; 0xe8c7b756; 0x242070db; 0xc1bdceee;
    0xf57c0faf; 0x4787c62a; 0xa8304613; 0xfd469501;
    0x698098d8; 0x8b44f7af; 0xffff5bb1; 0x895cd7be;
    0x6b901122; 0xfd987193; 0xa679438e; 0x49b40821;
    0xf61e2562; 0xc040b340; 0x265e5a51; 0xe9b6c7aa;
    0xd62f105d; 0x02441453; 0xd8a1e681; 0xe7d3fbc8;
    0x21e1cde6; 0xc33707d6; 0xf4d50d87; 0x455a14ed;
    0xa9e3e905; 0xfcefa3f8; 0x676f02d9; 0x8d2a4c8a;
    0xfffa3942; 0x8771f681; 0x6d9d6122; 0xfde5380c;
    0xa4beea44; 0x4bdecfa9; 0xf6bb4b60; 0xbebfbc70;
    0x289b7ec6; 0xeaa127fa; 0xd4ef3085; 0x04881d05;
    0xd9d4d039; 0xe6db99e5; 0x1fa27cf8; 0xc4ac5665;
    0xf4292244; 0x432aff97; 0xab9423a7; 0xfc93a039;
    0x655b59c3; 0x8f0ccc92; 0xffeff47d; 0x85845dd1;
    0x6fa87e4f; 0xfe2ce6e0; 0xa3014314; 0x4e0811a1;
    0xf7537e82; 0xbd3af235; 0x2ad7d2bb; 0xeb86d391 ].

(** Per-round left rotations. *)
Definition shifts : list N :=
  [ 7; 12; 17; 22; 7; 12; 17; 22; 7; 12; 17; 22; 7; 12; 17; 22;
    5;  9; 14; 20; 5;  9; 14; 20; 5;  9; 14; 20; 5;  9; 14; 20;
    4; 11; 16; 23; 4; 11; 16; 23; 4; 11; 16; 23; 4; 11; 16; 23;
    6; 10; 15; 21; 6; 10; 15; 21; 6; 10; 15; 21; 6; 10; 15; 21 ].

Record state := State { sa : N; sb : N; sc : N; sd : N }.

Definition init : state :=
  State 0x67452301 0xefcdab89 0x98badcfe 0x10325476.

(** Little-endian bytes of a value, [n] of them. *)
Fixpoint leBytes (n : nat) (v : N) : list N :=
  match n with
  | O => []
  | S n' => (v mod 256) :: leBytes n' (v / 256)
  end.

Fixpoint leValue (bs : list N) : N :=
  match bs with
  | [] => 0
  | b :: bs' => b + 256 * leValue bs'
  end.

(** Message padding: a [0x80] byte, zeros up to 56 modulo 64, then the
    length in bits as a 64-bit little-endian integer. *)
Definition pad (msg : list N) : list N :=
  let len := N.of_nat (length msg) in
  let zeros := N.to_nat ((119 - len mod 64) mod 64) in
  msg ++ [0x80] ++ repeat 0 zeros ++ leBytes 8 ((8 * len) mod 2 ^ 64).

Fixpoint chunks (fuel : nat) (size : nat) (l : list N) : list (list N) :=
  match fuel with
  | O => []
  | S fuel' =>
      match l with
      | [] => []
      | _ => take size l :: chunks fuel' size (drop size l)
      end
  end.

Definition wordsOfBlock (block : list N) : list N :=
  map leValue (chunks 16 4 block).

(** One of the 64 operations on a block. *)
Definition step (M : list N) (st : state) (i : nat) : state :=
  let '(State a b c d) := st in
  let '(f, g) :=
    if (i <? 16)%nat then
      (N.lor (N.land b c) (N.land (not32 b) d), i)
    else if (i <? 32)%nat then
      (N.lor (N.land d b) (N.land (not32 d) c), ((5 * i + 1) mod 16)%nat)
    else if (i <? 48)%nat then
      (N.lxor (N.lxor b c) d, ((3 * i + 5) mod 16)%nat)
    else
      (N.lxor c (N.lor b (not32 d)), ((7 * i) mod 16)%nat) in
  let f' := add32 (add32 (add32 f a) (nth i K 0)) (nth g M 0) in
  State d (add32 b (rotl32 f' (nth i shifts 0))) b c.

Definition processBlock (st : state) (block : list N) : state :=
  let M := wordsOfBlock block in
  let st' := fold_left (step M) (seq 0 64) st in
  State (add32 (sa st) (sa st')) (add32 (sb st) (sb st'))
        (add32 (sc st) (sc st')) (add32 (sd st) (sd st')).

Definition digest (msg : list N) : list N :=
  let padded := pad msg in
  let st := fold_left processBlock (chunks (length padded) 64 padded) init in
  leBytes 4 (sa st) ++ leBytes 4 (sb st) ++ leBytes 4 (sc st) ++ leBytes 4 (sd st).

Definition hexDigit (v : N) : N := if v <? 10 then 0x30 + v else 0x61 + (v - 10).

Definition hexOfBytes (bs : list N) : JS.jsstring :=
  flat_map (fun b => [hexDigit (b / 16); hexDigit (b mod 16)]) bs.

(** [createHash('md5').update(s).digest('hex')] *)
Definition md5hex (s : JS.jsstring) : JS.jsstring :=
  hexOfBytes (digest (JS.encodeUtf8 s)).

End Md5.

#[local] Close Scope N_scope.

(* ===================================================================== *)
(** * Results of calls that may throw *)
(* ===================================================================== *)

Inductive Res (A : Type) : Type :=
| Ok (a : A)
| Throw (message : JS.jsstring).

Arguments Ok {A} a.
Arguments Throw {A} message.

(** [Res] is a monad; sequencing stops at the first [Throw]. *)
#[global] Instance Res_ret : MRet Res := fun A a => Ok a.
#[global] Instance Res_bind : MBind Res := fun A B k r =>
  match r with
  | Ok a => k a
  | Throw e => Throw e
  end.

(** [try { body } catch (error) { handler(error) }] *)
Definition tryCatch {A : Type} (body : Res A) (handler : JS.jsstring -> A) : A :=
  match body with
  | Ok a => a
  | Throw e => handler e
  end.

Definition isOk {A : Type} (r : Res A) : bool :=
  match r with
  | Ok _ => true
  | Throw _ => false
  end.

(** Strict comparison [a < b] of two scores. *)
Definition Qltb (a b : Q) : bool := negb (Qle_bool b a).

Definition QofNat (n : nat) : Q := inject_Z (Z.of_nat n).

(* ===================================================================== *)
(** * Answer consistency memory ([DigitalPersonMemoryManager]) *)
(* ===================================================================== *)

Module Memory.
Import JS.

Record QuestionRecord : Type := mkQuestionRecord {
  questionId : jsstring;
  questionText : jsstring;
  questionType : jsstring;
  options : list jsstring;
  answer : jsstring;
  answerText : jsstring;
  pageUrl : jsstring;
  timestamp : N;
  attempts : N;
  confidence : Q
}.

(** [questions] is a JavaScript object used as a map; its own string keys
    are enumerated in insertion order, which [Object.values] exposes, so it
    is kept as an association list in that order. *)
Record QuestionnaireMemory : Type := mkQuestionnaireMemory {
  questionnaireId : jsstring;
  digitalPersonId : jsstring;
  startTime : N;
  questions : list (jsstring * QuestionRecord);
  questionOrder : list jsstring;
  currentPosition : nat;
  totalQuestions : nat;
  completedQuestions : nat
}.

Record QuestionFeatures : Type := mkQuestionFeatures {
  normalizedText : jsstring;
  normalizedOptions : list jsstring;
  keywords : gset jsstring;
  optionKeywords : gset jsstring;
  textLength : nat;
  optionCount : nat
}.

Record ConsistentAnswerSuggestion : Type := mkSuggestion {
  suggestedAnswer : jsstring;
  suggestedAnswerText : jsstring;
  referenceQuestionId : jsstring;
  referenceQuestionText : jsstring;
  similarityReason : jsstring;
  suggestionConfidence : Q
}.

Record ProgressInfo : Type := mkProgressInfo {
  progressPosition : nat;
  progressTotal : nat;
  progressCompleted : nat;
  completionRate : Q;
  elapsedTime : Z
}.

(** ** Object operations on [questions] *)

(** [key in obj] *)
Definition hasKey {V : Type} (k : jsstring) (obj : list (jsstring * V)) : bool :=
  existsb (fun kv => bool_decide (kv.1 = k)) obj.

(** [obj[key]] *)
Fixpoint getKey {V : Type} (k : jsstring) (obj : list (jsstring * V)) : option V :=
  match obj with
  | [] => None
  | (k', v) :: obj' => if bool_decide (k' = k) then Some v else getKey k obj'
  end.

(** [obj[key] = v]: an existing key keeps its place, a new key goes last. *)
Fixpoint setKey {V : Type} (k : jsstring) (v : V) (obj : list (jsstring * V))
  : list (jsstring * V) :=
  match obj with
  | [] => [(k, v)]
  | (k', v') :: obj' =>
      if bool_decide (k' = k) then (k, v) :: obj'
      else (k', v') :: setKey k v obj'
  end.

(** [Object.keys(obj)] and [Object.values(obj)] *)
Definition objectKeys {V : Type} (obj : list (jsstring * V)) : list jsstring :=
  map fst obj.
Definition objectValues {V : Type} (obj : list (jsstring * V)) : list V :=
  map snd obj.

(** ** Construction *)

Definition generateQuestionnaireId (url : jsstring) : jsstring :=
  substring0 12 (Md5.md5hex url).

(** The constructor, with the two identifiers already derived and the
    clock reading [now]. *)
Definition newMemory (qid pid : jsstring) (now : N) : QuestionnaireMemory :=
  {| questionnaireId := qid;
     digitalPersonId := pid;
     startTime := now;
     questions := [];
     questionOrder := [];
     currentPosition := 0;
     totalQuestions := 0;
     completedQuestions := 0 |}.

(** ** Normalisation and features *)

Definition normalizeQuestionText (text : jsstring) : jsstring :=
  let text1 := trim (replaceSpaceRuns text) in
  let text2 := stripNonWord text1 in
  toLowerCase text2.

Definition longWords (s : jsstring) : list jsstring :=
  List.filter (fun word => (2 <? length word)%nat) (split SP s).

Definition extractQuestionFeatures (questionText : jsstring) (options : list jsstring)
  : QuestionFeatures :=
  let normalizedText := normalizeQuestionText questionText in
  let normalizedOptions := map normalizeQuestionText options in
  let keywords : gset jsstring := list_to_set (longWords normalizedText) in
  let optionKeywords : gset jsstring :=
    list_to_set (flat_map longWords normalizedOptions) in
  {| normalizedText := normalizedText;
     normalizedOptions := normalizedOptions;
     keywords := keywords;
     optionKeywords := optionKeywords;
     textLength := length normalizedText;
     optionCount := length options |}.

(** ** Edit distance *)

(** Cells [j .. len2] of matrix row [i], given the cells [j-1 .. len2] of
    row [i-1] ([prev]) and the cell [j-1] of row [i] ([left]);
    [c] is [str1[i-1]] and [str2] is the rest of the second string from
    position [j-1]. *)
Fixpoint fillRow (c : N) (str2 : jsstring) (prev : list nat) (left : nat) : list nat :=
  match str2, prev with
  | d :: str2', diag :: prev' =>
      match prev' with
      | up :: _ =>
          let cost := if (c =? d)%N then 0 else 1 in
          let cell := Nat.min (Nat.min (up + 1) (left + 1)) (diag + cost) in
          cell :: fillRow c str2' prev' cell
      | [] => []
      end
  | _, _ => []
  end.

(** Row [i] of the matrix from row [i-1]: [matrix[i][0] = i]. *)
Definition nextRow (c : N) (str2 : jsstring) (prev : list nat) (i : nat) : list nat :=
  i :: fillRow c str2 prev i.

(** The rows below row [i], for the remaining characters of [str1]. *)
Fixpoint fillMatrix (str1 str2 : jsstring) (prev : list nat) (i : nat) : list nat :=
  match str1 with
  | [] => prev
  | c :: str1' => fillMatrix str1' str2 (nextRow c str2 prev (S i)) (S i)
  end.

(** [matrix[len1][len2]] *)
Definition editDistance (str1 str2 : jsstring) : nat :=
  List.last (fillMatrix str1 str2 (seq 0 (S (length str2))) 0) 0%nat.

Definition calculateStringSimilarity (str1 str2 : jsstring) : Q :=
  let len1 := length str1 in
  let len2 := length str2 in
  if (len1 =? 0)%nat then (if (len2 =? 0)%nat then 1 else 0)%Q
  else if (len2 =? 0)%nat then 0%Q
  else
    let maxLen := Nat.max len1 len2 in
    (inject_Z (Z.of_nat maxLen - Z.of_nat (editDistance str1 str2)) / QofNat maxLen)%Q.

(** ** Similarity of two questions *)

Definition sizeRatio (common total : gset jsstring) : Q :=
  if (0 <? size total)%nat then (QofNat (size common) / QofNat (size total))%Q
  else 0%Q.

Definition calculateQuestionSimilarity (features1 features2 : QuestionFeatures) : Q :=
  let textSimilarity :=
    calculateStringSimilarity (normalizedText features1) (normalizedText features2) in
  let keywords1 := keywords features1 in
  let keywords2 := keywords features2 in
  let commonKeywords : gset jsstring := filter (fun k => k ∈ keywords2) keywords1 in
  let totalKeywords : gset jsstring := keywords1 ∪ keywords2 in
  let keywordSimilarity := sizeRatio commonKeywords totalKeywords in
  let options1 : gset jsstring := list_to_set (normalizedOptions features1) in
  let options2 : gset jsstring := list_to_set (normalizedOptions features2) in
  let commonOptions : gset jsstring := filter (fun o => o ∈ options2) options1 in
  let totalOptions : gset jsstring := options1 ∪ options2 in
  let optionSimilarity := sizeRatio commonOptions totalOptions in
  let optionCountSimilarity :=
    if (optionCount features1 =? optionCount features2)%nat then 1%Q else (5 # 10)%Q in
  (textSimilarity * (4 # 10) + keywordSimilarity * (3 # 10)
   + optionSimilarity * (2 # 10) + optionCountSimilarity * (1 # 10))%Q.

(** Similarity of a query with a stored record. *)
Definition recordSimilarity (current : QuestionFeatures) (r : QuestionRecord) : Q :=
  calculateQuestionSimilarity current
    (extractQuestionFeatures (questionText r) (options r)).

(** ** Similar question lookup *)

Definition defaultThreshold : Q := (8 # 10)%Q.

(** One iteration of the loop over [Object.values(this.memory.questions)];
    the accumulator is [(bestMatch, bestSimilarity)]. *)
Definition scanRecord (current : QuestionFeatures) (threshold : Q)
  (best : option QuestionRecord * Q) (r : QuestionRecord)
  : option QuestionRecord * Q :=
  let similarity := recordSimilarity current r in
  if Qltb threshold similarity && Qltb best.2 similarity
  then (Some r, similarity)
  else best.

Definition findSimilarQuestion (mem : QuestionnaireMemory)
  (questionText : jsstring) (options : list jsstring) (similarityThreshold : Q)
  : option QuestionRecord :=
  let currentFeatures := extractQuestionFeatures questionText options in
  (fold_left (scanRecord currentFeatures similarityThreshold)
             (objectValues (questions mem)) (None, 0%Q)).1.

(** ** Fingerprint and recording *)

Definition generateQuestionId (questionText pageUrl : jsstring) : jsstring :=
  let normalizedText := normalizeQuestionText questionText in
  let combined := pageUrl ++ js "|" ++ normalizedText in
  substring0 16 (Md5.md5hex combined).

(** The arguments of one [recordQuestionAnswer] call, with the clock
    reading of the call. *)
Record RecordCall : Type := mkRecordCall {
  callText : jsstring;
  callType : jsstring;
  callOptions : list jsstring;
  callAnswer : jsstring;
  callAnswerText : jsstring;
  callPageUrl : jsstring;
  callAttempts : N;
  callConfidence : Q;
  callNow : N
}.

Definition callQuestionId (c : RecordCall) : jsstring :=
  generateQuestionId (callText c) (callPageUrl c).

Definition callRecord (c : RecordCall) : QuestionRecord :=
  {| questionId := callQuestionId c;
     questionText := callText c;
     questionType := callType c;
     options := callOptions c;
     answer := callAnswer c;
     answerText := callAnswerText c;
     pageUrl := callPageUrl c;
     timestamp := callNow c;
     attempts := callAttempts c;
     confidence := callConfidence c |}.

(** Returns the fingerprint and the memory after the call. *)
Definition recordQuestionAnswer (mem : QuestionnaireMemory) (c : RecordCall)
  : jsstring * QuestionnaireMemory :=
  let questionId := callQuestionId c in
  let questionRecord := callRecord c in
  if negb (hasKey questionId (questions mem)) then
    let questions' := setKey questionId questionRecord (questions mem) in
    (questionId,
     {| questionnaireId := questionnaireId mem;
        digitalPersonId := digitalPersonId mem;
        startTime := startTime mem;
        questions := questions';
        questionOrder := questionOrder mem ++ [questionId];
        currentPosition := currentPosition mem;
        totalQuestions := length (objectKeys questions');
        completedQuestions := completedQuestions mem + 1 |})
  else
    (questionId,
     {| questionnaireId := questionnaireId mem;
        digitalPersonId := digitalPersonId mem;
        startTime := startTime mem;
        questions := setKey questionId questionRecord (questions mem);
        questionOrder := questionOrder mem;
        currentPosition := currentPosition mem;
        totalQuestions := totalQuestions mem;
        completedQuestions := completedQuestions mem |}).

(** The memory after a sequence of calls. *)
Definition recordAll (mem : QuestionnaireMemory) (calls : list RecordCall)
  : QuestionnaireMemory :=
  fold_left (fun m c => (recordQuestionAnswer m c).2) calls mem.

(** ** Suggestion and progress *)

(** [arr.indexOf(x) + 1]: zero when [x] is absent. *)
Fixpoint indexOfPlus1 (x : jsstring) (arr : list jsstring) : nat :=
  match arr with
  | [] => 0
  | y :: arr' =>
      if bool_decide (y = x) then 1
      else match indexOfPlus1 x arr' with
           | O => 0
           | S n => S (S n)
           end
  end.

Definition getConsistentAnswerSuggestion (mem : QuestionnaireMemory)
  (text : jsstring) (opts : list jsstring)
  : option ConsistentAnswerSuggestion :=
  match findSimilarQuestion mem text opts defaultThreshold with
  | Some similarQuestion =>
      let position := indexOfPlus1 (questionId similarQuestion) (questionOrder mem) in
      Some {| suggestedAnswer := answer similarQuestion;
              suggestedAnswerText := answerText similarQuestion;
              referenceQuestionId := questionId similarQuestion;
              referenceQuestionText := questionText similarQuestion;
              similarityReason :=
                js "与第" ++ decimal (N.of_nat position) ++ js "题相似";
              suggestionConfidence := confidence similarQuestion |}
  | None => None
  end.

Definition getProgressInfo (mem : QuestionnaireMemory) (now : N) : ProgressInfo :=
  let elapsedTime := (Z.of_N now - Z.of_N (startTime mem))%Z in
  let completionRate :=
    if (0 <? totalQuestions mem)%nat
    then (QofNat (completedQuestions mem) / QofNat (totalQuestions mem) * 100)%Q
    else 0%Q in
  {| progressPosition := currentPosition mem;
     progressTotal := totalQuestions mem;
     progressCompleted := completedQuestions mem;
     completionRate := completionRate;
     elapsedTime := elapsedTime |}.

Definition cleanupMemory (mem : QuestionnaireMemory) : QuestionnaireMemory :=
  {| questionnaireId := questionnaireId mem;
     digitalPersonId := digitalPersonId mem;
     startTime := startTime mem;
     questions := [];
     questionOrder := [];
     currentPosition := 0;
     totalQuestions := 0;
     completedQuestions := 0 |}.

End Memory.

(* ===================================================================== *)
(** * The memory after [importMemory]: records with missing properties *)
(* ===================================================================== *)

(** [importMemory(memoryData: any)] stores [memoryData.memory] as it is, so
    a record read back from [this.memory.questions] may lack a property.
    A missing property reads as [undefined] ([None]); calling a method on
    it throws a [TypeError]. *)
Module Imported.
Import JS Memory.

Record RawRecord : Type := mkRawRecord {
  rawQuestionId : jsstring;
  rawQuestionText : option jsstring;
  rawOptions : option (list jsstring);
  rawAnswer : jsstring;
  rawAnswerText : jsstring;
  rawConfidence : Q
}.

Record RawMemory : Type := mkRawMemory {
  rawQuestions : list (jsstring * RawRecord);
  rawQuestionOrder : list jsstring
}.

(** What [memoryData.memory] holds when it was exported from a memory. *)
Definition rawOfRecord (r : QuestionRecord) : RawRecord :=
  {| rawQuestionId := questionId r;
     rawQuestionText := Some (questionText r);
     rawOptions := Some (options r);
     rawAnswer := answer r;
     rawAnswerText := answerText r;
     rawConfidence := confidence r |}.

Definition exportMemory (mem : QuestionnaireMemory) : RawMemory :=
  {| rawQuestions := map (fun kv => (kv.1, rawOfRecord kv.2)) (questions mem);
     rawQuestionOrder := questionOrder mem |}.

(** [importMemory]: the assignment [this.memory = memoryData.memory]. *)
Definition importMemory (memoryData : RawMemory) : RawMemory := memoryData.

Definition typeErrorReading (property : string) : jsstring :=
  js "Cannot read properties of undefined (reading '" ++ js property ++ js "')".

(** [extractQuestionFeatures(questionText, options)]: the first statement
    calls [normalizeQuestionText], which evaluates [text.replace]; the
    second evaluates [options.map]. *)
Definition extractQuestionFeatures (text : option jsstring)
  (opts : option (list jsstring)) : Res QuestionFeatures :=
  match text with
  | None => Throw (typeErrorReading "replace")
  | Some t =>
      match opts with
      | None => Throw (typeErrorReading "map")
      | Some o => Ok (Memory.extractQuestionFeatures t o)
      end
  end.

(** The loop of [findSimilarQuestion]; there is no [try] around it. *)
Fixpoint scanRecords (current : QuestionFeatures) (threshold : Q)
  (records : list RawRecord) (best : option RawRecord * Q)
  : Res (option RawRecord * Q) :=
  match records with
  | [] => Ok best
  | r :: records' =>
      storedFeatures ← extractQuestionFeatures (rawQuestionText r) (rawOptions r);
      let similarity := calculateQuestionSimilarity current storedFeatures in
      scanRecords current threshold records'
        (if Qltb threshold similarity && Qltb best.2 similarity
         then (Some r, similarity) else best)
  end.

Definition findSimilarQuestion (mem : RawMemory)
  (text : jsstring) (opts : list jsstring) (similarityThreshold : Q)
  : Res (option RawRecord) :=
  let currentFeatures := Memory.extractQuestionFeatures text opts in
  best ← scanRecords currentFeatures similarityThreshold
           (objectValues (rawQuestions mem)) (None, 0%Q);
  Ok best.1.

(** [getConsistentAnswerSuggestion]: no [try] either; an exception of
    [findSimilarQuestion] leaves through it. *)
Definition getConsistentAnswerSuggestion (mem : RawMemory)
  (text : jsstring) (opts : list jsstring)
  : Res (option ConsistentAnswerSuggestion) :=
  found ← findSimilarQuestion mem text opts defaultThreshold;
  match found with
  | Some similarQuestion =>
      let position :=
        indexOfPlus1 (rawQuestionId similarQuestion) (rawQuestionOrder mem) in
      Ok (Some {| suggestedAnswer := rawAnswer similarQuestion;
                  suggestedAnswerText := rawAnswerText similarQuestion;
                  referenceQuestionId := rawQuestionId similarQuestion;
                  referenceQuestionText :=
                    default [] (rawQuestionText similarQuestion);
                  similarityReason :=
                    js "与第" ++ decimal (N.of_nat position) ++ js "题相似";
                  suggestionConfidence := rawConfidence similarQuestion |})
  | None => Ok None
  end.

End Imported.

(* ===================================================================== *)
(** * The cache of [MemoryManager] and its similar-memory lookup *)
(* ===================================================================== *)

Module MemoryManager.
Import JS.

(** A cached record; loaded from a JSON file or imported, so
    [questionText] may be missing. *)
Record MemoryRecord : Type := mkMemoryRecord {
  recordId : jsstring;
  recordPersonId : jsstring;
  recordQuestionText : option jsstring;
  recordAnswer : jsstring
}.

(** [text.split(/\s+/)]: the pieces between maximal runs of white space. *)
Definition splitSpaces (text : jsstring) : list jsstring :=
  split SP (replaceSpaceRuns text).

Definition calculateTextSimilarity (text1 text2 : jsstring) : Q :=
  let words1 : gset jsstring := list_to_set (splitSpaces text1) in
  let words2 : gset jsstring := list_to_set (splitSpaces text2) in
  let intersection : gset jsstring := filter (fun word => word ∈ words2) words1 in
  let union : gset jsstring := words1 ∪ words2 in
  (QofNat (size intersection) / QofNat (size union))%Q.

(** The body of the [try] block of [findSimilarMemory]: the loop over
    [this.memoryCache.values()] returns at the first record above 0.8. *)
Fixpoint scanCache (digitalPersonId normalizedQuestion : jsstring)
  (cache : list MemoryRecord) : Res (option MemoryRecord) :=
  match cache with
  | [] => Ok None
  | memory :: cache' =>
      if bool_decide (recordPersonId memory = digitalPersonId) then
        match recordQuestionText memory with
        | None => Throw (js "Cannot read properties of undefined (reading 'toLowerCase')")
        | Some text =>
            let similarity :=
              calculateTextSimilarity normalizedQuestion (trim (toLowerCase text)) in
            if Qltb (8 # 10) similarity then Ok (Some memory)
            else scanCache digitalPersonId normalizedQuestion cache'
        end
      else scanCache digitalPersonId normalizedQuestion cache'
  end.

(** [findSimilarMemory]: the whole body is inside [try]; the handler
    returns [null]. *)
Definition findSimilarMemory (cache : list MemoryRecord)
  (digitalPersonId questionText : jsstring) : option MemoryRecord :=
  tryCatch
    (let normalizedQuestion := trim (toLowerCase questionText) in
     scanCache digitalPersonId normalizedQuestion cache)
    (fun _ => None).

End MemoryManager.

(* ===================================================================== *)
(** * Completion detector ([IntelligentCompletionManager]) *)
(* ===================================================================== *)

Module Completion.
Import JS.

Record CompletionDetectionResult : Type := mkDetection {
  isSuccess : bool;
  successType : jsstring;
  completionScore : option Q;
  shouldCleanup : bool;
  details : jsstring;
  detectionTime : N;
  executionTime : Z
}.

Record PageStateHistory : Type := mkHistory {
  historyTimestamp : N;
  historyUrl : jsstring;
  historyTitle : jsstring;
  historyResult : CompletionDetectionResult
}.

(** The mutable fields of the manager. *)
Record Manager : Type := mkManager {
  pageStateHistory : list PageStateHistory;
  lastCompletionCheck : option N;
  completionCheckCount : nat;
  maxHistoryRecords : nat
}.

Definition newManager : Manager :=
  {| pageStateHistory := [];
     lastCompletionCheck := None;
     completionCheckCount := 0;
     maxHistoryRecords := 10 |}.

(** What the browser page answers during one detection. *)
Record Page : Type := mkPage {
  pageUrl : Res jsstring;                       (* page.url() *)
  pageTitle : Res jsstring;                     (* page.title() *)
  bodyTextContent : Res (option jsstring);      (* locator('body').textContent() *)
  locatorCount : jsstring -> Res nat            (* locator(selector).count() *)
}.

Definition completionSignals : list jsstring :=
  [ js "问卷已完成"; js "调查结束"; js "调研已结束"; js "感谢您的参与";
    js "survey completed"; js "questionnaire finished"; js "survey ended";
    js "thank you for participating"; js "submission successful" ].

Definition completionUrlPatterns : list jsstring :=
  [ js "thank-you"; js "completion"; js "success-page"; js "finished";
    js "submitted"; js "complete"; js "end-survey" ].

Definition errorKeywords : list jsstring :=
  [ js "系统崩溃"; js "server error"; js "服务器故障"; js "网站维护中";
    js "system error"; js "maintenance"; js "service unavailable" ].

(** The Playwright selector [text="..."] for an exact text. *)
Definition textSelector (text : jsstring) : jsstring :=
  js "text=" ++ [0x22%N] ++ text ++ [0x22%N].

Definition completionSelectors : list jsstring :=
  [ textSelector (js "问卷已完成"); textSelector (js "survey completed");
    textSelector (js "questionnaire finished"); textSelector (js "thank you");
    textSelector (js "submission successful") ].

(** The element test of one selector; an exception of [count] is ignored
    and the loop goes on. *)
Definition selectorMatches (page : Page) (selector : jsstring) : bool :=
  tryCatch (elementCount ← locatorCount page selector;
            Ok (0 <? elementCount)%nat)
           (fun _ => false).

Definition detectStrictCompletionSignals (page : Page)
  (currentUrl bodyText : jsstring) : bool :=
  let urlLower := toLowerCase currentUrl in
  if existsb (fun pattern => includes urlLower pattern) completionUrlPatterns
  then true
  else if existsb (fun signal => includes bodyText (toLowerCase signal))
                  completionSignals
  then true
  else if existsb (selectorMatches page) completionSelectors
  then true
  else false.

Definition detectErrorIndicators (bodyText : jsstring) : bool :=
  if existsb (fun keyword => includes bodyText (toLowerCase keyword)) errorKeywords
  then true
  else false.

Definition detectQuestionnaireContinuation (bodyText : jsstring) : bool := true.

Definition recordDetectionHistory (m : Manager) (now : N)
  (url title : jsstring) (completionResult : CompletionDetectionResult) : Manager :=
  let history := pageStateHistory m ++ [mkHistory now url title completionResult] in
  {| pageStateHistory :=
       if (maxHistoryRecords m <? length history)%nat
       then drop (length history - maxHistoryRecords m) history
       else history;
     lastCompletionCheck := Some now;
     completionCheckCount := completionCheckCount m;
     maxHistoryRecords := maxHistoryRecords m |}.

Definition completeResult (now : N) (executionTime : Z) : CompletionDetectionResult :=
  {| isSuccess := true;
     successType := js "complete";
     completionScore := Some (95 # 100)%Q;
     shouldCleanup := true;
     details := js "检测到明确的问卷结束信号";
     detectionTime := now;
     executionTime := executionTime |}.

Definition continueResult (now : N) (executionTime : Z) : CompletionDetectionResult :=
  {| isSuccess := false;
     successType := js "continue_answering";
     completionScore := None;
     shouldCleanup := false;
     details := js "继续智能作答流程，确保所有题目都能完成";
     detectionTime := now;
     executionTime := executionTime |}.

Definition errorResult (now : N) (executionTime : Z) (message : jsstring)
  : CompletionDetectionResult :=
  {| isSuccess := false;
     successType := js "detection_error";
     completionScore := None;
     shouldCleanup := false;
     details := js "检测过程异常: " ++ message;
     detectionTime := now;
     executionTime := executionTime |}.

(** The counter is incremented first, inside [try]; the history is
    written only when no exception occurred. *)
Definition intelligentCompletionDetection (m : Manager) (page : Page)
  (executionTime : Z) (now : N) : CompletionDetectionResult * Manager :=
  let m1 := {| pageStateHistory := pageStateHistory m;
               lastCompletionCheck := lastCompletionCheck m;
               completionCheckCount := completionCheckCount m + 1;
               maxHistoryRecords := maxHistoryRecords m |} in
  tryCatch
    (currentUrl ← pageUrl page;
     currentTitle ← pageTitle page;
     let bodyText :=
       tryCatch (content ← bodyTextContent page; Ok (default [] content))
                (fun _ => []) in
     let bodyTextLower := toLowerCase bodyText in
     let hasStrictCompletion :=
       detectStrictCompletionSignals page currentUrl bodyTextLower in
     let hasErrorIndicators := detectErrorIndicators bodyTextLower in
     let stillInQuestionnaire := detectQuestionnaireContinuation bodyTextLower in
     let completionResult :=
       if hasStrictCompletion then completeResult now executionTime
       else continueResult now executionTime in
     Ok (completionResult,
         recordDetectionHistory m1 now currentUrl currentTitle completionResult))
    (fun message => (errorResult now executionTime message, m1)).

End Completion.

(* ===================================================================== *)
(** * Continuous answering loop ([ContinuousAnsweringEnhancer]) *)
(* ===================================================================== *)

Module Loop.
Import JS.

Record NavigationOptions : Type := mkNavigationOptions {
  hasNextButton : bool;
  hasSubmitButton : bool;
  hasContinueButton : bool;
  nextButtonText : option jsstring;
  submitButtonText : option jsstring
}.

Inductive PageType : Type :=
| questionnaire | confirmation | thank_you | error | unknown.

Record PageState : Type := mkPageState {
  hasQuestions : bool;
  questionCount : nat;
  hasUnAnsweredQuestions : bool;
  navigationOptions : NavigationOptions;
  pageType : PageType;
  completionSignals : list jsstring
}.

Record NavigationResult : Type := mkNavigationResult {
  navSuccess : bool;
  navAction : jsstring;
  pageChanged : bool;
  navError : option jsstring
}.

Record PageStabilityResult : Type := mkStability {
  isStable : bool;
  changes : list jsstring
}.

(** The private fields that configure the loop. *)
Record Config : Type := mkConfig {
  maxContinuousAttempts : nat;
  pageStabilityTimeout : N;
  navigationRetryCount : nat;
  maxContinuousFailures : nat
}.

Definition defaultConfig : Config :=
  {| maxContinuousAttempts := 200;
     pageStabilityTimeout := 6000;
     navigationRetryCount := 5;
     maxContinuousFailures := 8 |}.

(** What the outside world answers during one round. *)
Record RoundWorld : Type := mkRoundWorld {
  extractOutcome : Res (option PageState);   (* page.extract; [Ok None]: no object *)
  detectionPage : Completion.Page;           (* the page, for the detector *)
  clock : N;                                 (* Date.now() *)
  answerAct : Res unit;                      (* page.act(enhancedPrompt) *)
  urlAfterAnswer : Res jsstring;             (* page.url() after answering *)
  backupAct : Res unit;                      (* page.act of the backup plan *)
  urlAfterBackup : Res jsstring;             (* page.url() in the backup plan *)
  navigationAct : Res unit;                  (* page.act of the navigation *)
  loadState : Res unit                       (* page.waitForLoadState *)
}.

(** The local variables of [executeContinuousAnswering] and the objects
    the enhancer owns. *)
Record LoopState : Type := mkLoopState {
  pagesProcessed : nat;
  totalQuestionsAnswered : nat;
  continuousFailures : nat;
  memoryManager : option Memory.QuestionnaireMemory;
  completionManager : Completion.Manager
}.

Record AnsweringResult : Type := mkAnsweringResult {
  totalPagesProcessed : nat;
  resultQuestionsAnswered : nat;
  finalStatus : jsstring;
  completionReason : jsstring
}.

(** Which exit of the loop was taken: the [return] inside the loop, a
    [break], or the loop condition. *)
Inductive Cause : Type :=
| DefiniteCompletion | FailureBudget | RoundBudget.

(** The returned object, with the number of rounds that were started and
    the exit taken. *)
Record Outcome : Type := mkOutcome {
  result : AnsweringResult;
  roundsRun : nat;
  cause : Cause
}.

Definition fallbackPageState : PageState :=
  {| hasQuestions := true;
     questionCount := 1;
     hasUnAnsweredQuestions := true;
     navigationOptions :=
       {| hasNextButton := false; hasSubmitButton := false;
          hasContinueButton := false;
          nextButtonText := None; submitButtonText := None |};
     pageType := unknown;
     completionSignals := [] |}.

(** [performDeepPageAnalysis]: the value [page.extract] resolved to, or the
    fallback analysis when it threw. *)
Definition performDeepPageAnalysis (w : RoundWorld) : option PageState :=
  tryCatch (pageState ← extractOutcome w; Ok pageState)
           (fun _ => Some fallbackPageState).

(** The records written after a successful answering action: one per
    counted question, all at the current URL. *)
Definition answeredCall (count i : nat) (currentUrl : jsstring) (now : N)
  : Memory.RecordCall :=
  {| Memory.callText :=
       js "页面" ++ decimal (N.of_nat count) ++ js "题目" ++ decimal (N.of_nat (i + 1));
     Memory.callType := js "mixed";
     Memory.callOptions := [];
     Memory.callAnswer := js "answered";
     Memory.callAnswerText :=
       js "智能作答第" ++ decimal (N.of_nat (i + 1)) ++ js "题";
     Memory.callPageUrl := currentUrl;
     Memory.callAttempts := 1;
     Memory.callConfidence := (9 # 10)%Q;
     Memory.callNow := now |}.

Definition backupCall (currentUrl : jsstring) (now : N) : Memory.RecordCall :=
  {| Memory.callText := js "备用作答题目";
     Memory.callType := js "unknown";
     Memory.callOptions := [];
     Memory.callAnswer := js "backup_answered";
     Memory.callAnswerText := js "备用方案作答";
     Memory.callPageUrl := currentUrl;
     Memory.callAttempts := 1;
     Memory.callConfidence := 1%Q;
     Memory.callNow := now |}.

(** [this.memoryManager.advancePosition()] *)
Definition advancePosition (mem : Memory.QuestionnaireMemory)
  : Memory.QuestionnaireMemory :=
  {| Memory.questionnaireId := Memory.questionnaireId mem;
     Memory.digitalPersonId := Memory.digitalPersonId mem;
     Memory.startTime := Memory.startTime mem;
     Memory.questions := Memory.questions mem;
     Memory.questionOrder := Memory.questionOrder mem;
     Memory.currentPosition := Memory.currentPosition mem + 1;
     Memory.totalQuestions := Memory.totalQuestions mem;
     Memory.completedQuestions := Memory.completedQuestions mem |}.

(** [answerQuestionsIntelligently]: the main plan inside [try], the backup
    plan inside the handler's own [try].  Returns the count of answered
    questions and the memory manager afterwards. *)
Definition answerQuestionsIntelligently (w : RoundWorld) (pageState : PageState)
  (memory : option Memory.QuestionnaireMemory)
  : nat * option Memory.QuestionnaireMemory :=
  let mainPlan : Res (nat * option Memory.QuestionnaireMemory) :=
    _ ← answerAct w;
    memory' ← match memory with
              | Some mem =>
                  currentUrl ← urlAfterAnswer w;
                  let calls :=
                    map (fun i => answeredCall (questionCount pageState) i
                                               currentUrl (clock w))
                        (seq 0 (questionCount pageState)) in
                  Ok (Some (advancePosition (Memory.recordAll mem calls)))
              | None => Ok None
              end;
    Ok (questionCount pageState, memory') in
  tryCatch mainPlan
    (fun _ =>
       match backupAct w with
       | Throw _ => (0%nat, memory)
       | Ok _ =>
           match memory with
           | Some mem =>
               match urlAfterBackup w with
               | Ok currentUrl =>
                   (1%nat,
                    Some (Memory.recordQuestionAnswer mem
                            (backupCall currentUrl (clock w))).2)
               | Throw _ => (1%nat, memory)
               end
           | None => (1%nat, memory)
           end
       end).

Definition navigationFailed (message : jsstring) : NavigationResult :=
  {| navSuccess := false; navAction := js "导航失败";
     pageChanged := false; navError := Some message |}.

Definition navigationDone (action : jsstring) : NavigationResult :=
  {| navSuccess := true; navAction := action;
     pageChanged := true; navError := None |}.

Definition undefinedText (t : option jsstring) : jsstring :=
  default (js "undefined") t.

(** [performIntelligentNavigation]: submit, then next, then continue, then
    a search; whichever is chosen is one [page.act] call. *)
Definition performIntelligentNavigation (w : RoundWorld) (pageState : PageState)
  : NavigationResult :=
  let opts := navigationOptions pageState in
  tryCatch
    (if hasSubmitButton opts then
       _ ← navigationAct w;
       Ok (navigationDone (js "点击提交按钮: " ++ undefinedText (submitButtonText opts)))
     else if hasNextButton opts then
       _ ← navigationAct w;
       Ok (navigationDone (js "点击下一页按钮: " ++ undefinedText (nextButtonText opts)))
     else if hasContinueButton opts then
       _ ← navigationAct w;
       Ok (navigationDone (js "点击继续按钮"))
     else
       _ ← navigationAct w;
       Ok (navigationDone (js "智能搜索并点击导航按钮")))
    navigationFailed.

Definition waitForPageStability (w : RoundWorld) : PageStabilityResult :=
  tryCatch
    (_ ← loadState w;
     Ok {| isStable := true; changes := [js "网络请求已完成"; js "DOM结构已稳定"] |})
    (fun _ => {| isStable := false; changes := [js "等待超时"] |}).

(** How one round ends. *)
Inductive RoundExit : Type :=
| Returned (r : AnsweringResult)
| Broke
| NextRound.

(** The handler of the round's [try]: one more failure, and a [break] once
    the budget is reached. *)
Definition roundCatch (cfg : Config) (st : LoopState) : LoopState * RoundExit :=
  let failures := continuousFailures st + 1 in
  let st' := {| pagesProcessed := pagesProcessed st;
                totalQuestionsAnswered := totalQuestionsAnswered st;
                continuousFailures := failures;
                memoryManager := memoryManager st;
                completionManager := completionManager st |} in
  if (maxContinuousFailures cfg <=? failures)%nat then (st', Broke)
  else (st', NextRound).

(** The body of the round's [try], for a page analysis that is an object. *)
Definition roundBody (cfg : Config) (attempt : nat) (w : RoundWorld)
  (st : LoopState) (pageState : PageState) : LoopState * RoundExit :=
  let '(completionResult, manager') :=
    Completion.intelligentCompletionDetection (completionManager st)
      (detectionPage w)
      (Z.of_N (clock w) - Z.of_nat attempt * 1000)%Z (clock w) in
  if Completion.isSuccess completionResult
     && Completion.shouldCleanup completionResult
  then
    ({| pagesProcessed := pagesProcessed st;
        totalQuestionsAnswered := totalQuestionsAnswered st;
        continuousFailures := continuousFailures st;
        memoryManager := memoryManager st;
        completionManager := manager' |},
     Returned {| totalPagesProcessed := pagesProcessed st;
                 resultQuestionsAnswered := totalQuestionsAnswered st;
                 finalStatus := js "completed";
                 completionReason := Completion.details completionResult |})
  else
    let '(answered, memory') :=
      if hasQuestions pageState && hasUnAnsweredQuestions pageState
      then answerQuestionsIntelligently w pageState (memoryManager st)
      else (0%nat, memoryManager st) in
    let total' := (totalQuestionsAnswered st + answered)%nat in
    let navigationResult := performIntelligentNavigation w pageState in
    if negb (navSuccess navigationResult) then
      let failures := continuousFailures st + 1 in
      let st' := {| pagesProcessed := pagesProcessed st;
                    totalQuestionsAnswered := total';
                    continuousFailures := failures;
                    memoryManager := memory';
                    completionManager := manager' |} in
      if (maxContinuousFailures cfg <=? failures)%nat then (st', Broke)
      else (st', NextRound)
    else
      let stability :=
        if pageChanged navigationResult then Some (waitForPageStability w)
        else None in
      ({| pagesProcessed := pagesProcessed st + 1;
          totalQuestionsAnswered := total';
          continuousFailures := 0;
          memoryManager := memory';
          completionManager := manager' |},
       NextRound).

(** One iteration of the [for] loop.  The first statement of the [try]
    that can throw is the read of [pageState.hasQuestions], when the
    analysis is not an object; nothing was assigned before it. *)
Definition runRound (cfg : Config) (attempt : nat) (w : RoundWorld)
  (st : LoopState) : LoopState * RoundExit :=
  match performDeepPageAnalysis w with
  | Some pageState => roundBody cfg attempt w st pageState
  | None => roundCatch cfg st
  end.

(** The statement after the loop. *)
Definition finish (st : LoopState) : AnsweringResult :=
  {| totalPagesProcessed := pagesProcessed st;
     resultQuestionsAnswered := totalQuestionsAnswered st;
     finalStatus :=
       if (0 <? pagesProcessed st)%nat then js "partial_completed" else js "failed";
     completionReason :=
       js "处理了" ++ decimal (N.of_nat (pagesProcessed st)) ++ js "页，回答了"
       ++ decimal (N.of_nat (totalQuestionsAnswered st)) ++ js "个问题" |}.

(** The [for] loop from round [attempt], with [remaining] rounds left
    before [attempt] exceeds [maxContinuousAttempts]. *)
Fixpoint rounds (cfg : Config) (worlds : nat -> RoundWorld)
  (remaining attempt : nat) (st : LoopState) : Outcome :=
  match remaining with
  | O => {| result := finish st; roundsRun := attempt - 1; cause := RoundBudget |}
  | S remaining' =>
      match runRound cfg attempt (worlds attempt) st with
      | (_, Returned r) =>
          {| result := r; roundsRun := attempt; cause := DefiniteCompletion |}
      | (st', Broke) =>
          {| result := finish st'; roundsRun := attempt; cause := FailureBudget |}
      | (st', NextRound) => rounds cfg worlds remaining' (S attempt) st'
      end
  end.

Definition initialState (memory : option Memory.QuestionnaireMemory)
  (manager : Completion.Manager) : LoopState :=
  {| pagesProcessed := 0;
     totalQuestionsAnswered := 0;
     continuousFailures := 0;
     memoryManager := memory;
     completionManager := manager |}.

Definition executeContinuousAnswering (cfg : Config)
  (memory : option Memory.QuestionnaireMemory) (manager : Completion.Manager)
  (worlds : nat -> RoundWorld) : Outcome :=
  rounds cfg worlds (maxContinuousAttempts cfg) 1 (initialState memory manager).

End Loop.

(* ===================================================================== *)
(** * Resource cleanup ([UnifiedResourceCleanupManager]) *)
(* ===================================================================== *)

Module Cleanup.
Import JS.

(** Objects owned by other components are known by an identity only. *)
Definition Handle : Type := nat.

Record Stagehand : Type := mkStagehand {
  stagehandId : Handle;
  context : option Handle
}.

(** [SessionResourceData]; an optional field that is [undefined] is [None]. *)
Record SessionResourceData : Type := mkSessionData {
  sessionId : jsstring;
  profileId : option jsstring;
  proxyInfo : option Handle;
  stagehand : option Stagehand;
  superEngine : option Handle;
  browserInfo : option Handle;
  adsPowerManager : option Handle;
  proxyManager : option Handle;
  memoryManager : option Handle;
  digitalPersonMemoryManager : option Handle;
  monitorInterval : option Handle;
  monitorStopFlag : option bool;
  additionalResources : option (list (jsstring * Handle))
}.

Inductive CleanupPhase : Type :=
| INIT | STOP_MONITORING | CLEANUP_STAGEHAND | CLEANUP_MEMORY
| CLEANUP_ADSPOWER | CLEANUP_PROXY | CLEANUP_THREADS | COMPLETED.

(** One entry of [cleanupResults]. *)
Record PhaseResult : Type := mkPhaseResult {
  phaseName : jsstring;
  phaseSuccess : bool;
  phaseCleanupCount : option nat;
  phaseDetails : option jsstring;
  phaseError : option jsstring
}.

Record CleanupResult : Type := mkCleanupResult {
  success : bool;
  cleanupTime : Z;
  phasesCompleted : nat;
  details : gmap string PhaseResult;
  errors : list jsstring
}.

(** The fields of the manager. *)
Record Manager : Type := mkManager {
  currentPhase : CleanupPhase;
  cleanupStartTime : N;
  cleanupResults : gmap string PhaseResult
}.

Definition newManager : Manager :=
  {| currentPhase := INIT; cleanupStartTime := 0; cleanupResults := ∅ |}.

(** Calls that reach outside the manager. *)
Inductive Effect : Type :=
| ClearInterval (timer : Handle)
| PauseEngine (engine : Handle)
| ContextPages (ctx : Handle)
| FirstPageUrl (ctx : Handle)
| ContextClose (ctx : Handle)
| SaveMemoryToDisk (memory : Handle)
| CleanupMemory (memory : Handle)
| StopBrowser (profile : jsstring)       (* GET /browser/stop *)
| DeleteProfile (profile : jsstring)     (* POST /user/delete *)
| ClearResources.

(** What the outside answers during one cleanup. *)
Record World : Type := mkWorld {
  startClock : N;                                 (* Date.now() on entry *)
  endClock : N;                                   (* Date.now() on exit *)
  pauseOutcome : Res unit;                        (* superEngine.pause() *)
  pagesOutcome : Res (list (option (Res jsstring)));
     (* context.pages(): the pages, each with what its url() answers *)
  closeOutcome : Res unit;                        (* context.close() *)
  saveOutcome : Res unit;                         (* saveMemoryToDisk() *)
  cleanupMemoryOutcome : Res unit;                (* cleanupMemory() *)
  stopOutcome : Res unit;                         (* the stop request *)
  deleteOutcome : Res unit;                       (* the delete request *)
  fallbackCloseOutcome : Res unit                 (* context.close() of the fallback *)
}.

(** The state a cleanup works on: the session data object (shared with
    the caller), the cleanup manager, the registry [activeBrowsers] of the
    AdsPower manager (key to the profile id of its browser), the registries
    [allocatedProxies] and [proxyUsageStats] of the proxy manager, and the
    outside calls made so far, oldest first. *)
Record CState : Type := mkCState {
  data : SessionResourceData;
  manager : Manager;
  activeBrowsers : gmap (list N) (list N);
  allocatedProxies : gmap (list N) Handle;
  proxyUsageStats : gmap (list N) N;
  trace : list Effect
}.

(** A computation that updates the state and returns or throws; what it
    assigned before throwing stays assigned. *)
Definition M (A : Type) : Type := CState -> CState * Res A.

#[global] Instance M_ret : MRet M := fun A a s => (s, Ok a).
#[global] Instance M_bind : MBind M := fun A B k m s =>
  match m s with
  | (s', Ok a) => k a s'
  | (s', Throw e) => (s', Throw e)
  end.

Definition tryCatchM {A : Type} (body : M A) (handler : jsstring -> M A) : M A :=
  fun s =>
    match body s with
    | (s', Ok a) => (s', Ok a)
    | (s', Throw e) => handler e s'
    end.

Definition getData : M SessionResourceData := fun s => (s, Ok (data s)).

Definition getState : M CState := fun s => (s, Ok s).

Definition setData (f : SessionResourceData -> SessionResourceData) : M unit :=
  fun s => ({| data := f (data s); manager := manager s;
               activeBrowsers := activeBrowsers s;
               allocatedProxies := allocatedProxies s;
               proxyUsageStats := proxyUsageStats s;
               trace := trace s |}, Ok tt).

Definition setManager (f : Manager -> Manager) : M unit :=
  fun s => ({| data := data s; manager := f (manager s);
               activeBrowsers := activeBrowsers s;
               allocatedProxies := allocatedProxies s;
               proxyUsageStats := proxyUsageStats s;
               trace := trace s |}, Ok tt).

Definition deleteBrowser (key : jsstring) : M unit :=
  fun s => ({| data := data s; manager := manager s;
               activeBrowsers := delete key (activeBrowsers s);
               allocatedProxies := allocatedProxies s;
               proxyUsageStats := proxyUsageStats s;
               trace := trace s |}, Ok tt).

Definition deleteProxy (key : jsstring) : M unit :=
  fun s => ({| data := data s; manager := manager s;
               activeBrowsers := activeBrowsers s;
               allocatedProxies := delete key (allocatedProxies s);
               proxyUsageStats := delete key (proxyUsageStats s);
               trace := trace s |}, Ok tt).

(** An outside call: it is recorded, then it returns or throws. *)
Definition call {A : Type} (e : Effect) (outcome : Res A) : M A :=
  fun s => ({| data := data s; manager := manager s;
               activeBrowsers := activeBrowsers s;
               allocatedProxies := allocatedProxies s;
               proxyUsageStats := proxyUsageStats s;
               trace := trace s ++ [e] |},
            outcome).

Definition setPhase (p : CleanupPhase) : M unit :=
  setManager (fun m => {| currentPhase := p;
                          cleanupStartTime := cleanupStartTime m;
                          cleanupResults := cleanupResults m |}).

Definition setResult (key : string) (r : PhaseResult) : M unit :=
  setManager (fun m => {| currentPhase := currentPhase m;
                          cleanupStartTime := cleanupStartTime m;
                          cleanupResults := <[key := r]> (cleanupResults m) |}).

Definition phaseDone (name : string) (count : option nat) (text : string)
  : PhaseResult :=
  {| phaseName := js name; phaseSuccess := true; phaseCleanupCount := count;
     phaseDetails := Some (js text); phaseError := None |}.

Definition phaseFailed (name : string) (message : jsstring) : PhaseResult :=
  {| phaseName := js name; phaseSuccess := false; phaseCleanupCount := None;
     phaseDetails := None; phaseError := Some message |}.

(** Field assignments on the session data object. *)
Definition withStopFlag (v : option bool) (d : SessionResourceData) :=
  {| sessionId := sessionId d; profileId := profileId d; proxyInfo := proxyInfo d;
     stagehand := stagehand d; superEngine := superEngine d;
     browserInfo := browserInfo d; adsPowerManager := adsPowerManager d;
     proxyManager := proxyManager d; memoryManager := memoryManager d;
     digitalPersonMemoryManager := digitalPersonMemoryManager d;
     monitorInterval := monitorInterval d; monitorStopFlag := v;
     additionalResources := additionalResources d |}.

Definition withInterval (v : option Handle) (d : SessionResourceData) :=
  {| sessionId := sessionId d; profileId := profileId d; proxyInfo := proxyInfo d;
     stagehand := stagehand d; superEngine := superEngine d;
     browserInfo := browserInfo d; adsPowerManager := adsPowerManager d;
     proxyManager := proxyManager d; memoryManager := memoryManager d;
     digitalPersonMemoryManager := digitalPersonMemoryManager d;
     monitorInterval := v; monitorStopFlag := monitorStopFlag d;
     additionalResources := additionalResources d |}.

Definition withStagehand (v : option Stagehand) (d : SessionResourceData) :=
  {| sessionId := sessionId d; profileId := profileId d; proxyInfo := proxyInfo d;
     stagehand := v; superEngine := superEngine d;
     browserInfo := browserInfo d; adsPowerManager := adsPowerManager d;
     proxyManager := proxyManager d; memoryManager := memoryManager d;
     digitalPersonMemoryManager := digitalPersonMemoryManager d;
     monitorInterval := monitorInterval d; monitorStopFlag := monitorStopFlag d;
     additionalResources := additionalResources d |}.

Definition withSuperEngine (v : option Handle) (d : SessionResourceData) :=
  {| sessionId := sessionId d; profileId := profileId d; proxyInfo := proxyInfo d;
     stagehand := stagehand d; superEngine := v;
     browserInfo := browserInfo d; adsPowerManager := adsPowerManager d;
     proxyManager := proxyManager d; memoryManager := memoryManager d;
     digitalPersonMemoryManager := digitalPersonMemoryManager d;
     monitorInterval := monitorInterval d; monitorStopFlag := monitorStopFlag d;
     additionalResources := additionalResources d |}.

Definition withMemoryManager (v : option Handle) (d : SessionResourceData) :=
  {| sessionId := sessionId d; profileId := profileId d; proxyInfo := proxyInfo d;
     stagehand := stagehand d; superEngine := superEngine d;
     browserInfo := browserInfo d; adsPowerManager := adsPowerManager d;
     proxyManager := proxyManager d; memoryManager := v;
     digitalPersonMemoryManager := digitalPersonMemoryManager d;
     monitorInterval := monitorInterval d; monitorStopFlag := monitorStopFlag d;
     additionalResources := additionalResources d |}.

Definition withPersonMemory (v : option Handle) (d : SessionResourceData) :=
  {| sessionId := sessionId d; profileId := profileId d; proxyInfo := proxyInfo d;
     stagehand := stagehand d; superEngine := superEngine d;
     browserInfo := browserInfo d; adsPowerManager := adsPowerManager d;
     proxyManager := proxyManager d; memoryManager := memoryManager d;
     digitalPersonMemoryManager := v;
     monitorInterval := monitorInterval d; monitorStopFlag := monitorStopFlag d;
     additionalResources := additionalResources d |}.

Definition withBrowserInfo (v : option Handle) (d : SessionResourceData) :=
  {| sessionId := sessionId d; profileId := profileId d; proxyInfo := proxyInfo d;
     stagehand := stagehand d; superEngine := superEngine d;
     browserInfo := v; adsPowerManager := adsPowerManager d;
     proxyManager := proxyManager d; memoryManager := memoryManager d;
     digitalPersonMemoryManager := digitalPersonMemoryManager d;
     monitorInterval := monitorInterval d; monitorStopFlag := monitorStopFlag d;
     additionalResources := additionalResources d |}.

Definition withProxyInfo (v : option Handle) (d : SessionResourceData) :=
  {| sessionId := sessionId d; profileId := profileId d; proxyInfo := v;
     stagehand := stagehand d; superEngine := superEngine d;
     browserInfo := browserInfo d; adsPowerManager := adsPowerManager d;
     proxyManager := proxyManager d; memoryManager := memoryManager d;
     digitalPersonMemoryManager := digitalPersonMemoryManager d;
     monitorInterval := monitorInterval d; monitorStopFlag := monitorStopFlag d;
     additionalResources := additionalResources d |}.

Definition withAdditional (v : option (list (jsstring * Handle)))
  (d : SessionResourceData) :=
  {| sessionId := sessionId d; profileId := profileId d; proxyInfo := proxyInfo d;
     stagehand := stagehand d; superEngine := superEngine d;
     browserInfo := browserInfo d; adsPowerManager := adsPowerManager d;
     proxyManager := proxyManager d; memoryManager := memoryManager d;
     digitalPersonMemoryManager := digitalPersonMemoryManager d;
     monitorInterval := monitorInterval d; monitorStopFlag := monitorStopFlag d;
     additionalResources := v |}.

(** A string is truthy when it is not empty. *)
Definition truthy (s : jsstring) : bool :=
  match s with
  | [] => false
  | _ :: _ => true
  end.

Definition truthyOpt (s : option jsstring) : bool :=
  match s with
  | Some t => truthy t
  | None => false
  end.

(** ** The two managers the phases call *)

(** [AdsPowerManager.cleanupBrowser(sessionId)]: nothing to do when the
    registry has no browser under the key; otherwise the stop and delete
    requests (whose failures [stopBrowser] and [deleteBrowserProfile]
    swallow) and the removal of the entry. *)
Definition cleanupBrowser (w : World) (key : jsstring) : M unit :=
  tryCatchM
    (s ← getState;
     match activeBrowsers s !! key with
     | None => mret tt
     | Some profile =>
         _ ← tryCatchM (call (StopBrowser profile) (stopOutcome w))
                       (fun _ => mret tt);
         _ ← tryCatchM (call (DeleteProfile profile) (deleteOutcome w))
                       (fun _ => mret tt);
         deleteBrowser key
     end)
    (fun _ => mret tt).

(** [QinguoProxyManager.releaseProxy(sessionId)] *)
Definition releaseProxy (key : jsstring) : M bool :=
  tryCatchM
    (s ← getState;
     match allocatedProxies s !! key with
     | Some _ =>
         _ ← deleteProxy key;
         mret true
     | None => mret false
     end)
    (fun _ => mret false).

(** ** The six phases *)

Definition phase1StopMonitoring (w : World) : M unit :=
  _ ← setPhase STOP_MONITORING;
  tryCatchM
    (d ← getData;
     _ ← match monitorInterval d with
         | Some timer =>
             _ ← call (ClearInterval timer) (Ok tt);
             setData (withStopFlag (Some true))
         | None => mret tt
         end;
     _ ← match superEngine d with
         | Some engine => call (PauseEngine engine) (pauseOutcome w)
         | None => mret tt
         end;
     setResult "phase1" (phaseDone "停止监控" None "监控线程和智能服务已停止"))
    (fun message => setResult "phase1" (phaseFailed "停止监控" message)).

(** The inner [try] of phase 2; returns the increment of [cleanupCount]. *)
Definition closeOwnedContext (w : World) (sh : Stagehand) : M nat :=
  tryCatchM
    (_ ← match context sh with
         | Some ctx =>
             contextPages ← call (ContextPages ctx) (pagesOutcome w);
             match contextPages with
             | Some firstPage :: _ =>
                 firstPageUrl ← call (FirstPageUrl ctx) firstPage;
                 if negb (includes firstPageUrl (js "chrome://"))
                    && negb (includes firstPageUrl (js "about:"))
                 then mret tt
                 else call (ContextClose ctx) (closeOutcome w)
             | _ => mret tt
             end
         | None => mret tt
         end;
     mret 1)
    (fun _ => mret 0).

Definition phase2CleanupStagehand (w : World) : M unit :=
  _ ← setPhase CLEANUP_STAGEHAND;
  tryCatchM
    (d ← getData;
     count1 ← match stagehand d with
              | Some sh =>
                  n ← closeOwnedContext w sh;
                  _ ← setData (withStagehand None);
                  mret n
              | None => mret 0
              end;
     count2 ← match superEngine d with
              | Some _ =>
                  _ ← setData (withSuperEngine None);
                  mret (count1 + 1)
              | None => mret count1
              end;
     setResult "phase2"
       (phaseDone "清理Stagehand服务" (Some count2) "Stagehand相关资源已清理"))
    (fun message => setResult "phase2" (phaseFailed "清理Stagehand服务" message)).

Definition phase3CleanupMemory (w : World) : M unit :=
  _ ← setPhase CLEANUP_MEMORY;
  tryCatchM
    (d ← getData;
     count1 ← match memoryManager d with
              | Some _ =>
                  _ ← setData (withMemoryManager None);
                  mret 1
              | None => mret 0
              end;
     count2 ← match digitalPersonMemoryManager d with
              | Some memory =>
                  n ← tryCatchM
                        (_ ← call (SaveMemoryToDisk memory) (saveOutcome w);
                         _ ← call (CleanupMemory memory) (cleanupMemoryOutcome w);
                         mret (count1 + 1))
                        (fun _ => mret count1);
                  _ ← setData (withPersonMemory None);
                  mret n
              | None => mret count1
              end;
     setResult "phase3" (phaseDone "清理记忆资源" (Some count2) "记忆管理器已清理"))
    (fun message => setResult "phase3" (phaseFailed "清理记忆资源" message)).

Definition phase4CleanupAdsPower (w : World) : M unit :=
  _ ← setPhase CLEANUP_ADSPOWER;
  tryCatchM
    (d ← getData;
     count1 ← match adsPowerManager d, truthyOpt (profileId d) with
              | Some mgr, true =>
                  tryCatchM
                    (_ ← cleanupBrowser w (default [] (profileId d));
                     mret 1)
                    (fun _ => mret 0)
              | _, _ => mret 0
              end;
     count2 ← match browserInfo d with
              | Some _ =>
                  _ ← setData (withBrowserInfo None);
                  mret (count1 + 1)
              | None => mret count1
              end;
     setResult "phase4"
       (phaseDone "清理AdsPower浏览器" (Some count2) "AdsPower浏览器资源已清理"))
    (fun message => setResult "phase4" (phaseFailed "清理AdsPower浏览器" message)).

Definition phase5CleanupProxy (w : World) : M unit :=
  _ ← setPhase CLEANUP_PROXY;
  tryCatchM
    (d ← getData;
     count1 ← match proxyManager d, truthy (sessionId d) with
              | Some mgr, true =>
                  tryCatchM
                    (_ ← releaseProxy (sessionId d);
                     mret 1)
                    (fun _ => mret 0)
              | _, _ => mret 0
              end;
     count2 ← match proxyInfo d with
              | Some _ =>
                  _ ← setData (withProxyInfo None);
                  mret (count1 + 1)
              | None => mret count1
              end;
     setResult "phase5" (phaseDone "清理代理资源" (Some count2) "代理资源已清理"))
    (fun message => setResult "phase5" (phaseFailed "清理代理资源" message)).

Definition phase6CleanupThreads (w : World) : M unit :=
  _ ← setPhase CLEANUP_THREADS;
  tryCatchM
    (d ← getData;
     count1 ← match monitorInterval d with
              | Some timer =>
                  _ ← call (ClearInterval timer) (Ok tt);
                  _ ← setData (withInterval None);
                  mret 1
              | None => mret 0
              end;
     count2 ← match additionalResources d with
              | Some _ =>
                  _ ← call ClearResources (Ok tt);
                  _ ← setData (withAdditional None);
                  mret (count1 + 1)
              | None => mret count1
              end;
     _ ← setData (withStopFlag (Some true));
     setResult "phase6" (phaseDone "清理线程和任务" (Some count2) "所有线程和任务已清理"))
    (fun message => setResult "phase6" (phaseFailed "清理线程和任务" message)).

Definition fallbackCleanup (w : World) : M unit :=
  tryCatchM
    (d ← getData;
     _ ← match monitorInterval d with
         | Some timer => call (ClearInterval timer) (Ok tt)
         | None => mret tt
         end;
     match stagehand d with
     | Some sh =>
         match context sh with
         | Some ctx =>
             tryCatchM (call (ContextClose ctx) (fallbackCloseOutcome w))
                       (fun _ => mret tt)
         | None => mret tt
         end
     | None => mret tt
     end)
    (fun _ => mret tt).

Definition report (ok : bool) (w : World) (errs : list jsstring) : M CleanupResult :=
  fun s =>
    (s, Ok {| success := ok;
              cleanupTime := (Z.of_N (endClock w) - Z.of_N (cleanupStartTime (manager s)))%Z;
              phasesCompleted := size (cleanupResults (manager s));
              details := cleanupResults (manager s);
              errors := errs |}).

Definition executeComprehensiveCleanup (w : World) (reason : jsstring)
  : M CleanupResult :=
  _ ← setManager (fun m => {| currentPhase := currentPhase m;
                              cleanupStartTime := startClock w;
                              cleanupResults := cleanupResults m |});
  tryCatchM
    (_ ← phase1StopMonitoring w;
     _ ← phase2CleanupStagehand w;
     _ ← phase3CleanupMemory w;
     _ ← phase4CleanupAdsPower w;
     _ ← phase5CleanupProxy w;
     _ ← phase6CleanupThreads w;
     _ ← setPhase COMPLETED;
     report true w [])
    (fun errorMessage =>
       fallbackFailure ←
         tryCatchM (_ ← fallbackCleanup w; mret None)
                   (fun message => mret (Some (js "降级清理失败: " ++ message)));
       report false w (errorMessage :: from_option (fun m => [m]) [] fallbackFailure)).

(** The state in which a cleanup starts when it follows [s]: the same
    objects, and no outside call made yet. *)
Definition freshTrace (s : CState) : CState :=
  {| data := data s; manager := manager s;
     activeBrowsers := activeBrowsers s;
     allocatedProxies := allocatedProxies s;
     proxyUsageStats := proxyUsageStats s;
     trace := [] |}.

(** One call of the cleanup. *)
Definition cleanup (w : World) (reason : jsstring) (s : CState)
  : CState * Res CleanupResult :=
  executeComprehensiveCleanup w reason (freshTrace s).

(** Every handle the phases release has been released. *)
Definition released (d : SessionResourceData) : Prop :=
  stagehand d = None /\ superEngine d = None /\ memoryManager d = None
  /\ digitalPersonMemoryManager d = None /\ browserInfo d = None
  /\ proxyInfo d = None /\ monitorInterval d = None
  /\ additionalResources d = None /\ monitorStopFlag d = Some true.

End Cleanup.

(* ===================================================================== *)
(** * What a cleanup leaves behind *)
(* ===================================================================== *)

Module CleanupEffect.
Import JS Cleanup.

(** The session data after phase 1: the stop flag is set when a timer
    was registered. *)
Definition afterPhase1 (d : SessionResourceData) : SessionResourceData :=
  match monitorInterval d with
  | Some _ => withStopFlag (Some true) d
  | None => d
  end.

(** The session data after all six phases. *)
Definition releaseAll (d : SessionResourceData) : SessionResourceData :=
  {| sessionId := sessionId d; profileId := profileId d; proxyInfo := None;
     stagehand := None; superEngine := None; browserInfo := None;
     adsPowerManager := adsPowerManager d; proxyManager := proxyManager d;
     memoryManager := None; digitalPersonMemoryManager := None;
     monitorInterval := None; monitorStopFlag := Some true;
     additionalResources := None |}.

(** Phase 4 calls [cleanupBrowser], and phase 5 [releaseProxy]. *)
Definition callsCleanupBrowser (d : SessionResourceData) : bool :=
  match adsPowerManager d with
  | Some _ => truthyOpt (profileId d)
  | None => false
  end.

Definition callsReleaseProxy (d : SessionResourceData) : bool :=
  match proxyManager d with
  | Some _ => truthy (sessionId d)
  | None => false
  end.

Definition browsersAfter (s : CState) : gmap (list N) (list N) :=
  if callsCleanupBrowser (data s)
  then delete (default [] (profileId (data s))) (activeBrowsers s)
  else activeBrowsers s.

Definition proxiesAfter (s : CState) : gmap (list N) Handle :=
  if callsReleaseProxy (data s)
  then delete (sessionId (data s)) (allocatedProxies s)
  else allocatedProxies s.

Definition usageAfter (s : CState) : gmap (list N) N :=
  if callsReleaseProxy (data s)
  then match allocatedProxies s !! sessionId (data s) with
       | Some _ => delete (sessionId (data s)) (proxyUsageStats s)
       | None => proxyUsageStats s
       end
  else proxyUsageStats s.

(** A state in which a cleanup has nothing left to do: the handles are
    released, and the registries hold nothing under the keys the cleanup
    would pass to the two managers. *)
Definition cleaned (s : CState) : Prop :=
  released (data s)
  /\ (callsCleanupBrowser (data s) = true ->
      activeBrowsers s !! default [] (profileId (data s)) = None)
  /\ (callsReleaseProxy (data s) = true ->
      allocatedProxies s !! sessionId (data s) = None).

(** A step that returns normally, touches nothing but the cleanup
    manager's own fields, and adds [events] to the outside calls. *)
Definition stepsTo (s s' : CState) (d' : SessionResourceData)
  (events : list Effect) : Prop :=
  data s' = d' /\ trace s' = trace s ++ events.

(** The state after the six phases, each run on the state the previous
    one left. *)
Definition afterPhases (w : World) (s : CState) : CState :=
  let s0 := (setManager (fun m => {| currentPhase := currentPhase m;
                                     cleanupStartTime := startClock w;
                                     cleanupResults := cleanupResults m |}) s).1 in
  let s1 := (phase1StopMonitoring w s0).1 in
  let s2 := (phase2CleanupStagehand w s1).1 in
  let s3 := (phase3CleanupMemory w s2).1 in
  let s4 := (phase4CleanupAdsPower w s3).1 in
  let s5 := (phase5CleanupProxy w s4).1 in
  let s6 := (phase6CleanupThreads w s5).1 in
  (setPhase COMPLETED s6).1.

(** What a phase does to a state: it returns normally, turns the session
    data into [d'] and the registries into [browsers'], [proxies'] and
    [usage'], and makes some outside calls, none when [quiet] holds. *)
Definition phaseEffect (phase : M unit) (s : CState)
  (d' : SessionResourceData) (browsers' : gmap (list N) (list N))
  (proxies' : gmap (list N) Handle) (usage' : gmap (list N) N)
  (quiet : Prop) : Prop :=
  (phase s).2 = Ok tt
  /\ data (phase s).1 = d'
  /\ activeBrowsers (phase s).1 = browsers'
  /\ allocatedProxies (phase s).1 = proxies'
  /\ proxyUsageStats (phase s).1 = usage'
  /\ exists events, trace (phase s).1 = trace s ++ events
                    /\ (quiet -> events = []).

(** Symbolic execution of a phase, once the values its [match]es wait for
    are known. *)
Ltac run_phase :=
  cbv [phaseEffect phase1StopMonitoring phase2CleanupStagehand
       phase3CleanupMemory phase4CleanupAdsPower phase5CleanupProxy
       phase6CleanupThreads closeOwnedContext cleanupBrowser releaseProxy
       fallbackCleanup tryCatchM setPhase setResult setManager setData
       getData getState deleteBrowser deleteProxy call mbind M_bind mret M_ret
       data manager activeBrowsers allocatedProxies proxyUsageStats trace];
  cbn -[phaseDone phaseFailed js lookup delete insert size includes app];
  repeat match goal with
         | H : _ = _ |- _ => rewrite H;
             cbn -[phaseDone phaseFailed js lookup delete insert size includes app]
         end;
  rewrite <- ?app_assoc.

(** Closes the goals symbolic execution leaves. *)
Ltac close_phase :=
  repeat split; try reflexivity;
  first [ exists []; split; [now rewrite app_nil_r | reflexivity]
        | exists []; split; [now rewrite app_nil_r | intros; reflexivity]
        | eexists; split; [reflexivity | intros; intuition congruence] ].

End CleanupEffect.

(* ===================================================================== *)
(** * Window monitor ([WindowMonitoringSystem]) *)
(* ===================================================================== *)

Module Monitor.
Import JS.

Inductive MonitoringStatus : Type :=
| IDLE | MONITORING | WINDOW_CLOSED | CLEANUP_IN_PROGRESS
| CLEANUP_COMPLETED | ERROR.

Record MonitoringConfig : Type := mkMonitoringConfig {
  checkInterval : N;
  maxRetries : nat;
  timeoutDuration : N;
  enableAutoCleanup : bool
}.

(** [Partial<MonitoringConfig>] *)
Record PartialConfig : Type := mkPartialConfig {
  optCheckInterval : option N;
  optMaxRetries : option nat;
  optTimeoutDuration : option N;
  optEnableAutoCleanup : option bool
}.

Definition defaultConfig : MonitoringConfig :=
  {| checkInterval := 2000; maxRetries := 3;
     timeoutDuration := 10000; enableAutoCleanup := true |}.

(** [{ ...this.defaultConfig, ...config }] *)
Definition mergeConfig (config : option PartialConfig) : MonitoringConfig :=
  match config with
  | None => defaultConfig
  | Some c =>
      {| checkInterval := default (checkInterval defaultConfig) (optCheckInterval c);
         maxRetries := default (maxRetries defaultConfig) (optMaxRetries c);
         timeoutDuration := default (timeoutDuration defaultConfig) (optTimeoutDuration c);
         enableAutoCleanup :=
           default (enableAutoCleanup defaultConfig) (optEnableAutoCleanup c) |}
  end.

(** The monitoring session object, without its [sessionData] field, which
    is the shared session data object kept in [resources] below. *)
Record MonitoringSession : Type := mkMonitoringSession {
  sessionId : jsstring;
  profileId : jsstring;
  status : MonitoringStatus;
  startTime : N;
  lastCheckTime : N;
  checkCount : nat;
  errorCount : nat;
  monitorInterval : option Cleanup.Handle;
  stopFlag : bool
}.

(** The monitoring system around one session object: the object the timer
    callback closes over, the session data it shares with the cleanup
    manager (inside [resources], with the cleanup manager, the registries
    and the outside calls made so far), the keys of [this.activeSessions]
    (the key [sessionId session] maps to [session]), and two observations:
    every value assigned to [session.status], oldest first, and the number
    of calls of [executeComprehensiveCleanup]. *)
Record Sys : Type := mkSys {
  session : MonitoringSession;
  resources : Cleanup.CState;
  activeSessions : gset (list N);
  statusLog : list MonitoringStatus;
  cleanupCalls : nat
}.

(** The body of a response of the status endpoint: [data.code], and
    [data.data] when it is truthy, with its [status]. *)
Record ResponseBody : Type := mkResponseBody {
  code : Z;
  bodyData : option (option jsstring)
}.

(** What [fetch] does: a response with its [ok], [status] and what
    [json()] gives, or a rejection (network failure or abort). *)
Inductive FetchOutcome : Type :=
| Responded (ok : bool) (httpStatus : N) (body : Res ResponseBody)
| Rejected (message : jsstring).

(** What the outside answers during one poll. *)
Record PollWorld : Type := mkPollWorld {
  pollClock : N;
  fetchOutcome : FetchOutcome;
  cleanupWorld : Cleanup.World
}.

(** ** Assignments *)

Definition updateSession (f : MonitoringSession -> MonitoringSession) (s : Sys) : Sys :=
  {| session := f (session s); resources := resources s;
     activeSessions := activeSessions s; statusLog := statusLog s;
     cleanupCalls := cleanupCalls s |}.

Definition setStatus (v : MonitoringStatus) (s : Sys) : Sys :=
  {| session :=
       {| sessionId := sessionId (session s); profileId := profileId (session s);
          status := v; startTime := startTime (session s);
          lastCheckTime := lastCheckTime (session s);
          checkCount := checkCount (session s);
          errorCount := errorCount (session s);
          monitorInterval := monitorInterval (session s);
          stopFlag := stopFlag (session s) |};
     resources := resources s;
     activeSessions := activeSessions s;
     statusLog := statusLog s ++ [v];
     cleanupCalls := cleanupCalls s |}.

Definition withErrorCount (n : nat) (m : MonitoringSession) : MonitoringSession :=
  {| sessionId := sessionId m; profileId := profileId m; status := status m;
     startTime := startTime m; lastCheckTime := lastCheckTime m;
     checkCount := checkCount m; errorCount := n;
     monitorInterval := monitorInterval m; stopFlag := stopFlag m |}.

Definition withCheck (now : N) (m : MonitoringSession) : MonitoringSession :=
  {| sessionId := sessionId m; profileId := profileId m; status := status m;
     startTime := startTime m; lastCheckTime := now;
     checkCount := checkCount m + 1; errorCount := errorCount m;
     monitorInterval := monitorInterval m; stopFlag := stopFlag m |}.

Definition withTimer (t : option Cleanup.Handle) (m : MonitoringSession)
  : MonitoringSession :=
  {| sessionId := sessionId m; profileId := profileId m; status := status m;
     startTime := startTime m; lastCheckTime := lastCheckTime m;
     checkCount := checkCount m; errorCount := errorCount m;
     monitorInterval := t; stopFlag := stopFlag m |}.

Definition withStopFlag (v : bool) (m : MonitoringSession) : MonitoringSession :=
  {| sessionId := sessionId m; profileId := profileId m; status := status m;
     startTime := startTime m; lastCheckTime := lastCheckTime m;
     checkCount := checkCount m; errorCount := errorCount m;
     monitorInterval := monitorInterval m; stopFlag := v |}.

Definition updateResources (f : Cleanup.CState -> Cleanup.CState) (s : Sys) : Sys :=
  {| session := session s; resources := f (resources s);
     activeSessions := activeSessions s; statusLog := statusLog s;
     cleanupCalls := cleanupCalls s |}.

(** Run a step of the cleanup monad that cannot throw on the shared state. *)
Definition onResources (m : Cleanup.M unit) (s : Sys) : Sys :=
  updateResources (fun r => (m r).1) s.

Definition removeActive (key : jsstring) (s : Sys) : Sys :=
  {| session := session s; resources := resources s;
     activeSessions := activeSessions s ∖ {[ key ]};
     statusLog := statusLog s; cleanupCalls := cleanupCalls s |}.

Definition countCleanup (s : Sys) : Sys :=
  {| session := session s; resources := resources s;
     activeSessions := activeSessions s; statusLog := statusLog s;
     cleanupCalls := cleanupCalls s + 1 |}.

(** ** Starting *)

(** [startMonitoring] for the session data [d]; [timer] is the handle
    [setInterval] returns. *)
Definition startMonitoring (id : jsstring) (r : Cleanup.CState)
  (timer : Cleanup.Handle) (now : N) (others : gset (list N)) : Sys :=
  let d := Cleanup.data r in
  let monitoringSession :=
    {| sessionId := id;
       profileId := default [] (Cleanup.profileId d);
       status := MONITORING;
       startTime := now;
       lastCheckTime := now;
       checkCount := 0;
       errorCount := 0;
       monitorInterval := Some timer;
       stopFlag := false |} in
  {| session := monitoringSession;
     resources :=
       (Cleanup.setData
          (fun d => Cleanup.withStopFlag (Some false)
                      (Cleanup.withInterval (Some timer) d)) r).1;
     activeSessions := others ∪ {[ id ]};
     statusLog := [MONITORING];
     cleanupCalls := 0 |}.

(** ** Stopping *)

Definition stopMonitoringTimer (s : Sys) : Sys :=
  let s1 :=
    match monitorInterval (session s) with
    | Some timer =>
        updateSession (withTimer None)
          (onResources (Cleanup.call (Cleanup.ClearInterval timer) (Ok tt)) s)
    | None => s
    end in
  match Cleanup.monitorInterval (Cleanup.data (resources s1)) with
  | Some timer =>
      onResources (_ ← Cleanup.call (Cleanup.ClearInterval timer) (Ok tt);
                   Cleanup.setData (Cleanup.withInterval None)) s1
  | None => s1
  end.

Definition stopMonitoring (id : jsstring) (s : Sys) : Sys :=
  if bool_decide (id ∈ activeSessions s) then
    let s1 := updateSession (withStopFlag true) s in
    let s2 := onResources (Cleanup.setData (Cleanup.withStopFlag (Some true))) s1 in
    let s3 := stopMonitoringTimer s2 in
    let s4 := setStatus IDLE s3 in
    removeActive id s4
  else s.

(** ** The status request *)

Definition isActiveBody (b : ResponseBody) : bool :=
  (code b =? 0)%Z &&
  match bodyData b with
  | Some (Some st) => bool_decide (st = js "Active")
  | _ => false
  end.

(** [checkAdsPowerWindowStatus]: [Ok true] when the window counts as
    closed, [Ok false] when it is open, [Throw] when the handler rethrows
    (the message mentions a timeout or a refused connection). *)
Definition checkAdsPowerWindowStatus (f : FetchOutcome) : Res bool :=
  let attempt : Res bool :=
    match f with
    | Rejected message => Throw message
    | Responded true _ body =>
        b ← body;
        if isActiveBody b then Ok false else Ok true
    | Responded false httpStatus _ =>
        if (httpStatus =? 404)%N then Ok true
        else Throw (js "AdsPower API 返回 " ++ decimal httpStatus)
    end in
  match attempt with
  | Ok closed => Ok closed
  | Throw errorMessage =>
      if includes errorMessage (js "timeout")
         || includes errorMessage (js "ECONNREFUSED")
      then Throw errorMessage
      else Ok true
  end.

(** ** Window closed *)

Definition handleWindowClosed (w : PollWorld) (s : Sys) : Sys :=
  let s1 := setStatus CLEANUP_IN_PROGRESS s in
  let s2 := stopMonitoringTimer s1 in
  let '(r, outcome) :=
    Cleanup.executeComprehensiveCleanup (cleanupWorld w)
      (js "用户手动关闭浏览器窗口") (resources s2) in
  let s3 := countCleanup (updateResources (fun _ => r) s2) in
  match outcome with
  | Ok cleanupResult =>
      let s4 := if Cleanup.success cleanupResult
                then setStatus CLEANUP_COMPLETED s3
                else setStatus ERROR s3 in
      removeActive (sessionId (session s4)) s4
  | Throw _ =>
      stopMonitoringTimer (setStatus ERROR s3)
  end.

(** ** One poll *)

Definition truthyFlag (v : option bool) : bool := default false v.

(** [performWindowCheck(session, config)], the callback of the timer. *)
Definition performWindowCheck (config : MonitoringConfig) (w : PollWorld) (s : Sys)
  : Sys :=
  if stopFlag (session s)
     || truthyFlag (Cleanup.monitorStopFlag (Cleanup.data (resources s)))
  then stopMonitoring (sessionId (session s)) s
  else
    let s1 := updateSession (withCheck (pollClock w)) s in
    match checkAdsPowerWindowStatus (fetchOutcome w) with
    | Ok true =>
        let s2 := setStatus WINDOW_CLOSED s1 in
        if enableAutoCleanup config then handleWindowClosed w s2 else s2
    | Ok false =>
        updateSession (withErrorCount 0) s1
    | Throw _ =>
        let s2 := updateSession (fun m => withErrorCount (errorCount m + 1) m) s1 in
        if (maxRetries config <=? errorCount (session s2))%nat then
          let s3 := setStatus WINDOW_CLOSED s2 in
          if enableAutoCleanup config then handleWindowClosed w s3 else s3
        else s2
    end.

(** A sequence of polls, one after the other. *)
Definition polls (config : MonitoringConfig) (ws : list PollWorld) (s : Sys) : Sys :=
  fold_left (fun s w => performWindowCheck config w s) ws s.

(** The session is being monitored: neither stop flag is set. *)
Definition monitoringState (s : Sys) : Prop :=
  stopFlag (session s) = false
  /\ truthyFlag (Cleanup.monitorStopFlag (Cleanup.data (resources s))) = false.

(** A poll whose status request answers "active". *)
Definition answersActive (w : PollWorld) : Prop :=
  checkAdsPowerWindowStatus (fetchOutcome w) = Ok false.

(** A poll whose status request fails (the check throws). *)
Definition checkFails (w : PollWorld) : Prop :=
  exists message, checkAdsPowerWindowStatus (fetchOutcome w) = Throw message.

(** After polls that found no active window, the session that was in
    state [s0] is still monitored with [k] errors in a row and nothing
    else changed. *)
Definition counting (s0 : Sys) (k : nat) (s : Sys) : Prop :=
  monitoringState s
  /\ errorCount (session s) = k
  /\ sessionId (session s) = sessionId (session s0)
  /\ statusLog s = statusLog s0
  /\ cleanupCalls s = cleanupCalls s0
  /\ activeSessions s = activeSessions s0.

(** The window of the session that was in state [s0] was closed: the
    three status changes were logged, the cleanup ran once, the stop flag
    of the session data is set and the session is not registered. *)
Definition closedOnce (s0 s : Sys) : Prop :=
  truthyFlag (Cleanup.monitorStopFlag (Cleanup.data (resources s))) = true
  /\ sessionId (session s) = sessionId (session s0)
  /\ (sessionId (session s0) ∉ activeSessions s)
  /\ statusLog s
     = statusLog s0 ++ [WINDOW_CLOSED; CLEANUP_IN_PROGRESS; CLEANUP_COMPLETED]
  /\ cleanupCalls s = cleanupCalls s0 + 1.

End Monitor.

(* ===================================================================== *)
(** * Inputs used in examples, and the specification's statements *)
(* ===================================================================== *)

Module Inputs.
Import JS Memory.

Definition surveyUrl : jsstring := js "https://survey.example/q/1".

Definition cityMemory : QuestionnaireMemory :=
  {| questionnaireId := generateQuestionnaireId surveyUrl;
     digitalPersonId := js "0123456789";
     startTime := 1000;
     questions := [];
     questionOrder := [];
     currentPosition := 0;
     totalQuestions := 0;
     completedQuestions := 0 |}.

(** A memory as [importMemory] may install it: the counters were written
    by another party and do not match the stored records. *)
Definition staleMemory : QuestionnaireMemory :=
  {| questionnaireId := generateQuestionnaireId surveyUrl;
     digitalPersonId := js "0123456789";
     startTime := 1000;
     questions := [];
     questionOrder := [];
     currentPosition := 0;
     totalQuestions := 5;
     completedQuestions := 5 |}.

Definition coffeeCall (opts : list jsstring) (answered : string) (now : N)
  : RecordCall :=
  {| callText := js "Do you like coffee?";
     callType := js "single_choice";
     callOptions := opts;
     callAnswer := js answered;
     callAnswerText := js answered;
     callPageUrl := surveyUrl;
     callAttempts := 1;
     callConfidence := 1%Q;
     callNow := now |}.

Definition yesNo : list jsstring := [js "Yes"; js "No"].

Definition coffeeText : jsstring := js "Do you like coffee?".


(** The same question, typed with a space before the question mark. *)
Definition coffeeTextSpaced : jsstring := js "Do you like coffee ?".

(** A memory file in which one record has lost its [options] property. *)
Definition corruptImport : Imported.RawMemory :=
  {| Imported.rawQuestions :=
       [ (js "8f14e45fceea167a",
          {| Imported.rawQuestionId := js "8f14e45fceea167a";
             Imported.rawQuestionText := Some coffeeText;
             Imported.rawOptions := None;
             Imported.rawAnswer := js "Yes";
             Imported.rawAnswerText := js "Yes";
             Imported.rawConfidence := 1%Q |}) ];
     Imported.rawQuestionOrder := [js "8f14e45fceea167a"] |}.

(** A cached record of [MemoryManager] that has lost its [questionText]. *)
Definition corruptCacheRecord : MemoryManager.MemoryRecord :=
  {| MemoryManager.recordId := js "r1";
     MemoryManager.recordPersonId := js "0123456789";
     MemoryManager.recordQuestionText := None;
     MemoryManager.recordAnswer := js "Yes" |}.

(** A questionnaire page with a "next" button, nothing to answer and no
    completion signal. *)
Definition quietPage : Completion.Page :=
  {| Completion.pageUrl := Ok surveyUrl;
     Completion.pageTitle := Ok (js "Survey");
     Completion.bodyTextContent := Ok (Some (js "Page 2 of 30"));
     Completion.locatorCount := fun _ => Ok 0 |}.

Definition nextOnly : Loop.PageState :=
  {| Loop.hasQuestions := false;
     Loop.questionCount := 0;
     Loop.hasUnAnsweredQuestions := false;
     Loop.navigationOptions :=
       {| Loop.hasNextButton := true; Loop.hasSubmitButton := false;
          Loop.hasContinueButton := false;
          Loop.nextButtonText := Some (js "Next"); Loop.submitButtonText := None |};
     Loop.pageType := Loop.questionnaire;
     Loop.completionSignals := [] |}.

(** A round in which the click on "next" works, and one in which the
    automation backend fails to click. *)
Definition roundWith (navigation : Res unit) : Loop.RoundWorld :=
  {| Loop.extractOutcome := Ok (Some nextOnly);
     Loop.detectionPage := quietPage;
     Loop.clock := 5000;
     Loop.answerAct := Ok tt;
     Loop.urlAfterAnswer := Ok surveyUrl;
     Loop.backupAct := Ok tt;
     Loop.urlAfterBackup := Ok surveyUrl;
     Loop.navigationAct := navigation;
     Loop.loadState := Ok tt |}.

Definition goodRound : Loop.RoundWorld := roundWith (Ok tt).
Definition badRound : Loop.RoundWorld := roundWith (Throw (js "click failed")).

(** Twenty-five pages, then the backend fails for good: the failure budget
    ends the run in round 33. *)
Definition pagesThenFailures (attempt : nat) : Loop.RoundWorld :=
  if (attempt <=? 25)%nat then goodRound else badRound.

(** Seven failures before every page: the failure budget is never
    reached and the run uses all 200 rounds. *)
Definition everyEighthRound (attempt : nat) : Loop.RoundWorld :=
  if (attempt mod 8 =? 0)%nat then goodRound else badRound.

Definition budgetRun : Loop.Outcome :=
  Loop.executeContinuousAnswering Loop.defaultConfig None Completion.newManager
    pagesThenFailures.

Definition exhaustedRun : Loop.Outcome :=
  Loop.executeContinuousAnswering Loop.defaultConfig None Completion.newManager
    everyEighthRound.

(** A session with a browser profile, a proxy and a running engine. *)
Definition sessionData : Cleanup.SessionResourceData :=
  {| Cleanup.sessionId := js "session-1";
     Cleanup.profileId := Some (js "profile-1");
     Cleanup.proxyInfo := Some 1;
     Cleanup.stagehand := Some {| Cleanup.stagehandId := 2; Cleanup.context := Some 3 |};
     Cleanup.superEngine := Some 4;
     Cleanup.browserInfo := Some 5;
     Cleanup.adsPowerManager := Some 6;
     Cleanup.proxyManager := Some 7;
     Cleanup.memoryManager := Some 8;
     Cleanup.digitalPersonMemoryManager := Some 9;
     Cleanup.monitorInterval := None;
     Cleanup.monitorStopFlag := None;
     Cleanup.additionalResources := Some [] |}.

Definition sessionResources : Cleanup.CState :=
  {| Cleanup.data := sessionData;
     Cleanup.manager := Cleanup.newManager;
     Cleanup.activeBrowsers := {[ js "profile-1" := js "profile-1" ]};
     Cleanup.allocatedProxies := {[ js "session-1" := 1 ]};
     Cleanup.proxyUsageStats := {[ js "session-1" := 1000%N ]};
     Cleanup.trace := [] |}.

Definition calmWorld : Cleanup.World :=
  {| Cleanup.startClock := 9000;
     Cleanup.endClock := 9050;
     Cleanup.pauseOutcome := Ok tt;
     Cleanup.pagesOutcome := Ok [Some (Ok surveyUrl)];
     Cleanup.closeOutcome := Ok tt;
     Cleanup.saveOutcome := Ok tt;
     Cleanup.cleanupMemoryOutcome := Ok tt;
     Cleanup.stopOutcome := Ok tt;
     Cleanup.deleteOutcome := Ok tt;
     Cleanup.fallbackCloseOutcome := Ok tt |}.

(** A poll that is answered "Active", and a poll whose request times
    out with a message the monitor treats as a network problem. *)
Definition activePoll : Monitor.PollWorld :=
  {| Monitor.pollClock := 3000;
     Monitor.fetchOutcome :=
       Monitor.Responded true 200
         (Ok {| Monitor.code := 0;
                Monitor.bodyData := Some (Some (js "Active")) |});
     Monitor.cleanupWorld := calmWorld |}.

(** A poll whose request is answered with a server error. *)
Definition serverErrorPoll : Monitor.PollWorld :=
  {| Monitor.pollClock := 7000;
     Monitor.fetchOutcome := Monitor.Responded false 500 (Throw (js "no body"));
     Monitor.cleanupWorld := calmWorld |}.

Definition timeoutPoll : Monitor.PollWorld :=
  {| Monitor.pollClock := 5000;
     Monitor.fetchOutcome := Monitor.Rejected (js "network timeout");
     Monitor.cleanupWorld := calmWorld |}.

Definition monitored : Monitor.Sys :=
  Monitor.startMonitoring (js "session-1") sessionResources 77 1000 ∅.


End Inputs.

(** The invariant of a memory that was only written by
    [recordQuestionAnswer]. *)
Definition consistent (mem : Memory.QuestionnaireMemory) : Prop :=
  Memory.questionOrder mem = Memory.objectKeys (Memory.questions mem)
  /\ NoDup (Memory.questionOrder mem)
  /\ Memory.totalQuestions mem = length (Memory.questionOrder mem)
  /\ Memory.completedQuestions mem = length (Memory.questionOrder mem).

(** Two code units that are the same letter up to ASCII case. *)
Definition sameLetter (a b : N) : Prop := JS.lowerUnit a = JS.lowerUnit b.

Definition asciiLetter (c : N) : Prop :=
  (0x41 <= c <= 0x5A)%N \/ (0x61 <= c <= 0x7A)%N.

(** Settles a comparison of code units whose outcome follows from the
    bounds in the context. *)
Ltac settle_comparisons :=
  repeat match goal with
  | |- context [(?a <=? ?b)%N] =>
      first [ rewrite (proj2 (N.leb_le a b)) by lia
            | rewrite (proj2 (N.leb_gt a b)) by lia ]
  | |- context [(?a =? ?b)%N] =>
      first [ rewrite (proj2 (N.eqb_eq a b)) by lia
            | rewrite (proj2 (N.eqb_neq a b)) by lia ]
  end.

(** What the accumulator [(bestMatch, bestSimilarity)] of
    [findSimilarQuestion] says about the records scanned so far. *)
Definition scanInvariant (text : JS.jsstring) (opts : list JS.jsstring)
  (threshold : Q) (seen : list Memory.QuestionRecord)
  (acc : option Memory.QuestionRecord * Q) : Prop :=
  let sim := Memory.recordSimilarity (Memory.extractQuestionFeatures text opts) in
  match acc.1 with
  | None => acc.2 = 0%Q /\ Forall (fun r => (sim r <= threshold)%Q) seen
  | Some best =>
      acc.2 = sim best /\ (threshold < sim best)%Q
      /\ exists earlier later,
           seen = earlier ++ best :: later
           /\ Forall (fun r => (sim r < sim best)%Q) earlier
           /\ Forall (fun r => (sim r <= sim best)%Q) later
  end.

Module LoopShape.
Import JS Loop.

(** What the object returned after the loop looks like. *)
Definition exhausted (r : AnsweringResult) : Prop :=
  finalStatus r
  = (if 0 <? totalPagesProcessed r then js "partial_completed" else js "failed")
  /\ completionReason r
     = js "处理了" ++ decimal (N.of_nat (totalPagesProcessed r)) ++ js "页，回答了"
       ++ decimal (N.of_nat (resultQuestionsAnswered r)) ++ js "个问题".

(** What the object returned from inside the loop looks like. *)
Definition completed (r : AnsweringResult) : Prop :=
  finalStatus r = js "completed"
  /\ completionReason r = js "检测到明确的问卷结束信号".

(** The shape of the outcome of the loop, from any round on. *)
Definition outcomeShape (limit : nat) (run : Outcome) : Prop :=
  roundsRun run <= limit
  /\ match cause run with
     | DefiniteCompletion => completed (result run)
     | FailureBudget => exhausted (result run)
     | RoundBudget => exhausted (result run) /\ roundsRun run = limit
     end.

End LoopShape.

(** Statements of the specification, in its own words, for comparison
    with the code. *)
Module Claimed.
Import JS Memory.

(** "Normalization = lowercase + whitespace-collapse + punctuation-strip":
    what is left of a text once letter case, punctuation and the amount of
    white space are disregarded is its sequence of lower-case words. *)
Definition wordsOf (text : jsstring) : list jsstring :=
  List.filter (fun word => (0 <? length word)%nat)
    (split SP (replaceSpaceRuns (toLowerCase (stripNonWord text)))).

(** Two texts "differ only in whitespace, letter case, or punctuation". *)
Definition sameUpToFormat (text1 text2 : jsstring) : Prop :=
  wordsOf text1 = wordsOf text2.

(** The Levenshtein distance between the first [i] code units of [s] and
    the first [j] code units of [t], by its recurrence: deleting,
    inserting or substituting one code unit costs one. *)
Fixpoint levenshtein (s t : jsstring) (i : nat) : nat -> nat :=
  match i with
  | O => fun j => j
  | S i' =>
      fix row (j : nat) : nat :=
        match j with
        | O => S i'
        | S j' =>
            let cost := if (nth i' s 0 =? nth j' t 0)%N then 0 else 1 in
            Nat.min (Nat.min (levenshtein s t i' (S j') + 1) (row j' + 1))
                    (levenshtein s t i' j' + cost)
        end
  end.

Definition editDistance (s t : jsstring) : nat :=
  levenshtein s t (length s) (length t).

(** "textSim = 1 - editDistance/maxLen"; two empty texts are taken to be
    equal (similarity 1), as the quotient is not defined for them. *)
Definition textSim (text1 text2 : jsstring) : Q :=
  let maxLen := Nat.max (length text1) (length text2) in
  if (maxLen =? 0)%nat then 1%Q
  else (1 - QofNat (editDistance text1 text2) / QofNat maxLen)%Q.

(** The Jaccard index of two sets; 0 when both are empty. *)
Definition jaccard (A B : gset jsstring) : Q :=
  if (size (A ∪ B) =? 0)%nat then 0%Q
  else (QofNat (size (A ∩ B)) / QofNat (size (A ∪ B)))%Q.

(** "keyword set (tokens length>2)" of a question text. *)
Definition keywordSet (text : jsstring) : gset jsstring :=
  list_to_set (List.filter (fun word => (2 <? length word)%nat)
                 (split SP (normalizeQuestionText text))).

(** The set of the normalized options. *)
Definition optionSet (opts : list jsstring) : gset jsstring :=
  list_to_set (map normalizeQuestionText opts).

(** "0.4·textSim + 0.3·Jaccard(keywords) + 0.2·Jaccard(options)
     + 0.1·(1 if optionCount equal else 0.5)" *)
Definition score (text1 : jsstring) (opts1 : list jsstring)
  (text2 : jsstring) (opts2 : list jsstring) : Q :=
  ((4 # 10) * textSim (normalizeQuestionText text1) (normalizeQuestionText text2)
   + (3 # 10) * jaccard (keywordSet text1) (keywordSet text2)
   + (2 # 10) * jaccard (optionSet opts1) (optionSet opts2)
   + (1 # 10) * (if (length opts1 =? length opts2)%nat then 1 else 5 # 10))%Q.

(** The score of a query against a stored record. *)
Definition scoreOf (text : jsstring) (opts : list jsstring) (r : QuestionRecord) : Q :=
  score text opts (questionText r) (options r).



(** A page-signal input: the URL, the title, what reading the visible
    text gives, and what counting the elements of a selector gives. *)
Definition pageOfSignals (url title : jsstring) (text : Res (option jsstring))
  (counts : jsstring -> Res nat) : Completion.Page :=
  {| Completion.pageUrl := Ok url;
     Completion.pageTitle := Ok title;
     Completion.bodyTextContent := text;
     Completion.locatorCount := counts |}.

(** The text the detector works on: empty when the page gives none. *)
Definition visibleText (text : Res (option jsstring)) : jsstring :=
  match text with
  | Ok (Some t) => t
  | _ => []
  end.

(** "One of the fixed completion-marker elements is present." *)
Definition markerPresent (counts : jsstring -> Res nat) : bool :=
  existsb (fun selector => match counts selector with
                           | Ok n => (0 <? n)%nat
                           | Throw _ => false
                           end)
          Completion.completionSelectors.



(** The same with the letter case of the URL and of the text ignored, as
    the detector lower-cases both before it compares. *)
Definition signalPresentIgnoringCase (url : jsstring)
  (text : Res (option jsstring)) (counts : jsstring -> Res nat) : bool :=
  existsb (fun pattern => includes (toLowerCase url) pattern)
          Completion.completionUrlPatterns
  || existsb (fun phrase =>
                includes (toLowerCase (visibleText text)) (toLowerCase phrase))
             Completion.completionSignals
  || markerPresent counts.

(** "The reason names exactly one of the three termination conditions,
    with each condition yielding a distinct finalStatus": two runs that
    return the same reason, or the same status, ended on the same
    condition. *)
Definition reasonNamesCondition : Prop :=
  forall (memory : option QuestionnaireMemory) (manager : Completion.Manager)
         (worlds1 worlds2 : nat -> Loop.RoundWorld),
    let run1 := Loop.executeContinuousAnswering Loop.defaultConfig memory manager worlds1 in
    let run2 := Loop.executeContinuousAnswering Loop.defaultConfig memory manager worlds2 in
    (Loop.completionReason (Loop.result run1) = Loop.completionReason (Loop.result run2)
     -> Loop.cause run1 = Loop.cause run2)
    /\ (Loop.finalStatus (Loop.result run1) = Loop.finalStatus (Loop.result run2)
        -> Loop.cause run1 = Loop.cause run2).

(** "Recording a question whose fingerprint is already stored overwrites
    the stored record in place and leaves totalQuestions,
    completedQuestions and questionOrder unchanged, while recording a
    first-seen fingerprint appends it to questionOrder and increments both
    totals", for every memory state. *)
Definition recordingPerFingerprint : Prop :=
  forall (mem : QuestionnaireMemory) (c : RecordCall),
    let id := callQuestionId c in
    let mem' := (recordQuestionAnswer mem c).2 in
    if hasKey id (questions mem)
    then getKey id (questions mem') = Some (callRecord c)
         /\ totalQuestions mem' = totalQuestions mem
         /\ completedQuestions mem' = completedQuestions mem
         /\ questionOrder mem' = questionOrder mem
    else questionOrder mem' = questionOrder mem ++ [id]
         /\ totalQuestions mem' = totalQuestions mem + 1
         /\ completedQuestions mem' = completedQuestions mem + 1.

End Claimed.

(* ===================================================================== *)
(** * Further operations of the components *)
(* ===================================================================== *)

(** The characters of a hexadecimal digest. *)
Definition isHexDigit (c : N) : Prop :=
  (0x30 <= c <= 0x39)%N \/ (0x61 <= c <= 0x66)%N.


(** A code unit that is neither a [\w] character nor white space:
    punctuation, and every letter outside ASCII. *)
Definition isSymbol (c : N) : bool := negb (JS.isWord c) && negb (JS.isSpace c).

(** Every stored record carries the key it is stored under, as the records
    written by [recordQuestionAnswer] do. *)
Definition keyed (mem : Memory.QuestionnaireMemory) : Prop :=
  Forall (fun kv => Memory.questionId kv.2 = kv.1) (Memory.questions mem).

(** [map.delete(key)] on a map kept as the list of its entries. *)
Definition deleteKey {V : Type} (k : JS.jsstring) (obj : list (JS.jsstring * V))
  : list (JS.jsstring * V) :=
  List.filter (fun kv => negb (bool_decide (kv.1 = k))) obj.

(** [arr.sort(compare)] for a comparison that orders by a key:
    [before a b] says that [compare(a, b) <= 0].  The sort of an array is
    stable, so the result is the one insertion from the right gives. *)
Fixpoint insertBy {A : Type} (before : A -> A -> bool) (x : A) (sorted : list A)
  : list A :=
  match sorted with
  | [] => [x]
  | y :: rest =>
      if before x y then x :: sorted else y :: insertBy before x rest
  end.

Definition sortBy {A : Type} (before : A -> A -> bool) (l : list A) : list A :=
  foldr (insertBy before) [] l.

(** A list in which every element is [before] all the later ones. *)
Fixpoint sortedBy {A : Type} (before : A -> A -> bool) (l : list A) : Prop :=
  match l with
  | [] => True
  | x :: rest => Forall (fun y => before x y = true) rest /\ sortedBy before rest
  end.

(* ===================================================================== *)
(** * The summary of the answer memory ([getMemorySummary]) *)
(* ===================================================================== *)

Module MemorySummary.
Import JS Memory.

Record QuestionSummary : Type := mkQuestionSummary {
  position : nat;
  summaryQuestionId : jsstring;
  questionPreview : jsstring;
  summaryAnswerText : jsstring;
  summaryAttempts : N;
  summaryConfidence : Q
}.

Record Summary : Type := mkSummary {
  infoQuestionnaireId : jsstring;
  infoDigitalPersonId : jsstring;
  infoStartTime : N;
  infoElapsedTime : Z;
  progress : ProgressInfo;
  summaryQuestions : list QuestionSummary
}.

(** The text shown for a question: its first hundred code units and an
    ellipsis when it is longer. *)
Definition preview (text : jsstring) : jsstring :=
  if (100 <? length text)%nat then substring0 100 text ++ js "..." else text.

(** The callback of [questionOrder.map]. *)
Definition summarize (mem : QuestionnaireMemory) (index : nat) (id : jsstring)
  : QuestionSummary :=
  match getKey id (questions mem) with
  | None =>
      {| position := index + 1;
         summaryQuestionId := id;
         questionPreview := js "未找到记录";
         summaryAnswerText := js "未知";
         summaryAttempts := 0;
         summaryConfidence := 0 |}
  | Some record =>
      {| position := index + 1;
         summaryQuestionId := id;
         questionPreview := preview (questionText record);
         summaryAnswerText := answerText record;
         summaryAttempts := attempts record;
         summaryConfidence := confidence record |}
  end.

(** [now] is the clock reading of [getMemorySummary] itself and [later]
    the one [getProgressInfo] takes. *)
Definition getMemorySummary (mem : QuestionnaireMemory) (now later : N) : Summary :=
  let questionSummaries := imap (summarize mem) (questionOrder mem) in
  let elapsedTime := (Z.of_N now - Z.of_N (startTime mem))%Z in
  {| infoQuestionnaireId := questionnaireId mem;
     infoDigitalPersonId := digitalPersonId mem;
     infoStartTime := startTime mem;
     infoElapsedTime := elapsedTime;
     progress := getProgressInfo mem later;
     summaryQuestions := questionSummaries |}.

(** [memorySummary.questions.slice(-3)], the answers quoted in the prompt
    of the answering loop. *)
Definition recentAnswers (s : Summary) : list QuestionSummary :=
  drop (length (summaryQuestions s) - 3) (summaryQuestions s).

End MemorySummary.

(* ===================================================================== *)
(** * The log of the completion detector *)
(* ===================================================================== *)

Module CompletionLog.
Import JS Completion.

Definition getDetectionHistory (m : Manager) : list PageStateHistory :=
  pageStateHistory m.

Definition resetDetectionHistory (m : Manager) : Manager :=
  {| pageStateHistory := [];
     lastCompletionCheck := None;
     completionCheckCount := 0;
     maxHistoryRecords := maxHistoryRecords m |}.

Record DetectionStats : Type := mkDetectionStats {
  totalChecks : nat;
  lastCheck : option N;
  historyCount : nat;
  completionCount : nat;
  continuationCount : nat
}.

Definition getDetectionStats (m : Manager) : DetectionStats :=
  {| totalChecks := completionCheckCount m;
     lastCheck := lastCompletionCheck m;
     historyCount := length (pageStateHistory m);
     completionCount :=
       length (List.filter (fun h => isSuccess (historyResult h)) (pageStateHistory m));
     continuationCount :=
       length (List.filter (fun h => negb (isSuccess (historyResult h)))
                 (pageStateHistory m)) |}.

(** A call made on the manager by its owner. *)
Inductive Call : Type :=
| Detect (page : Page) (executionTime : Z) (now : N)
| Reset.

Definition perform (m : Manager) (c : Call) : Manager :=
  match c with
  | Detect page executionTime now =>
      (intelligentCompletionDetection m page executionTime now).2
  | Reset => resetDetectionHistory m
  end.

Definition performAll (m : Manager) (calls : list Call) : Manager :=
  fold_left perform calls m.

(** The entry a detection writes when it ends without an exception. *)
Definition entryOf (page : Page) (executionTime : Z) (now : N)
  (verdict : CompletionDetectionResult) : option PageStateHistory :=
  match pageUrl page, pageTitle page with
  | Ok url, Ok title => Some (mkHistory now url title verdict)
  | _, _ => None
  end.

End CompletionLog.

(* ===================================================================== *)
(** * Rounds of the answering loop that fail *)
(* ===================================================================== *)

Module LoopFailure.
Import JS Loop.

(** The page of the round shows no completion signal, whatever the state
    of the detector. *)
Definition detectorContinues (w : RoundWorld) : Prop :=
  forall (m : Completion.Manager) (executionTime : Z) (now : N),
    Completion.isSuccess
      (Completion.intelligentCompletionDetection m (detectionPage w)
         executionTime now).1 = false.

(** The navigation action of the round throws. *)
Definition navigationThrows (w : RoundWorld) : Prop :=
  exists message, navigationAct w = Throw message.

(** The round counts its page's questions as answered. *)
Definition answersQuestions (w : RoundWorld) : Prop :=
  exists pageState,
    extractOutcome w = Ok (Some pageState)
    /\ hasQuestions pageState = true
    /\ hasUnAnsweredQuestions pageState = true
    /\ 0 < questionCount pageState
    /\ answerAct w = Ok tt
    /\ exists url, urlAfterAnswer w = Ok url.

End LoopFailure.

(* ===================================================================== *)
(** * The answering engine ([StagehandSuperIntelligentEngine]) *)
(* ===================================================================== *)

Module Engine.
Import JS.

(** The fields of [DigitalPersonProfile] the engine and the memory read;
    the age is a whole number of years. *)
Record DigitalPersonProfile : Type := mkProfile {
  name : jsstring;
  age : N;
  gender : jsstring;
  occupation : jsstring
}.

(** [generateDigitalPersonId]: an empty name, an age of zero and an empty
    gender are falsy and print as the empty string. *)
Definition generateDigitalPersonId (personInfo : DigitalPersonProfile) : jsstring :=
  let keyInfo :=
    name personInfo ++ js "_"
    ++ (if (age personInfo =? 0)%N then [] else decimal (age personInfo))
    ++ js "_" ++ gender personInfo in
  substring0 10 (Md5.md5hex keyInfo).

(** The constructor of [DigitalPersonMemoryManager]. *)
Definition newMemoryManager (questionnaireUrl : jsstring)
  (digitalPersonInfo : DigitalPersonProfile) (now : N) : Memory.QuestionnaireMemory :=
  Memory.newMemory (Memory.generateQuestionnaireId questionnaireUrl)
    (generateDigitalPersonId digitalPersonInfo) now.

Record AnsweringResult : Type := mkAnsweringResult {
  resultSessionId : jsstring;
  success : bool;
  totalQuestions : nat;
  answeredQuestions : nat;
  skippedQuestions : nat;
  failedQuestions : nat;
  duration : Z;
  errors : list jsstring
}.

(** The clock readings of one run, in the order they are taken. *)
Record Clock : Type := mkClock {
  startTime : N;
  memoryCreated : N;
  lastActivity : N;
  finished : N;
  named : N
}.

(** The configuration the engine gives the enhancer before the run. *)
Definition engineConfig : Loop.Config :=
  {| Loop.maxContinuousAttempts := 200;
     Loop.pageStabilityTimeout := 7000;
     Loop.navigationRetryCount := 5;
     Loop.maxContinuousFailures := 8 |}.

(** The run of the enhancer the engine starts; [manager] is the
    completion manager of the engine's enhancer. *)
Definition enhancedRun (digitalPerson : DigitalPersonProfile)
  (questionnaireUrl : jsstring) (clock : Clock) (manager : Completion.Manager)
  (worlds : nat -> Loop.RoundWorld) : Loop.Outcome :=
  Loop.executeContinuousAnswering engineConfig
    (Some (newMemoryManager questionnaireUrl digitalPerson (memoryCreated clock)))
    manager worlds.

(** [executeQuestionnaireAnswering]; [sessionErrors] is
    [this.sessionState.errors]. *)
Definition executeQuestionnaireAnswering (digitalPerson : DigitalPersonProfile)
  (questionnaireUrl : jsstring) (clock : Clock) (manager : Completion.Manager)
  (sessionErrors : list jsstring) (worlds : nat -> Loop.RoundWorld)
  : AnsweringResult :=
  let enhancedResult :=
    Loop.result (enhancedRun digitalPerson questionnaireUrl clock manager worlds) in
  let duration := (Z.of_N (finished clock) - Z.of_N (startTime clock))%Z in
  let isSuccess :=
    bool_decide (Loop.finalStatus enhancedResult = js "completed")
    || (0 <? Loop.resultQuestionsAnswered enhancedResult)%nat in
  {| resultSessionId := js "stagehand_enhanced_" ++ decimal (named clock);
     success := isSuccess;
     totalQuestions := Loop.resultQuestionsAnswered enhancedResult;
     answeredQuestions := Loop.resultQuestionsAnswered enhancedResult;
     skippedQuestions := 0;
     failedQuestions := 0;
     duration := duration;
     errors := sessionErrors |}.

End Engine.

(* ===================================================================== *)
(** * Lifecycle events ([LifecycleManager]) *)
(* ===================================================================== *)

Module Lifecycle.
Import JS Memory.

(** The payload of an event is never inspected by the manager; it is kept
    as its serialised text. *)
Record LifecycleEvent : Type := mkEvent {
  eventType : jsstring;
  timestamp : N;
  eventData : option jsstring
}.

(** [Omit<LifecycleEvent, 'timestamp'>] *)
Record EventInput : Type := mkEventInput {
  inputType : jsstring;
  inputData : option jsstring
}.

(** The entries of [this.events], a [Map], in insertion order. *)
Definition EventMap : Type := list (jsstring * list LifecycleEvent).

(** The manager: its map, and the contents handed to [fs.writeFile] so
    far, oldest first (a failure of the write is caught and only logged). *)
Record Manager : Type := mkManager {
  events : EventMap;
  written : list EventMap
}.

Definition newManager : Manager := {| events := []; written := [] |}.

Definition withEvents (v : EventMap) (m : Manager) : Manager :=
  {| events := v; written := written m |}.

Definition saveEventsToFile (m : Manager) : Manager :=
  {| events := events m; written := written m ++ [events m] |}.

Definition getTotalEventsCount (m : Manager) : nat :=
  fold_left (fun total kv => total + length kv.2) (events m) 0.

Definition recordEvent (m : Manager) (sessionId : jsstring) (event : EventInput)
  (now : N) : Manager :=
  let lifecycleEvent :=
    {| eventType := inputType event; timestamp := now;
       eventData := inputData event |} in
  let events1 :=
    if negb (hasKey sessionId (events m)) then setKey sessionId [] (events m)
    else events m in
  let events2 :=
    setKey sessionId (default [] (getKey sessionId events1) ++ [lifecycleEvent])
      events1 in
  let m2 := withEvents events2 m in
  if (getTotalEventsCount m2 mod 50 =? 0)%nat then saveEventsToFile m2 else m2.

Definition getSessionEvents (m : Manager) (sessionId : jsstring)
  : list LifecycleEvent :=
  default [] (getKey sessionId (events m)).

Definition getLatestEvent (m : Manager) (sessionId : jsstring)
  : option LifecycleEvent :=
  match getKey sessionId (events m) with
  | None => None
  | Some evs => last evs
  end.

Definition getEventsByType (m : Manager) (sessionId eventType' : jsstring)
  : list LifecycleEvent :=
  List.filter (fun event => bool_decide (eventType event = eventType'))
    (default [] (getKey sessionId (events m))).

Definition getSessionDuration (m : Manager) (sessionId : jsstring) : option Z :=
  match getKey sessionId (events m) with
  | None => None
  | Some evs =>
      match head evs, last evs with
      | Some firstEvent, Some lastEvent =>
          Some (Z.of_N (timestamp lastEvent) - Z.of_N (timestamp firstEvent))%Z
      | _, _ => None
      end
  end.

Record SessionStatus : Type := mkSessionStatus {
  status : jsstring;
  duration : option Z;
  eventCount : nat;
  lastEvent : option LifecycleEvent
}.

(** [lastEvent?.type || 'unknown']: an empty type is falsy. *)
Definition getSessionStatus (m : Manager) (sessionId : jsstring) : SessionStatus :=
  let evs := default [] (getKey sessionId (events m)) in
  let lastEvent := last evs in
  {| status :=
       match lastEvent with
       | Some e => if Cleanup.truthy (eventType e) then eventType e else js "unknown"
       | None => js "unknown"
       end;
     duration := getSessionDuration m sessionId;
     eventCount := length evs;
     lastEvent := lastEvent |}.

Definition terminalTypes : list jsstring :=
  [js "completed"; js "failed"; js "cleaned"].

(** The session ids whose last event satisfies [test], in map order. *)
Definition sessionsWhoseLast (test : LifecycleEvent -> bool) (m : Manager)
  : list jsstring :=
  map fst
    (List.filter (fun kv => match last kv.2 with
                            | Some lastEvent => test lastEvent
                            | None => false
                            end)
       (events m)).

Definition getActiveSessions (m : Manager) : list jsstring :=
  sessionsWhoseLast
    (fun lastEvent => negb (bool_decide (eventType lastEvent ∈ terminalTypes))) m.

Definition getCompletedSessions (m : Manager) : list jsstring :=
  sessionsWhoseLast
    (fun lastEvent => bool_decide (eventType lastEvent = js "completed")) m.

Definition getFailedSessions (m : Manager) : list jsstring :=
  sessionsWhoseLast
    (fun lastEvent => bool_decide (eventType lastEvent = js "failed")) m.

Definition cleanupSession (m : Manager) (sessionId : jsstring) (now : N) : Manager :=
  recordEvent m sessionId {| inputType := js "cleaned"; inputData := None |} now.

Definition deleteSessionEvents (m : Manager) (sessionId : jsstring)
  : bool * Manager :=
  if hasKey sessionId (events m)
  then (true, saveEventsToFile (withEvents (deleteKey sessionId (events m)) m))
  else (false, m).

Definition defaultMaxAge : N := 7 * 24 * 60 * 60 * 1000.

(** The test of [cleanupOldEvents] on one entry of the map. *)
Definition expired (cutoffTime : Z) (evs : list LifecycleEvent) : bool :=
  match last evs with
  | Some lastEvent => (Z.of_N (timestamp lastEvent) <? cutoffTime)%Z
  | None => false
  end.

Definition cleanupOldEvents (m : Manager) (now maxAge : N) : Manager :=
  let cutoffTime := (Z.of_N now - Z.of_N maxAge)%Z in
  let kept := List.filter (fun kv => negb (expired cutoffTime kv.2)) (events m) in
  let cleanedCount := length (events m) - length kept in
  let m' := withEvents kept m in
  if (0 <? cleanedCount)%nat then saveEventsToFile m' else m'.

Record Stats : Type := mkStats {
  totalSessions : nat;
  activeSessions : nat;
  completedSessions : nat;
  failedSessions : nat;
  totalEvents : nat;
  successRate : Q;
  averageEventsPerSession : Q
}.

Definition getStats (m : Manager) : Stats :=
  let totalSessions := length (events m) in
  let activeSessions := length (getActiveSessions m) in
  let completedSessions := length (getCompletedSessions m) in
  let failedSessions := length (getFailedSessions m) in
  let totalEvents := getTotalEventsCount m in
  {| totalSessions := totalSessions;
     activeSessions := activeSessions;
     completedSessions := completedSessions;
     failedSessions := failedSessions;
     totalEvents := totalEvents;
     successRate :=
       if (0 <? totalSessions)%nat
       then (QofNat completedSessions / QofNat totalSessions)%Q else 0%Q;
     averageEventsPerSession :=
       if (0 <? totalSessions)%nat
       then (QofNat totalEvents / QofNat totalSessions)%Q else 0%Q |}.



(** [loadEventsFromFile]: [fileData] is what reading and parsing the file
    gives; a failure leaves the map as it is. *)
Definition loadEventsFromFile (m : Manager) (fileData : Res EventMap) : Manager :=
  tryCatch
    (entries ← fileData;
     Ok (withEvents (fold_left (fun acc kv => setKey kv.1 kv.2 acc) entries (events m)) m))
    (fun _ => m).

Definition close (m : Manager) : Manager := saveEventsToFile m.

(** The keys of a map are distinct. *)
Definition wellFormed (m : Manager) : Prop := NoDup (objectKeys (events m)).

(** The event [recordEvent] appends. *)
Definition stamped (event : EventInput) (now : N) : LifecycleEvent :=
  {| eventType := inputType event; timestamp := now;
     eventData := inputData event |}.

(** A sequence of [recordEvent] calls, each with its session, its event
    and what [Date.now()] answers. *)
Definition recordEvents (m : Manager) (calls : list (jsstring * EventInput * N))
  : Manager :=
  fold_left (fun m c => recordEvent m c.1.1 c.1.2 c.2) calls m.

End Lifecycle.

(* ===================================================================== *)
(** * The answer cache ([MemoryManager]) *)
(* ===================================================================== *)

Module Cache.
Import JS Memory.

(** A [MemoryRecord]: the properties the similar-memory lookup reads
    ([memo]) and the others.  The answer, a string or an array of
    strings, and the context are never inspected by the manager; they are
    kept as their serialised text. *)
Record CachedRecord : Type := mkCachedRecord {
  memo : MemoryManager.MemoryRecord;
  questionnaireId : jsstring;
  questionHash : jsstring;
  timestamp : N;
  success : bool;
  context : option jsstring
}.

Definition recordKey : Type := jsstring.

(** What the manager does to its file: it writes the records of the
    cache, or removes the file.  A failure is caught and only logged. *)
Inductive FileOp : Type :=
| WriteFile (records : list CachedRecord)
| Unlink.

(** The manager: [memoryCache] (a [Map], in insertion order), the two
    counters, and the operations on the file so far, oldest first. *)
Record Manager : Type := mkManager {
  memoryCache : list (jsstring * CachedRecord);
  cacheHitCount : nat;
  cacheMissCount : nat;
  written : list FileOp
}.

Definition newManager : Manager :=
  {| memoryCache := []; cacheHitCount := 0; cacheMissCount := 0; written := [] |}.

Definition maxCacheSize : nat := 10 * 1000.

(** [Math.floor(this.maxCacheSize * 0.1)] *)
Definition evictionCount : nat := 1000.

Definition withCache (v : list (jsstring * CachedRecord)) (m : Manager) : Manager :=
  {| memoryCache := v; cacheHitCount := cacheHitCount m;
     cacheMissCount := cacheMissCount m; written := written m |}.

Definition saveMemoryToFile (m : Manager) : Manager :=
  {| memoryCache := memoryCache m; cacheHitCount := cacheHitCount m;
     cacheMissCount := cacheMissCount m;
     written := written m ++ [WriteFile (objectValues (memoryCache m))] |}.

Definition generateMemoryKey (digitalPersonId questionnaireId' questionHash' : jsstring)
  : jsstring :=
  digitalPersonId ++ js ":" ++ questionnaireId' ++ js ":" ++ questionHash'.

Definition generateQuestionHash (questionText : jsstring) : jsstring :=
  Md5.md5hex (trim (toLowerCase questionText)).

(** The key a record is stored under. *)
Definition keyOf (r : CachedRecord) : jsstring :=
  generateMemoryKey (MemoryManager.recordPersonId (memo r)) (questionnaireId r)
    (questionHash r).

Definition olderFirst (a b : jsstring * CachedRecord) : bool :=
  (timestamp a.2 <=? timestamp b.2)%N.

Definition newerFirst (a b : CachedRecord) : bool :=
  (timestamp b <=? timestamp a)%N.

(** [cleanupOldMemories]: the entries are sorted by time stamp and the
    keys of the first tenth of the capacity are deleted. *)
Definition cleanupOldMemories (m : Manager) : Manager :=
  let memories := sortBy olderFirst (memoryCache m) in
  let toDelete := take evictionCount memories in
  withCache (fold_left (fun cache kv => deleteKey kv.1 cache) toDelete (memoryCache m)) m.

(** The arguments of one [cacheObserveResult] call, with the two clock
    readings it takes (for the record id and for the time stamp). *)
Record Observation : Type := mkObservation {
  obsPersonId : jsstring;
  obsQuestionnaireId : jsstring;
  obsQuestionText : jsstring;
  obsAnswer : jsstring;
  obsSuccess : bool;
  obsContext : option jsstring;
  obsIdClock : N;
  obsStampClock : N
}.

Definition obsKey (o : Observation) : jsstring :=
  generateMemoryKey (obsPersonId o) (obsQuestionnaireId o)
    (generateQuestionHash (obsQuestionText o)).

Definition obsRecord (o : Observation) : CachedRecord :=
  {| memo :=
       {| MemoryManager.recordId := obsKey o ++ js "_" ++ decimal (obsIdClock o);
          MemoryManager.recordPersonId := obsPersonId o;
          MemoryManager.recordQuestionText := Some (obsQuestionText o);
          MemoryManager.recordAnswer := obsAnswer o |};
     questionnaireId := obsQuestionnaireId o;
     questionHash := generateQuestionHash (obsQuestionText o);
     timestamp := obsStampClock o;
     success := obsSuccess o;
     context := obsContext o |}.

Definition cacheObserveResult (m : Manager) (o : Observation) : Manager :=
  let m1 := withCache (setKey (obsKey o) (obsRecord o) (memoryCache m)) m in
  let m2 :=
    if (maxCacheSize <? length (memoryCache m1))%nat then cleanupOldMemories m1
    else m1 in
  if (length (memoryCache m2) mod 100 =? 0)%nat then saveMemoryToFile m2 else m2.


(** [findSimilarMemory] on the records of the cache. *)
Definition findSimilarMemory (m : Manager) (digitalPersonId questionText : jsstring)
  : option MemoryManager.MemoryRecord :=
  MemoryManager.findSimilarMemory (map memo (objectValues (memoryCache m)))
    digitalPersonId questionText.

Definition getMemoriesByDigitalPerson (m : Manager) (digitalPersonId : jsstring)
  : list CachedRecord :=
  sortBy newerFirst
    (List.filter
       (fun memory =>
          bool_decide (MemoryManager.recordPersonId (memo memory) = digitalPersonId))
       (objectValues (memoryCache m))).

Definition getMemoriesByQuestionnaire (m : Manager) (questionnaireId' : jsstring)
  : list CachedRecord :=
  sortBy newerFirst
    (List.filter
       (fun memory => bool_decide (questionnaireId memory = questionnaireId'))
       (objectValues (memoryCache m))).

(** The first entry whose record has the identifier [memoryId]. *)
Definition findById (memoryId : jsstring) (cache : list (jsstring * CachedRecord))
  : option (jsstring * CachedRecord) :=
  List.find (fun kv => bool_decide (MemoryManager.recordId (memo kv.2) = memoryId))
    cache.

(** [deleteMemory]: the entry is deleted before the log line is built;
    the log line reads [memory.questionText.substring], which throws for a
    record without a question text, and the handler returns [false]. *)
Definition deleteMemory (m : Manager) (memoryId : jsstring) : bool * Manager :=
  match findById memoryId (memoryCache m) with
  | Some (key, memory) =>
      let m' := withCache (deleteKey key (memoryCache m)) m in
      (tryCatch
         (_ ← match MemoryManager.recordQuestionText (memo memory) with
              | Some text => Ok (substring0 50 text)
              | None => Throw (Imported.typeErrorReading "substring")
              end;
          Ok true)
         (fun _ => false),
       m')
  | None => (false, m)
  end.

(** [clearAllMemories] *)
Definition clearAllMemories (m : Manager) : Manager :=
  {| memoryCache := []; cacheHitCount := 0; cacheMissCount := 0;
     written := written m ++ [Unlink] |}.

Definition exportMemories (m : Manager) : list CachedRecord :=
  objectValues (memoryCache m).

Definition importMemories (m : Manager) (memories : list CachedRecord)
  : nat * Manager :=
  let imported :=
    fold_left (fun acc memory => (setKey (keyOf memory) memory acc.1, acc.2 + 1))
      memories (memoryCache m, 0) in
  (imported.2, saveMemoryToFile (withCache imported.1 m)).

(** The keys of the map are distinct, and every record is stored under the
    key made of its own properties. *)
Definition wellFormed (m : Manager) : Prop :=
  NoDup (objectKeys (memoryCache m))
  /\ Forall (fun kv => kv.1 = keyOf kv.2) (memoryCache m).

(** A text without a colon. *)
Definition colonFree (s : jsstring) : Prop := 0x3A%N ∉ s.

(** A sequence of [cacheObserveResult] calls. *)
Definition observeAll (m : Manager) (os : list Observation) : Manager :=
  fold_left cacheObserveResult os m.

End Cache.

(* ===================================================================== *)
(** * What a cleanup reports and requests *)
(* ===================================================================== *)

Module CleanupReport.
Import JS Cleanup.

(** The keys of [cleanupResults]. *)
Definition phaseKeys : gset string :=
  list_to_set ["phase1"; "phase2"; "phase3"; "phase4"; "phase5"; "phase6"]%string.

(** The requests sent to the browser provisioning service. *)
Definition browserRequest (e : Effect) : bool :=
  match e with
  | StopBrowser _ | DeleteProfile _ => true
  | _ => false
  end.

(** The requests a cleanup of the state [s] sends: a stop and a delete
    request for the profile registered under the profile id of the session
    data, when there is one. *)
Definition requestsFor (s : CState) : list Effect :=
  if CleanupEffect.callsCleanupBrowser (data s) then
    match activeBrowsers s !! default [] (profileId (data s)) with
    | Some profile => [StopBrowser profile; DeleteProfile profile]
    | None => []
    end
  else [].

(** Phase 1 records a failure exactly when pausing the engine throws. *)
Definition pauseWorks (w : World) (d : SessionResourceData) : bool :=
  match superEngine d with
  | Some _ => isOk (pauseOutcome w)
  | None => true
  end.

(** What a phase does to the cleanup manager, and the requests it sends. *)
Definition phaseOutcome (phase : M unit) (s : CState) (label : CleanupPhase)
  (key : string) (ok : bool) (requests : list Effect) : Prop :=
  (exists r,
     phaseSuccess r = ok
     /\ manager (phase s).1
        = {| currentPhase := label;
             cleanupStartTime := cleanupStartTime (manager s);
             cleanupResults := <[key := r]> (cleanupResults (manager s)) |})
  /\ List.filter browserRequest (trace (phase s).1)
     = List.filter browserRequest (trace s) ++ requests.

(** Closes the goals symbolic execution of a phase leaves. *)
Ltac close_outcome :=
  split;
  [ eexists; split; [|reflexivity]; reflexivity
  | rewrite ?List.filter_app; cbn [List.filter browserRequest app];
    rewrite ?app_nil_r; reflexivity ].

End CleanupReport.

(* ===================================================================== *)
(** * Messages of the window monitor *)
(* ===================================================================== *)

Module MonitorMessages.
Import JS Monitor.

(** The test of the handler of [checkAdsPowerWindowStatus]: the message
    mentions a timeout or a refused connection. *)
Definition networkProblem (message : jsstring) : bool :=
  includes message (js "timeout") || includes message (js "ECONNREFUSED").

End MonitorMessages.

(* ===================================================================== *)
(** * Properties of the answer consistency memory *)
(* ===================================================================== *)

Section ObjectMaps.
Import JS Memory.
Context {V : Type}.
Implicit Types (obj : list (jsstring * V)) (k : jsstring) (v : V).

Lemma hasKey_elem k obj : hasKey k obj = true <-> k ∈ objectKeys obj.
Proof.
  unfold hasKey, objectKeys. induction obj as [|[k' v'] obj IH]; simpl.
  - split; [discriminate | intros H; inversion H].
  - rewrite orb_true_iff, IH, elem_of_cons, bool_decide_eq_true.
    split; intros [H|H]; auto.
Qed.

Lemma hasKey_not_elem k obj : hasKey k obj = false <-> k ∉ objectKeys obj.
Proof.
  rewrite <- hasKey_elem. destruct (hasKey k obj); split; congruence.
Qed.

Lemma objectKeys_setKey_old k v obj :
  hasKey k obj = true -> objectKeys (setKey k v obj) = objectKeys obj.
Proof.
  unfold hasKey, objectKeys. induction obj as [|[k' v'] obj IH]; simpl.
  - discriminate.
  - case_bool_decide as Hk; simpl; intros H.
    + now subst.
    + now rewrite IH.
Qed.

Lemma objectKeys_setKey_new k v obj :
  hasKey k obj = false -> objectKeys (setKey k v obj) = objectKeys obj ++ [k].
Proof.
  unfold hasKey, objectKeys. induction obj as [|[k' v'] obj IH]; simpl.
  - reflexivity.
  - case_bool_decide as Hk; simpl; intros H.
    + discriminate.
    + now rewrite IH.
Qed.

Lemma getKey_setKey k' k v obj :
  getKey k' (setKey k v obj)
  = if bool_decide (k' = k) then Some v else getKey k' obj.
Proof.
  induction obj as [|[k0 v0] obj IH]; simpl.
  - repeat case_bool_decide; congruence.
  - destruct (decide (k0 = k)) as [->|Hne].
    + rewrite bool_decide_eq_true_2 by reflexivity. simpl.
      repeat case_bool_decide; congruence.
    + rewrite (bool_decide_eq_false_2 (k0 = k)) by assumption. simpl.
      rewrite IH. repeat case_bool_decide; congruence.
Qed.

Lemma length_setKey_new k v obj :
  hasKey k obj = false -> length (setKey k v obj) = length obj + 1.
Proof.
  intros H.
  pose proof (objectKeys_setKey_new k v obj H) as E.
  apply (f_equal (@length _)) in E.
  unfold objectKeys in E. rewrite length_app, !length_map in E. exact E.
Qed.

End ObjectMaps.

Section Recording.
Import JS Memory.

Lemma newMemory_consistent qid pid now : consistent (newMemory qid pid now).
Proof. repeat split; simpl; try reflexivity. constructor. Qed.

Lemma record_consistent mem c :
  consistent mem -> consistent (recordQuestionAnswer mem c).2.
Proof.
  intros (Hord & Hnd & Htot & Hcomp). unfold recordQuestionAnswer.
  destruct (hasKey (callQuestionId c) (questions mem)) eqn:Hk; simpl.
  - repeat split; simpl; auto.
    now rewrite objectKeys_setKey_old.
  - apply hasKey_not_elem in Hk as Hnot. rewrite <- Hord in Hnot.
    repeat split; simpl.
    + rewrite objectKeys_setKey_new by assumption. now rewrite Hord.
    + apply NoDup_app. split; [assumption|]. split.
      * intros x Hx Hin. apply list_elem_of_singleton in Hin. now subst.
      * apply NoDup_singleton.
    + unfold objectKeys. rewrite length_map, length_setKey_new by assumption.
      rewrite length_app. simpl. rewrite Hord. unfold objectKeys.
      now rewrite length_map.
    + rewrite length_app. simpl. lia.
Qed.

Lemma recordAll_consistent calls : forall mem,
  consistent mem -> consistent (recordAll mem calls).
Proof.
  unfold recordAll. induction calls as [|c calls IH]; simpl; intros mem H.
  - exact H.
  - apply IH. now apply record_consistent.
Qed.

Lemma record_order_set mem c :
  consistent mem ->
  (list_to_set (questionOrder (recordQuestionAnswer mem c).2) : gset jsstring)
  = list_to_set (questionOrder mem) ∪ {[ callQuestionId c ]}.
Proof.
  intros (Hord & _). unfold recordQuestionAnswer.
  destruct (hasKey (callQuestionId c) (questions mem)) eqn:Hk; simpl.
  - apply hasKey_elem in Hk. rewrite <- Hord in Hk.
    apply set_eq. intros x. rewrite elem_of_union, elem_of_singleton, !elem_of_list_to_set.
    split; [auto|]. intros [H| ->]; assumption.
  - rewrite list_to_set_app_L. simpl. now rewrite union_empty_r_L.
Qed.

Lemma recordAll_order_set calls : forall mem,
  consistent mem ->
  (list_to_set (questionOrder (recordAll mem calls)) : gset jsstring)
  = list_to_set (questionOrder mem) ∪ list_to_set (map callQuestionId calls).
Proof.
  unfold recordAll. induction calls as [|c calls IH]; simpl; intros mem H.
  - now rewrite union_empty_r_L.
  - rewrite IH by now apply record_consistent.
    rewrite record_order_set by assumption.
    rewrite <- union_assoc_L. reflexivity.
Qed.

End Recording.

Section RecordingTheorems.
Import JS Memory.

(** C7 (as stated): recording a first-seen fingerprint does not always
    increment [totalQuestions].  In a memory installed by [importMemory]
    with no stored record and [totalQuestions = 5], the first recording
    sets [totalQuestions] to 1, the number of stored records. *)
Lemma first_recording_resets_total : ~ Claimed.recordingPerFingerprint.
Proof.
  intros H.
  specialize (H Inputs.staleMemory (Inputs.coffeeCall Inputs.yesNo "Yes" 2000)).
  simpl in H. destruct H as (_ & Htotal & _).
  vm_compute in Htotal. discriminate.
Qed.

(** C7 (amended): for every memory state, [recordQuestionAnswer] returns
    the fingerprint and stores the new record under it, leaving every other
    stored record as it was.  When the fingerprint was already stored, the
    keys keep their order and [totalQuestions], [completedQuestions] and
    [questionOrder] are unchanged.  When it is first seen, it is appended
    to the keys and to [questionOrder], [completedQuestions] grows by one
    and [totalQuestions] becomes the number of stored records, that is the
    earlier number plus one. *)
Theorem record_overwrites_or_appends (mem : QuestionnaireMemory) (c : RecordCall) :
  let id := callQuestionId c in
  let mem' := (recordQuestionAnswer mem c).2 in
  (recordQuestionAnswer mem c).1 = id
  /\ (forall k, getKey k (questions mem')
                = if bool_decide (k = id) then Some (callRecord c)
                  else getKey k (questions mem))
  /\ if hasKey id (questions mem)
     then objectKeys (questions mem') = objectKeys (questions mem)
          /\ totalQuestions mem' = totalQuestions mem
          /\ completedQuestions mem' = completedQuestions mem
          /\ questionOrder mem' = questionOrder mem
     else objectKeys (questions mem') = objectKeys (questions mem) ++ [id]
          /\ questionOrder mem' = questionOrder mem ++ [id]
          /\ completedQuestions mem' = completedQuestions mem + 1
          /\ totalQuestions mem' = length (objectKeys (questions mem)) + 1.
Proof.
  intros id mem'. subst id mem'. unfold recordQuestionAnswer.
  destruct (hasKey (callQuestionId c) (questions mem)) eqn:Hk; simpl.
  - split; [reflexivity|]. split; [intros k; apply getKey_setKey|].
    rewrite objectKeys_setKey_old by assumption. auto.
  - split; [reflexivity|]. split; [intros k; apply getKey_setKey|].
    rewrite objectKeys_setKey_new by assumption.
    rewrite length_app. simpl. auto.
Qed.

(** In a memory whose counters match its records, as after any sequence
    of recordings on a fresh memory, a first-seen fingerprint increments
    [totalQuestions]. *)
Lemma first_seen_increments_total (mem : QuestionnaireMemory) (c : RecordCall) :
  consistent mem ->
  hasKey (callQuestionId c) (questions mem) = false ->
  totalQuestions (recordQuestionAnswer mem c).2 = totalQuestions mem + 1.
Proof.
  intros (Hord & _ & Htot & _) Hk.
  pose proof (record_overwrites_or_appends mem c) as H. simpl in H.
  rewrite Hk in H. destruct H as (_ & _ & _ & _ & _ & ->).
  now rewrite Htot, Hord.
Qed.

(** C10: after any sequence of [recordQuestionAnswer] calls on a fresh
    memory, [completedQuestions], [totalQuestions] and the length of
    [questionOrder] are equal to the number of distinct fingerprints
    recorded, [questionOrder] has no duplicate, and the reported
    [completionRate] is 0 when nothing was recorded and 100 otherwise. *)
Theorem completed_equals_total (qid pid : jsstring) (now later : N)
  (calls : list RecordCall) :
  let mem := recordAll (newMemory qid pid now) calls in
  completedQuestions mem = totalQuestions mem
  /\ totalQuestions mem = length (questionOrder mem)
  /\ length (questionOrder mem)
     = size (list_to_set (map callQuestionId calls) : gset jsstring)
  /\ NoDup (questionOrder mem)
  /\ (completionRate (getProgressInfo mem later)
      == if bool_decide (calls = []) then 0 else 100)%Q.
Proof.
  intros mem.
  pose proof (recordAll_consistent calls _ (newMemory_consistent qid pid now))
    as (Hord & Hnd & Htot & Hcomp).
  pose proof (recordAll_order_set calls _ (newMemory_consistent qid pid now)) as Hset.
  fold mem in Hord, Hnd, Htot, Hcomp, Hset. simpl in Hset.
  rewrite union_empty_l_L in Hset.
  assert (Hlen : length (questionOrder mem)
                 = size (list_to_set (map callQuestionId calls) : gset jsstring)).
  { rewrite <- Hset. symmetry. now apply size_list_to_set. }
  repeat split; try congruence.
  unfold getProgressInfo. simpl. rewrite Htot, Hcomp.
  destruct calls as [|c calls'].
  - subst mem. simpl. reflexivity.
  - rewrite bool_decide_eq_false_2 by discriminate.
    assert (Hpos : 0 < length (questionOrder mem)).
    { destruct (questionOrder mem) as [|k order]; [|simpl; lia].
      exfalso. simpl in Hset.
      assert (callQuestionId c ∈ (∅ : gset jsstring)) as Hin
        by (rewrite Hset; set_solver).
      set_solver. }
    replace (0 <? length (questionOrder mem)) with true
      by (symmetry; now apply Nat.ltb_lt).
    unfold QofNat. field.
    intros Hz. unfold Qeq in Hz. simpl in Hz. lia.
Qed.

End RecordingTheorems.

(* ===================================================================== *)
(** * Fingerprints *)
(* ===================================================================== *)

Section CaseVariants.
Import JS Memory.

Lemma sameLetter_cases a b :
  sameLetter a b -> a = b \/ (asciiLetter a /\ asciiLetter b).
Proof.
  unfold sameLetter, lowerUnit, isUpper, asciiLetter.
  destruct (N.leb_spec 0x41 a), (N.leb_spec a 0x5A),
           (N.leb_spec 0x41 b), (N.leb_spec b 0x5A); simpl; lia.
Qed.

Lemma letter_not_space c : asciiLetter c -> isSpace c = false.
Proof.
  unfold asciiLetter, isSpace. intros H. settle_comparisons. reflexivity.
Qed.

Lemma letter_is_word c : asciiLetter c -> isWord c = true.
Proof.
  unfold asciiLetter, isWord, isUpper, isLower, isDigit.
  intros [H|H]; settle_comparisons; reflexivity.
Qed.

Lemma sameLetter_space a b : sameLetter a b -> isSpace a = isSpace b.
Proof.
  intros H. destruct (sameLetter_cases a b H) as [->|[Ha Hb]]; [reflexivity|].
  now rewrite !letter_not_space.
Qed.

Lemma sameLetter_word a b : sameLetter a b -> isWord a = isWord b.
Proof.
  intros H. destruct (sameLetter_cases a b H) as [->|[Ha Hb]]; [reflexivity|].
  now rewrite !letter_is_word.
Qed.

Lemma sameLetter_SP : sameLetter SP SP.
Proof. reflexivity. Qed.

Lemma replaceSpaceRuns_case s1 s2 :
  Forall2 sameLetter s1 s2 ->
  Forall2 sameLetter (replaceSpaceRuns s1) (replaceSpaceRuns s2).
Proof.
  induction 1 as [|a b s1 s2 Hab Hs IH]; simpl; [constructor|].
  rewrite <- (sameLetter_space a b Hab).
  assert (headIsSpace s1 = headIsSpace s2) as ->.
  { destruct Hs as [|a' b' ? ? Hab' _]; simpl; [reflexivity|].
    now apply sameLetter_space. }
  destruct (isSpace a), (headIsSpace s2); auto using sameLetter_SP.
Qed.

Lemma trimStart_case s1 s2 :
  Forall2 sameLetter s1 s2 ->
  Forall2 sameLetter (trimStart s1) (trimStart s2).
Proof.
  induction 1 as [|a b s1 s2 Hab Hs IH]; simpl; [constructor|].
  rewrite <- (sameLetter_space a b Hab).
  destruct (isSpace a); auto.
Qed.

Lemma Forall2_rev_case s1 s2 :
  Forall2 sameLetter s1 s2 -> Forall2 sameLetter (rev s1) (rev s2).
Proof.
  induction 1 as [|a b s1 s2 Hab Hs IH]; simpl; [constructor|].
  apply Forall2_app; [assumption|]. now constructor.
Qed.

Lemma trim_case s1 s2 :
  Forall2 sameLetter s1 s2 -> Forall2 sameLetter (trim s1) (trim s2).
Proof.
  intros H. unfold trim, trimEnd.
  apply Forall2_rev_case, trimStart_case, Forall2_rev_case, trimStart_case, H.
Qed.

Lemma stripNonWord_case s1 s2 :
  Forall2 sameLetter s1 s2 ->
  Forall2 sameLetter (stripNonWord s1) (stripNonWord s2).
Proof.
  unfold stripNonWord.
  induction 1 as [|a b s1 s2 Hab Hs IH]; simpl; [constructor|].
  rewrite <- (sameLetter_space a b Hab), <- (sameLetter_word a b Hab).
  destruct (isWord a || isSpace a); auto.
Qed.

Lemma toLowerCase_case s1 s2 :
  Forall2 sameLetter s1 s2 -> toLowerCase s1 = toLowerCase s2.
Proof.
  unfold toLowerCase. induction 1 as [|a b s1 s2 Hab Hs IH]; simpl; congruence.
Qed.

(** Texts that differ only in the case of ASCII letters have the same
    normal form, hence the same fingerprint on the same page. *)
Lemma normalize_ignores_case (text1 text2 : jsstring) :
  Forall2 sameLetter text1 text2 ->
  normalizeQuestionText text1 = normalizeQuestionText text2.
Proof.
  intros H. unfold normalizeQuestionText.
  apply toLowerCase_case, stripNonWord_case, trim_case, replaceSpaceRuns_case, H.
Qed.

End CaseVariants.

Section Fingerprints.
Import JS Memory.

(** The fingerprint is a function of the page URL and of the normalised
    text only. *)
Lemma fingerprint_of_normal_form (text1 text2 pageUrl : jsstring) :
  normalizeQuestionText text1 = normalizeQuestionText text2 ->
  generateQuestionId text1 pageUrl = generateQuestionId text2 pageUrl.
Proof. unfold generateQuestionId. now intros ->. Qed.

Lemma fingerprint_ignores_case (text1 text2 pageUrl : jsstring) :
  Forall2 sameLetter text1 text2 ->
  generateQuestionId text1 pageUrl = generateQuestionId text2 pageUrl.
Proof.
  intros H. now apply fingerprint_of_normal_form, normalize_ignores_case.
Qed.

(** C6: the texts "Do you like coffee?" and "Do you like coffee ?" have
    the same words and differ only by a space before the question mark.
    White space is collapsed and trimmed before punctuation is removed, so
    the second text keeps a trailing space in its normal form, and the two
    fingerprints on the same page differ. *)
Theorem space_before_punctuation_changes_fingerprint :
  Claimed.sameUpToFormat Inputs.coffeeText Inputs.coffeeTextSpaced
  /\ normalizeQuestionText Inputs.coffeeText = js "do you like coffee"
  /\ normalizeQuestionText Inputs.coffeeTextSpaced = js "do you like coffee "
  /\ generateQuestionId Inputs.coffeeText Inputs.surveyUrl = js "d09cfb6ba5dc4c56"
  /\ generateQuestionId Inputs.coffeeTextSpaced Inputs.surveyUrl = js "5357e53eb6a8d672"
  /\ generateQuestionId Inputs.coffeeText Inputs.surveyUrl
     <> generateQuestionId Inputs.coffeeTextSpaced Inputs.surveyUrl.
Proof.
  repeat split; try (vm_compute; reflexivity).
  vm_compute. discriminate.
Qed.

End Fingerprints.

(* ===================================================================== *)
(** * Errors during the similarity computation *)
(* ===================================================================== *)

Section LookupErrors.
Import JS.

Lemma scanRecords_exported (current : Memory.QuestionFeatures) (threshold : Q)
  (records : list Memory.QuestionRecord) :
  forall (best : option Memory.QuestionRecord) (bestSimilarity : Q),
    Imported.scanRecords current threshold (map Imported.rawOfRecord records)
      (option_map Imported.rawOfRecord best, bestSimilarity)
    = Ok (option_map Imported.rawOfRecord
            (fold_left (Memory.scanRecord current threshold) records
                       (best, bestSimilarity)).1,
          (fold_left (Memory.scanRecord current threshold) records
                     (best, bestSimilarity)).2).
Proof.
  induction records as [|r records IH]; intros best bestSimilarity; simpl.
  - reflexivity.
  - unfold Memory.scanRecord at 2 4. unfold Memory.recordSimilarity. simpl.
    destruct (Qltb threshold _ && Qltb bestSimilarity _).
    + apply (IH (Some r)).
    + apply IH.
Qed.

(** On a memory that was exported from well-formed records, the lookup
    that reads imported records returns what the typed lookup returns. *)
Lemma findSimilarQuestion_exported (mem : Memory.QuestionnaireMemory)
  (text : jsstring) (opts : list jsstring) (threshold : Q) :
  Imported.findSimilarQuestion (Imported.importMemory (Imported.exportMemory mem))
    text opts threshold
  = Ok (option_map Imported.rawOfRecord
          (Memory.findSimilarQuestion mem text opts threshold)).
Proof.
  unfold Imported.findSimilarQuestion, Memory.findSimilarQuestion,
    Imported.importMemory, Imported.exportMemory, Memory.objectValues.
  simpl. rewrite map_map. simpl. rewrite <- (map_map snd Imported.rawOfRecord).
  rewrite (scanRecords_exported _ _ _ None 0%Q). reflexivity.
Qed.

(** C9: once [importMemory] has installed a memory in which a record has
    no [options], the suggestion lookup evaluates [options.map] on
    [undefined]; no handler is in the way and the [TypeError] leaves
    [getConsistentAnswerSuggestion].  The lookup of [MemoryManager], whose
    body is inside [try], returns [null] on its corrupt record. *)
Theorem suggestion_lookup_propagates_error :
  Imported.getConsistentAnswerSuggestion
    (Imported.importMemory Inputs.corruptImport) Inputs.coffeeText Inputs.yesNo
  = Throw (js "Cannot read properties of undefined (reading 'map')")
  /\ MemoryManager.findSimilarMemory [Inputs.corruptCacheRecord]
       (js "0123456789") Inputs.coffeeText
     = None.
Proof.
  split; vm_compute; reflexivity.
Qed.

(** The sibling lookup never lets an exception out: whatever the cache
    holds, it returns a record or [null]. *)
Lemma findSimilarMemory_catches (cache : list MemoryManager.MemoryRecord)
  (digitalPersonId questionText message : jsstring) :
  MemoryManager.scanCache digitalPersonId (trim (toLowerCase questionText)) cache
  = Throw message ->
  MemoryManager.findSimilarMemory cache digitalPersonId questionText = None.
Proof.
  unfold MemoryManager.findSimilarMemory. now intros ->.
Qed.

End LookupErrors.

(* ===================================================================== *)
(** * The edit distance matrix *)
(* ===================================================================== *)

Section EditDistance.
Import JS Memory.
Variables str1 str2 : jsstring.

Abbreviation lev := (Claimed.levenshtein str1 str2).

Lemma lev_succ_succ i j :
  lev (S i) (S j)
  = Nat.min (Nat.min (lev i (S j) + 1) (lev (S i) j + 1))
            (lev i j + if (nth i str1 0 =? nth j str2 0)%N then 0 else 1).
Proof. reflexivity. Qed.

Lemma lev_succ_zero i : lev (S i) 0 = S i.
Proof. reflexivity. Qed.

Lemma lev_zero j : lev 0 j = j.
Proof. reflexivity. Qed.

(** Cells [S j ..] of row [S i], from cells [j ..] of row [i]. *)
Lemma fillRow_levenshtein i c :
  str1 !! i = Some c ->
  forall (tail : jsstring) (j : nat),
    tail = drop j str2 ->
    fillRow c tail (map (lev i) (seq j (S (length tail)))) (lev (S i) j)
    = map (lev (S i)) (seq (S j) (length tail)).
Proof.
  intros Hc. induction tail as [|d tail IH]; intros j Htail.
  - reflexivity.
  - assert (Hd : str2 !! j = Some d).
    { rewrite <- (Nat.add_0_r j), <- lookup_drop, <- Htail. reflexivity. }
    assert (Htail' : tail = drop (S j) str2).
    { rewrite <- Nat.add_1_r, <- drop_drop, <- Htail. reflexivity. }
    cbn [length seq map fillRow].
    assert (Hcell :
      Nat.min (Nat.min (lev i (S j) + 1) (lev (S i) j + 1))
              (lev i j + if (c =? d)%N then 0 else 1)
      = lev (S i) (S j)).
    { rewrite lev_succ_succ.
      rewrite (nth_lookup_Some _ _ _ _ Hc), (nth_lookup_Some _ _ _ _ Hd).
      reflexivity. }
    rewrite Hcell. f_equal.
    apply (IH (S j) Htail').
Qed.

Lemma nextRow_levenshtein i c :
  str1 !! i = Some c ->
  nextRow c str2 (map (lev i) (seq 0 (S (length str2)))) (S i)
  = map (lev (S i)) (seq 0 (S (length str2))).
Proof.
  intros Hc. unfold nextRow.
  change (S i) with (lev (S i) 0) at 1 2.
  rewrite (fillRow_levenshtein i c Hc str2 0 eq_refl). reflexivity.
Qed.

Lemma fillMatrix_levenshtein (rest : jsstring) : forall i,
  rest = drop i str1 -> i <= length str1 ->
  fillMatrix rest str2 (map (lev i) (seq 0 (S (length str2)))) i
  = map (lev (length str1)) (seq 0 (S (length str2))).
Proof.
  induction rest as [|c rest IH]; intros i Hrest Hle.
  - apply (f_equal (@length _)) in Hrest. rewrite length_drop in Hrest.
    simpl in Hrest. replace i with (length str1) by lia. reflexivity.
  - assert (Hc : str1 !! i = Some c).
    { rewrite <- (Nat.add_0_r i), <- lookup_drop, <- Hrest. reflexivity. }
    assert (Hrest' : rest = drop (S i) str1).
    { rewrite <- Nat.add_1_r, <- drop_drop, <- Hrest. reflexivity. }
    apply lookup_lt_Some in Hc as Hlt.
    cbn [fillMatrix]. rewrite (nextRow_levenshtein i c Hc).
    apply (IH (S i) Hrest'). lia.
Qed.

Lemma last_map_seq (f : nat -> nat) (n : nat) :
  List.last (map f (seq 0 (S n))) 0 = f n.
Proof.
  rewrite seq_S, map_app. simpl. apply last_last.
Qed.

(** The cell [matrix[len1][len2]] the code reads is the Levenshtein
    distance of the two strings. *)
Lemma editDistance_levenshtein :
  editDistance str1 str2 = Claimed.editDistance str1 str2.
Proof.
  unfold editDistance, Claimed.editDistance.
  assert (Hrow0 : forall l, map (lev 0) l = l)
    by (induction l as [|x l IH]; [reflexivity|simpl; f_equal; exact IH]).
  rewrite <- (Hrow0 (seq 0 (S (length str2)))).
  rewrite (fillMatrix_levenshtein str1 0 eq_refl (Nat.le_0_l _)).
  apply last_map_seq.
Qed.

End EditDistance.

Section LevenshteinFacts.
Import JS Memory.

Lemma levenshtein_le_max (s t : jsstring) (i : nat) : forall j,
  Claimed.levenshtein s t i j <= Nat.max i j.
Proof.
  induction i as [|i IHi]; intros j.
  - simpl. lia.
  - induction j as [|j IHj].
    + simpl. lia.
    + rewrite lev_succ_succ.
      specialize (IHi j).
      destruct (nth i s 0 =? nth j t 0)%N; lia.
Qed.


Lemma levenshtein_zero_r (s t : jsstring) (i : nat) :
  Claimed.levenshtein s t i 0 = i.
Proof. destruct i; reflexivity. Qed.

Lemma editDistance_le_max (s t : jsstring) :
  Claimed.editDistance s t <= Nat.max (length s) (length t).
Proof. apply levenshtein_le_max. Qed.


End LevenshteinFacts.

(* ===================================================================== *)
(** * The similarity score *)
(* ===================================================================== *)

Section Score.
Import JS Memory.

Lemma Qltb_lt (a b : Q) : Qltb a b = true <-> (a < b)%Q.
Proof.
  unfold Qltb. rewrite negb_true_iff.
  split.
  - intros H. apply Qnot_le_lt. intros Hle.
    apply Qle_bool_iff in Hle. congruence.
  - intros H. destruct (Qle_bool b a) eqn:E; [|reflexivity].
    apply Qle_bool_iff in E. exfalso. exact (Qlt_not_le _ _ H E).
Qed.

Lemma Qltb_ge (a b : Q) : Qltb a b = false <-> (b <= a)%Q.
Proof.
  unfold Qltb. rewrite negb_false_iff. apply Qle_bool_iff.
Qed.

Lemma QofNat_nonneg (n : nat) : (0 <= QofNat n)%Q.
Proof. unfold QofNat, Qle. simpl. lia. Qed.

Lemma QofNat_pos (n : nat) : 0 < n -> (0 < QofNat n)%Q.
Proof. unfold QofNat, Qlt. simpl. lia. Qed.

Lemma QofNat_le (n m : nat) : n <= m -> (QofNat n <= QofNat m)%Q.
Proof. unfold QofNat, Qle. simpl. lia. Qed.

Lemma QofNat_nonzero (n : nat) : 0 < n -> ~ (QofNat n == 0)%Q.
Proof. unfold QofNat, Qeq. simpl. lia. Qed.

Lemma ratio_complement (m d : nat) :
  0 < m ->
  (inject_Z (Z.of_nat m - Z.of_nat d) / QofNat m == 1 - QofNat d / QofNat m)%Q.
Proof.
  intros Hm. unfold QofNat, Z.sub. rewrite inject_Z_plus, inject_Z_opp.
  field. now apply (QofNat_nonzero m).
Qed.

Lemma stringSimilarity_textSim (s t : jsstring) :
  (calculateStringSimilarity s t == Claimed.textSim s t)%Q.
Proof.
  unfold calculateStringSimilarity, Claimed.textSim.
  rewrite editDistance_levenshtein. unfold Claimed.editDistance.
  destruct s as [|a s]; destruct t as [|b t]; simpl length.
  - reflexivity.
  - cbn [Nat.eqb Nat.max]. change (Claimed.levenshtein [] (b :: t) 0 (S (length t)))
      with (S (length t)).
    field. apply QofNat_nonzero. lia.
  - cbn [Nat.eqb Nat.max]. rewrite levenshtein_zero_r.
    field. apply QofNat_nonzero. lia.
  - cbn [Nat.eqb]. change (Nat.max (S (length s)) (S (length t)) =? 0)
      with false. cbv iota.
    apply ratio_complement. lia.
Qed.

Lemma textSim_nonneg (s t : jsstring) : (0 <= Claimed.textSim s t)%Q.
Proof.
  unfold Claimed.textSim.
  destruct (Nat.max (length s) (length t) =? 0) eqn:E; [discriminate|].
  apply Nat.eqb_neq in E.
  pose proof (editDistance_le_max s t) as Hle.
  apply QofNat_le in Hle.
  assert (Hpos : (0 < QofNat (Nat.max (length s) (length t)))%Q)
    by (apply QofNat_pos; lia).
  assert (Hdiv : (QofNat (Claimed.editDistance s t)
                  / QofNat (Nat.max (length s) (length t)) <= 1)%Q).
  { apply Qle_shift_div_r; [assumption|]. now rewrite Qmult_1_l. }
  lra.
Qed.


Lemma sizeRatio_jaccard (A B : gset jsstring) :
  sizeRatio (filter (fun k => k ∈ B) A) (A ∪ B) = Claimed.jaccard A B.
Proof.
  unfold sizeRatio, Claimed.jaccard.
  assert (filter (fun k => k ∈ B) A = A ∩ B) as ->.
  { apply set_eq. intros x. rewrite elem_of_filter, elem_of_intersection. tauto. }
  destruct (size (A ∪ B)); reflexivity.
Qed.

Lemma jaccard_nonneg (A B : gset jsstring) : (0 <= Claimed.jaccard A B)%Q.
Proof.
  unfold Claimed.jaccard.
  destruct (size (A ∪ B) =? 0) eqn:E; [discriminate|].
  apply Nat.eqb_neq in E.
  apply Qle_shift_div_l; [apply QofNat_pos; lia|].
  rewrite Qmult_0_l. apply QofNat_nonneg.
Qed.


(** The score the code computes for two questions is the weighted sum of
    the specification. *)
Lemma similarity_is_score (text1 : jsstring) (opts1 : list jsstring)
  (text2 : jsstring) (opts2 : list jsstring) :
  (calculateQuestionSimilarity (extractQuestionFeatures text1 opts1)
                               (extractQuestionFeatures text2 opts2)
   == Claimed.score text1 opts1 text2 opts2)%Q.
Proof.
  unfold calculateQuestionSimilarity, Claimed.score. simpl.
  rewrite !sizeRatio_jaccard, stringSimilarity_textSim.
  unfold Claimed.keywordSet, Claimed.optionSet, longWords.
  destruct (length opts1 =? length opts2); ring.
Qed.

Lemma recordSimilarity_is_score (text : jsstring) (opts : list jsstring)
  (r : QuestionRecord) :
  (recordSimilarity (extractQuestionFeatures text opts) r
   == Claimed.scoreOf text opts r)%Q.
Proof. apply similarity_is_score. Qed.

Lemma score_positive (text1 : jsstring) (opts1 : list jsstring)
  (text2 : jsstring) (opts2 : list jsstring) :
  (0 < Claimed.score text1 opts1 text2 opts2)%Q.
Proof.
  unfold Claimed.score.
  pose proof (textSim_nonneg (normalizeQuestionText text1)
                             (normalizeQuestionText text2)).
  pose proof (jaccard_nonneg (Claimed.keywordSet text1) (Claimed.keywordSet text2)).
  pose proof (jaccard_nonneg (Claimed.optionSet opts1) (Claimed.optionSet opts2)).
  destruct (length opts1 =? length opts2); lra.
Qed.






End Score.

(* ===================================================================== *)
(** * The scan for the most similar stored question *)
(* ===================================================================== *)

Section Scan.
Import JS Memory.
Variables (text : jsstring) (opts : list jsstring) (threshold : Q).

Abbreviation current := (extractQuestionFeatures text opts).
Abbreviation sim := (recordSimilarity (extractQuestionFeatures text opts)).

Abbreviation scanned := (scanInvariant text opts threshold).

Lemma sim_positive (r : QuestionRecord) : (0 < sim r)%Q.
Proof.
  rewrite recordSimilarity_is_score. unfold Claimed.scoreOf. apply score_positive.
Qed.

Lemma scanRecord_scanned (seen : list QuestionRecord)
  (acc : option QuestionRecord * Q) (r : QuestionRecord) :
  scanned seen acc ->
  scanned (seen ++ [r]) (scanRecord current threshold acc r).
Proof.
  destruct acc as [best bestSimilarity]. unfold scanInvariant, scanRecord.
  cbn [fst snd].
  intros Hinv. pose proof (sim_positive r) as Hpos.
  assert (Hkeep : forall b earlier later,
    (threshold < sim b)%Q ->
    Forall (fun x => (sim x < sim b)%Q) earlier ->
    Forall (fun x => (sim x <= sim b)%Q) later ->
    (sim r <= sim b)%Q ->
    sim b = sim b /\ (threshold < sim b)%Q
    /\ exists earlier' later',
         (earlier ++ b :: later) ++ [r] = earlier' ++ b :: later'
         /\ Forall (fun x => (sim x < sim b)%Q) earlier'
         /\ Forall (fun x => (sim x <= sim b)%Q) later').
  { intros b earlier later Hthr He Hl Hr.
    split; [reflexivity|]. split; [assumption|].
    exists earlier, (later ++ [r]).
    split; [now rewrite <- app_assoc|]. split; [assumption|].
    apply Forall_app. split; [assumption|]. now constructor. }
  destruct (Qltb threshold (sim r)) eqn:Ht;
    destruct (Qltb bestSimilarity (sim r)) eqn:Hb; cbn [andb fst snd].
  - (* a new best match *)
    apply Qltb_lt in Ht, Hb. split; [reflexivity|]. split; [assumption|].
    exists seen, []. split; [reflexivity|]. split; [|constructor].
    destruct best as [b|].
    + destruct Hinv as (-> & Hthr & earlier & later & -> & Hearlier & Hlater).
      apply Forall_app. split.
      * eapply Forall_impl; [exact Hearlier|]. simpl. intros x Hx. lra.
      * constructor; [assumption|].
        eapply Forall_impl; [exact Hlater|]. simpl. intros x Hx. lra.
    + destruct Hinv as (_ & Hseen).
      eapply Forall_impl; [exact Hseen|]. simpl. intros x Hx. lra.
  - apply Qltb_lt in Ht. apply Qltb_ge in Hb.
    destruct best as [b|].
    + destruct Hinv as (-> & Hthr & earlier & later & -> & Hearlier & Hlater).
      now apply Hkeep.
    + destruct Hinv as (-> & Hseen). lra.
  - apply Qltb_ge in Ht.
    destruct best as [b|].
    + destruct Hinv as (-> & Hthr & earlier & later & -> & Hearlier & Hlater).
      apply Hkeep; try assumption. lra.
    + destruct Hinv as (-> & Hseen). split; [reflexivity|].
      apply Forall_app. split; [assumption|]. now constructor.
  - apply Qltb_ge in Ht.
    destruct best as [b|].
    + destruct Hinv as (-> & Hthr & earlier & later & -> & Hearlier & Hlater).
      apply Hkeep; try assumption. lra.
    + destruct Hinv as (-> & Hseen). split; [reflexivity|].
      apply Forall_app. split; [assumption|]. now constructor.
Qed.

Lemma scan_scanned (records : list QuestionRecord) :
  forall (seen : list QuestionRecord) (acc : option QuestionRecord * Q),
    scanned seen acc ->
    scanned (seen ++ records) (fold_left (scanRecord current threshold) records acc).
Proof.
  induction records as [|r records IH]; intros seen acc H; simpl.
  - now rewrite app_nil_r.
  - replace (seen ++ r :: records) with ((seen ++ [r]) ++ records)
      by (now rewrite <- app_assoc).
    apply IH, scanRecord_scanned, H.
Qed.

Lemma findSimilarQuestion_scanned (mem : QuestionnaireMemory) :
  scanned (objectValues (questions mem))
    (fold_left (scanRecord current threshold) (objectValues (questions mem))
               (None, 0%Q)).
Proof.
  apply (scan_scanned _ [] (None, 0%Q)). split; [reflexivity|constructor].
Qed.

End Scan.

Section SuggestionTheorems.
Import JS Memory.

Lemma findSimilarQuestion_cases (mem : QuestionnaireMemory) (text : jsstring)
  (opts : list jsstring) (threshold : Q) :
  let sim := recordSimilarity (extractQuestionFeatures text opts) in
  match findSimilarQuestion mem text opts threshold with
  | Some best =>
      (threshold < sim best)%Q
      /\ exists earlier later,
           objectValues (questions mem) = earlier ++ best :: later
           /\ Forall (fun r => (sim r < sim best)%Q) earlier
           /\ Forall (fun r => (sim r <= sim best)%Q) later
  | None => Forall (fun r => (sim r <= threshold)%Q) (objectValues (questions mem))
  end.
Proof.
  intros sim. pose proof (findSimilarQuestion_scanned text opts threshold mem) as H.
  unfold findSimilarQuestion. unfold scanInvariant in H. fold sim in H.
  destruct (fold_left _ _ _).1 as [best|].
  - destruct H as (_ & Hthr & Hsplit). split; assumption.
  - destruct H as (_ & Hseen). exact Hseen.
Qed.






End SuggestionTheorems.

(* ===================================================================== *)
(** * The completion detector *)
(* ===================================================================== *)

Section Detector.
Import JS Completion.




Lemma existsb_pointwise {A : Type} (f g : A -> bool) (l : list A) :
  (forall x, f x = g x) -> existsb f l = existsb g l.
Proof.
  intros H. induction l as [|x l IH]; simpl; [reflexivity|].
  now rewrite H, IH.
Qed.

Lemma selectorMatches_counts (url title : jsstring) (text : Res (option jsstring))
  (counts : jsstring -> Res nat) (selector : jsstring) :
  selectorMatches (Claimed.pageOfSignals url title text counts) selector
  = match counts selector with
    | Ok n => 0 <? n
    | Throw _ => false
    end.
Proof.
  unfold selectorMatches. simpl. now destruct (counts selector).
Qed.

Lemma strictSignals_ignoringCase (url title : jsstring)
  (text : Res (option jsstring)) (counts : jsstring -> Res nat) :
  detectStrictCompletionSignals (Claimed.pageOfSignals url title text counts)
    url (toLowerCase (Claimed.visibleText text))
  = Claimed.signalPresentIgnoringCase url text counts.
Proof.
  unfold detectStrictCompletionSignals, Claimed.signalPresentIgnoringCase,
    Claimed.markerPresent.
  rewrite (existsb_pointwise _ _ completionSelectors
             (selectorMatches_counts url title text counts)).
  destruct (existsb _ completionUrlPatterns); [reflexivity|].
  destruct (existsb _ completionSignals); [reflexivity|].
  destruct (existsb _ completionSelectors); reflexivity.
Qed.

Lemma bodyText_visibleText (text : Res (option jsstring)) :
  tryCatch (content ← text; Ok (default [] content)) (fun _ => [])
  = Claimed.visibleText text.
Proof. destruct text as [[t|]|e]; reflexivity. Qed.

(** The verdict on a page-signal input. *)
Lemma detection_on_signals (m : Manager) (url title : jsstring)
  (text : Res (option jsstring)) (counts : jsstring -> Res nat)
  (executionTime : Z) (now : N) :
  (intelligentCompletionDetection m (Claimed.pageOfSignals url title text counts)
     executionTime now).1
  = if Claimed.signalPresentIgnoringCase url text counts
    then completeResult now executionTime
    else continueResult now executionTime.
Proof.
  unfold intelligentCompletionDetection.
  cbn [Claimed.pageOfSignals pageUrl pageTitle bodyTextContent mbind Res_bind
       tryCatch].
  change (Res_bind _ _ ?k ?r) with (mbind k r).
  rewrite bodyText_visibleText, strictSignals_ignoringCase.
  destruct (Claimed.signalPresentIgnoringCase url text counts); reflexivity.
Qed.



(** When the page cannot give its URL the verdict is the detection-error
    verdict, which is not complete either. *)
Lemma detection_error_continues (m : Manager) (page : Page) (message : jsstring)
  (executionTime : Z) (now : N) :
  pageUrl page = Throw message ->
  (intelligentCompletionDetection m page executionTime now).1
  = errorResult now executionTime message.
Proof.
  intros H. unfold intelligentCompletionDetection. rewrite H. reflexivity.
Qed.

(** A successful verdict carries the fixed rationale. *)
Lemma successful_detection_details (m : Manager) (page : Page)
  (executionTime : Z) (now : N) :
  let verdict := (intelligentCompletionDetection m page executionTime now).1 in
  isSuccess verdict = true ->
  details verdict = js "检测到明确的问卷结束信号".
Proof.
  unfold intelligentCompletionDetection.
  destruct (pageUrl page) as [url|e]; [|discriminate].
  destruct (pageTitle page) as [title|e]; [|discriminate].
  cbn [mbind Res_bind tryCatch fst].
  destruct (detectStrictCompletionSignals _ _ _); [reflexivity|discriminate].
Qed.

End Detector.

(* ===================================================================== *)
(** * The continuous answering loop *)
(* ===================================================================== *)

Section AnsweringLoop.
Import JS Loop LoopShape.
Variables (cfg : Config) (worlds : nat -> RoundWorld).

Lemma finish_exhausted (st : LoopState) : exhausted (finish st).
Proof. split; reflexivity. Qed.

Lemma roundCatch_not_returned (st st' : LoopState) (r : AnsweringResult) :
  roundCatch cfg st <> (st', Returned r).
Proof.
  unfold roundCatch. destruct (_ <=? _); congruence.
Qed.

Lemma roundBody_returned (attempt : nat) (w : RoundWorld) (st st' : LoopState)
  (pageState : PageState) (r : AnsweringResult) :
  roundBody cfg attempt w st pageState = (st', Returned r) -> completed r.
Proof.
  unfold roundBody.
  pose proof (successful_detection_details (completionManager st)
                (detectionPage w)
                (Z.of_N (clock w) - Z.of_nat attempt * 1000)%Z (clock w)) as Hd.
  simpl in Hd.
  destruct (Completion.intelligentCompletionDetection _ _ _ _)
    as [completionResult manager'].
  simpl in Hd.
  destruct (Completion.isSuccess completionResult) eqn:Hs;
    [destruct (Completion.shouldCleanup completionResult)|]; cbn [andb].
  - intros [= _ <-]. split; [reflexivity|]. now apply Hd.
  - destruct (if hasQuestions pageState && hasUnAnsweredQuestions pageState
              then _ else _) as [answered memory'].
    destruct (negb _); [destruct (_ <=? _)|]; congruence.
  - destruct (if hasQuestions pageState && hasUnAnsweredQuestions pageState
              then _ else _) as [answered memory'].
    destruct (negb _); [destruct (_ <=? _)|]; congruence.
Qed.

Lemma runRound_returned (attempt : nat) (w : RoundWorld) (st st' : LoopState)
  (r : AnsweringResult) :
  runRound cfg attempt w st = (st', Returned r) -> completed r.
Proof.
  unfold runRound. destruct (performDeepPageAnalysis w) as [pageState|].
  - apply roundBody_returned.
  - intros H. now apply roundCatch_not_returned in H.
Qed.

Lemma rounds_shape (remaining : nat) : forall (attempt : nat) (st : LoopState),
  1 <= attempt ->
  outcomeShape (attempt - 1 + remaining) (rounds cfg worlds remaining attempt st).
Proof.
  induction remaining as [|remaining IH]; intros attempt st Hattempt.
  - simpl. split; simpl; [lia|]. split; [apply finish_exhausted|lia].
  - cbn [rounds].
    destruct (runRound cfg attempt (worlds attempt) st) as [st' exit] eqn:Hround.
    destruct exit as [r| |].
    + split; simpl; [lia|]. now apply runRound_returned in Hround.
    + split; simpl; [lia|]. apply finish_exhausted.
    + replace (attempt - 1 + S remaining) with (S attempt - 1 + remaining) by lia.
      apply IH. lia.
Qed.

End AnsweringLoop.

Section AnsweringLoopTheorems.
Import JS Loop.

(** C2 (as stated): the reason does not name the condition that ended the
    run, and the failure budget and the round budget do not yield distinct
    statuses.  With the default budgets, a run of 25 pages followed by
    eight failed clicks ends on the failure budget in round 33, and a run
    with seven failed clicks before each of 25 pages ends on the round
    budget after 200 rounds; both return "partial_completed" with the same
    reason, the count of pages and answers. *)
Lemma budgets_share_status_and_reason : ~ Claimed.reasonNamesCondition.
Proof.
  intros H.
  specialize (H None Completion.newManager
                Inputs.pagesThenFailures Inputs.everyEighthRound).
  destruct H as [H _]. vm_compute in H. specialize (H eq_refl). discriminate.
Qed.

(** C2 (amended): for every sequence of answers of the outside world the
    loop ends after at most [maxContinuousAttempts] rounds, and its status
    is one of "completed", "partial_completed" and "failed".  A run ended
    by the detector returns "completed" with the detector's rationale as
    reason.  A run ended by the failure budget or by the round budget
    returns "partial_completed" when at least one page was processed and
    "failed" otherwise, and its reason gives the count of pages and
    answers; a run ended by the round budget ran exactly
    [maxContinuousAttempts] rounds. *)
Theorem loop_ends_within_round_budget (cfg : Config)
  (memory : option Memory.QuestionnaireMemory) (manager : Completion.Manager)
  (worlds : nat -> RoundWorld) :
  let run := executeContinuousAnswering cfg memory manager worlds in
  roundsRun run <= maxContinuousAttempts cfg
  /\ finalStatus (result run)
     ∈ [js "completed"; js "partial_completed"; js "failed"]
  /\ match cause run with
     | DefiniteCompletion =>
         finalStatus (result run) = js "completed"
         /\ completionReason (result run) = js "检测到明确的问卷结束信号"
     | FailureBudget =>
         finalStatus (result run)
         = (if 0 <? totalPagesProcessed (result run)
            then js "partial_completed" else js "failed")
         /\ completionReason (result run)
            = js "处理了" ++ decimal (N.of_nat (totalPagesProcessed (result run)))
              ++ js "页，回答了"
              ++ decimal (N.of_nat (resultQuestionsAnswered (result run)))
              ++ js "个问题"
     | RoundBudget =>
         finalStatus (result run)
         = (if 0 <? totalPagesProcessed (result run)
            then js "partial_completed" else js "failed")
         /\ completionReason (result run)
            = js "处理了" ++ decimal (N.of_nat (totalPagesProcessed (result run)))
              ++ js "页，回答了"
              ++ decimal (N.of_nat (resultQuestionsAnswered (result run)))
              ++ js "个问题"
         /\ roundsRun run = maxContinuousAttempts cfg
     end.
Proof.
  intros run.
  pose proof (rounds_shape cfg worlds (maxContinuousAttempts cfg) 1
                (initialState memory manager) (Nat.le_refl 1)) as [Hrounds Hcause].
  fold (executeContinuousAnswering cfg memory manager worlds) in Hrounds, Hcause.
  fold run in Hrounds, Hcause. simpl in Hrounds.
  split; [exact Hrounds|].
  destruct (cause run).
  - destruct Hcause as [Hstatus Hreason]. split; [|now split].
    rewrite Hstatus. apply list_elem_of_here.
  - destruct Hcause as [Hstatus Hreason]. split; [|now split].
    rewrite Hstatus. destruct (0 <? _).
    + apply list_elem_of_further, list_elem_of_here.
    + apply list_elem_of_further, list_elem_of_further, list_elem_of_here.
  - destruct Hcause as [[Hstatus Hreason] Hlimit]. split; [|now repeat split].
    rewrite Hstatus. destruct (0 <? _).
    + apply list_elem_of_further, list_elem_of_here.
    + apply list_elem_of_further, list_elem_of_further, list_elem_of_here.
Qed.

End AnsweringLoopTheorems.

(* ===================================================================== *)
(** * The six-phase cleanup *)
(* ===================================================================== *)

Section Phases.
Import JS Cleanup CleanupEffect.
Variable w : World.

(** Phase 1 returns normally whatever [pause] does; it only sets the stop
    flag. *)
Lemma phase1_effect (s : CState) :
  phaseEffect (phase1StopMonitoring w) s
    (afterPhase1 (data s)) (activeBrowsers s) (allocatedProxies s)
    (proxyUsageStats s)
    (monitorInterval (data s) = None /\ superEngine (data s) = None).
Proof.
  destruct s as [d m br ap us tr].
  destruct d as [sid pid pinfo sh eng binfo adsm pm mm dpm mi flag addl].
  unfold afterPhase1.
  destruct mi as [timer|]; destruct eng as [engine|];
    try destruct (pauseOutcome w) as [[]|e] eqn:Hpause;
    run_phase; close_phase.
Qed.

(** Phase 2 drops the references to the automation backend, whatever
    closing its context does. *)
Lemma phase2_effect (s : CState) :
  phaseEffect (phase2CleanupStagehand w) s
    (withSuperEngine None (withStagehand None (data s)))
    (activeBrowsers s) (allocatedProxies s) (proxyUsageStats s)
    (stagehand (data s) = None).
Proof.
  destruct s as [d m br ap us tr].
  destruct d as [sid pid pinfo sh eng binfo adsm pm mm dpm mi flag addl].
  destruct eng as [engine|];
    (destruct sh as [[shid [ctx|]]|];
     [ destruct (pagesOutcome w) as [[|[[url|e]|] pages]|e] eqn:Hpages;
       [ | destruct (negb (includes url (js "chrome://"))
                     && negb (includes url (js "about:"))) eqn:Hurl;
           [ | destruct (closeOutcome w) as [[]|e] eqn:Hclose ] | | | ]
     | | ]);
    run_phase; close_phase.
Qed.

(** Phase 3 drops the references to the two memory managers. *)
Lemma phase3_effect (s : CState) :
  phaseEffect (phase3CleanupMemory w) s
    (withPersonMemory None (withMemoryManager None (data s)))
    (activeBrowsers s) (allocatedProxies s) (proxyUsageStats s)
    (digitalPersonMemoryManager (data s) = None).
Proof.
  destruct s as [d m br ap us tr].
  destruct d as [sid pid pinfo sh eng binfo adsm pm mm dpm mi flag addl].
  destruct mm as [memory|];
    (destruct dpm as [personMemory|];
     [ destruct (saveOutcome w) as [[]|e] eqn:Hsave;
       [ destruct (cleanupMemoryOutcome w) as [[]|e] eqn:Hclean | ]
     | ]);
    run_phase; close_phase.
Qed.

(** Phase 4 removes the browser registered under the profile id, with a
    stop and a delete request when there is one, and drops the browser
    information. *)
Lemma phase4_effect (s : CState) :
  phaseEffect (phase4CleanupAdsPower w) s
    (withBrowserInfo None (data s))
    (browsersAfter s) (allocatedProxies s) (proxyUsageStats s)
    (callsCleanupBrowser (data s) = true ->
     activeBrowsers s !! default [] (profileId (data s)) = None).
Proof.
  destruct s as [d m br ap us tr].
  destruct d as [sid pid pinfo sh eng binfo adsm pm mm dpm mi flag addl].
  unfold browsersAfter, callsCleanupBrowser.
  destruct binfo as [info|];
    (destruct adsm as [ads|];
     [ destruct pid as [[|c pid]|];
       [ | destruct (br !! (c :: pid)) as [profile|] eqn:Hbrowser;
           [ destruct (stopOutcome w) as [[]|e] eqn:Hstop;
             destruct (deleteOutcome w) as [[]|e'] eqn:Hdelete | ] | ]
     | ]);
    run_phase; rewrite ?(delete_id br) by assumption; close_phase.
  all: cbn in *; congruence.
Qed.

(** Phase 5 removes the proxy allocated to the session and drops the proxy
    information; it makes no outside call. *)
Lemma phase5_effect (s : CState) :
  phaseEffect (phase5CleanupProxy w) s
    (withProxyInfo None (data s))
    (activeBrowsers s) (proxiesAfter s) (usageAfter s) True.
Proof.
  destruct s as [d m br ap us tr].
  destruct d as [sid pid pinfo sh eng binfo adsm pm mm dpm mi flag addl].
  unfold proxiesAfter, usageAfter, callsReleaseProxy.
  destruct pinfo as [info|];
    (destruct pm as [proxies|];
     [ destruct sid as [|c sid];
       [ | destruct (ap !! (c :: sid)) as [proxy|] eqn:Hproxy ]
     | ]);
    run_phase; rewrite ?(delete_id ap) by assumption; close_phase.
Qed.

(** Phase 6 clears the timer and the auxiliary registry and sets the stop
    flag. *)
Lemma phase6_effect (s : CState) :
  phaseEffect (phase6CleanupThreads w) s
    (withStopFlag (Some true) (withAdditional None (withInterval None (data s))))
    (activeBrowsers s) (allocatedProxies s) (proxyUsageStats s)
    (monitorInterval (data s) = None /\ additionalResources (data s) = None).
Proof.
  destruct s as [d m br ap us tr].
  destruct d as [sid pid pinfo sh eng binfo adsm pm mm dpm mi flag addl].
  destruct mi as [timer|]; destruct addl as [resources|];
    run_phase; close_phase.
Qed.

End Phases.

Section WholeCleanup.
Import JS Cleanup CleanupEffect.
Variable w : World.

Lemma bind_ok {A B : Type} (m : M A) (k : A -> M B) (s : CState) (a : A) :
  (m s).2 = Ok a -> (m ≫= k) s = k a (m s).1.
Proof.
  unfold mbind, M_bind. destruct (m s) as [s' r]. simpl. now intros ->.
Qed.

Lemma tryCatchM_ok {A : Type} (body : M A) (handler : jsstring -> M A)
  (s : CState) (a : A) :
  (body s).2 = Ok a -> tryCatchM body handler s = body s.
Proof.
  unfold tryCatchM. destruct (body s) as [s' r]. simpl. now intros ->.
Qed.

(** The six phases always run to the end: the cleanup returns the report
    built after the last phase, with [success: true]. *)
Lemma cleanup_runs_all_phases (reason : jsstring) (s : CState) :
  executeComprehensiveCleanup w reason s = report true w [] (afterPhases w s).
Proof.
  unfold executeComprehensiveCleanup, afterPhases.
  rewrite (bind_ok _ _ s tt) by reflexivity.
  set (s0 := (setManager _ s).1).
  pose proof (phase1_effect w s0) as (H1 & _).
  set (s1 := (phase1StopMonitoring w s0).1) in *.
  pose proof (phase2_effect w s1) as (H2 & _).
  set (s2 := (phase2CleanupStagehand w s1).1) in *.
  pose proof (phase3_effect w s2) as (H3 & _).
  set (s3 := (phase3CleanupMemory w s2).1) in *.
  pose proof (phase4_effect w s3) as (H4 & _).
  set (s4 := (phase4CleanupAdsPower w s3).1) in *.
  pose proof (phase5_effect w s4) as (H5 & _).
  set (s5 := (phase5CleanupProxy w s4).1) in *.
  pose proof (phase6_effect w s5) as (H6 & _).
  set (s6 := (phase6CleanupThreads w s5).1) in *.
  assert (Hbody :
    (_ ← phase1StopMonitoring w; _ ← phase2CleanupStagehand w;
     _ ← phase3CleanupMemory w; _ ← phase4CleanupAdsPower w;
     _ ← phase5CleanupProxy w; _ ← phase6CleanupThreads w;
     _ ← setPhase COMPLETED; report true w []) s0
    = report true w [] (setPhase COMPLETED s6).1).
  { rewrite (bind_ok _ _ s0 tt H1). fold s1.
    rewrite (bind_ok _ _ s1 tt H2). fold s2.
    rewrite (bind_ok _ _ s2 tt H3). fold s3.
    rewrite (bind_ok _ _ s3 tt H4). fold s4.
    rewrite (bind_ok _ _ s4 tt H5). fold s5.
    rewrite (bind_ok _ _ s5 tt H6). fold s6.
    rewrite (bind_ok _ _ s6 tt) by reflexivity. reflexivity. }
  unfold tryCatchM at 1. rewrite Hbody. reflexivity.
Qed.

(** What the six phases leave, in terms of the state they started from. *)
Lemma afterPhases_effect (s : CState) :
  data (afterPhases w s) = releaseAll (data s)
  /\ activeBrowsers (afterPhases w s) = browsersAfter s
  /\ allocatedProxies (afterPhases w s) = proxiesAfter s
  /\ proxyUsageStats (afterPhases w s) = usageAfter s
  /\ exists events, trace (afterPhases w s) = trace s ++ events
                    /\ (cleaned s -> events = []).
Proof.
  unfold afterPhases.
  set (s0 := (setManager _ s).1).
  pose proof (phase1_effect w s0) as (_ & D1 & B1 & P1 & U1 & e1 & T1 & Q1).
  set (s1 := (phase1StopMonitoring w s0).1) in *.
  pose proof (phase2_effect w s1) as (_ & D2 & B2 & P2 & U2 & e2 & T2 & Q2).
  set (s2 := (phase2CleanupStagehand w s1).1) in *.
  pose proof (phase3_effect w s2) as (_ & D3 & B3 & P3 & U3 & e3 & T3 & Q3).
  set (s3 := (phase3CleanupMemory w s2).1) in *.
  pose proof (phase4_effect w s3) as (_ & D4 & B4 & P4 & U4 & e4 & T4 & Q4).
  set (s4 := (phase4CleanupAdsPower w s3).1) in *.
  pose proof (phase5_effect w s4) as (_ & D5 & B5 & P5 & U5 & e5 & T5 & Q5).
  set (s5 := (phase5CleanupProxy w s4).1) in *.
  pose proof (phase6_effect w s5) as (_ & D6 & B6 & P6 & U6 & e6 & T6 & Q6).
  set (s6 := (phase6CleanupThreads w s5).1) in *.
  change (data (setPhase COMPLETED s6).1) with (data s6).
  change (activeBrowsers (setPhase COMPLETED s6).1) with (activeBrowsers s6).
  change (allocatedProxies (setPhase COMPLETED s6).1) with (allocatedProxies s6).
  change (proxyUsageStats (setPhase COMPLETED s6).1) with (proxyUsageStats s6).
  change (trace (setPhase COMPLETED s6).1) with (trace s6).
  assert (D0 : data s0 = data s) by reflexivity.
  assert (B0 : activeBrowsers s0 = activeBrowsers s) by reflexivity.
  assert (P0 : allocatedProxies s0 = allocatedProxies s) by reflexivity.
  assert (U0 : proxyUsageStats s0 = proxyUsageStats s) by reflexivity.
  assert (T0 : trace s0 = trace s) by reflexivity.
  clearbody s0 s1 s2 s3 s4 s5 s6.
  destruct s as [d m br ap us tr]. cbn [data activeBrowsers allocatedProxies
    proxyUsageStats trace] in *.
  rewrite D0 in D1. rewrite D1 in D2. rewrite D2 in D3. rewrite D3 in D4.
  rewrite D4 in D5. rewrite D5 in D6.
  unfold browsersAfter in *. unfold proxiesAfter, usageAfter in *.
  cbn [data activeBrowsers allocatedProxies proxyUsageStats trace] in *.
  rewrite D3 in B4, Q4. rewrite D4 in P5, U5.
  rewrite B6, B5, B4, B3, B2, B1, B0.
  rewrite P6, P5, P4, P3, P2, P1, P0.
  rewrite U6, U5, U4, U3, U2, U1, U0, P4, P3, P2, P1, P0.
  rewrite T6, T5, T4, T3, T2, T1, T0.
  rewrite D0 in Q1. rewrite D1 in Q2. rewrite D2 in Q3. rewrite D5 in Q6.
  rewrite B3, B2, B1, B0 in Q4.
  destruct d as [sid pid pinfo sh eng binfo adsm pm mm dpm mi flag addl].
  unfold afterPhase1, callsCleanupBrowser, callsReleaseProxy in *.
  assert (Hdata : D6 = D6) by reflexivity. clear Hdata.
  split; [rewrite D6; destruct mi; reflexivity|].
  split; [destruct mi; reflexivity|].
  split; [destruct mi; reflexivity|].
  split; [destruct mi; reflexivity|].
  exists (e1 ++ e2 ++ e3 ++ e4 ++ e5 ++ e6).
  split; [now rewrite <- !app_assoc|].
  intros ((Hsh & Heng & Hmm & Hdpm & Hbinfo & Hpinfo & Hmi & Haddl & Hflag)
          & Hbrowsers & Hproxies).
  cbn in Hsh, Heng, Hmm, Hdpm, Hbinfo, Hpinfo, Hmi, Haddl, Hflag.
  subst. cbn in *.
  rewrite Q1, Q2, Q3, Q4, Q5, Q6 by auto. reflexivity.
Qed.

Lemma cleaned_afterPhases (s : CState) : cleaned (afterPhases w s).
Proof.
  destruct (afterPhases_effect s) as (D & B & P & _ & _).
  unfold cleaned. rewrite D, B, P.
  unfold browsersAfter, proxiesAfter, callsCleanupBrowser, callsReleaseProxy.
  destruct s as [d m br ap us tr].
  destruct d as [sid pid pinfo sh eng binfo adsm pm mm dpm mi flag addl].
  cbn. split; [repeat split|]. split; intros H; rewrite H; apply lookup_delete_eq.
Qed.

End WholeCleanup.

Section CleanupTheorems.
Import JS Cleanup CleanupEffect.

Lemma cleaned_freshTrace (s : CState) : cleaned s -> cleaned (freshTrace s).
Proof. intros H. exact H. Qed.

Lemma releaseAll_idempotent (d : SessionResourceData) :
  released d -> releaseAll d = d.
Proof.
  destruct d as [sid pid pinfo sh eng binfo adsm pm mm dpm mi flag addl].
  unfold released. cbn. intros (-> & -> & -> & -> & -> & -> & -> & -> & ->).
  reflexivity.
Qed.

(** A cleanup of a state with nothing left to do changes neither the
    session data nor the registries and makes no outside call. *)
Lemma cleanup_of_cleaned (w : World) (reason : jsstring) (s : CState) :
  cleaned s ->
  data (cleanup w reason s).1 = data s
  /\ activeBrowsers (cleanup w reason s).1 = activeBrowsers s
  /\ allocatedProxies (cleanup w reason s).1 = allocatedProxies s
  /\ proxyUsageStats (cleanup w reason s).1 = proxyUsageStats s
  /\ trace (cleanup w reason s).1 = [].
Proof.
  intros Hclean. unfold cleanup. rewrite cleanup_runs_all_phases.
  change (report true w [] ?x).1 with x.
  destruct (afterPhases_effect w (freshTrace s)) as (D & B & P & U & events & T & Q).
  rewrite D, B, P, U, T, (Q (cleaned_freshTrace s Hclean)).
  destruct Hclean as (Hreleased & Hbrowsers & Hproxies).
  unfold browsersAfter, proxiesAfter, usageAfter.
  change (data (freshTrace s)) with (data s).
  change (activeBrowsers (freshTrace s)) with (activeBrowsers s).
  change (allocatedProxies (freshTrace s)) with (allocatedProxies s).
  change (proxyUsageStats (freshTrace s)) with (proxyUsageStats s).
  split; [now apply releaseAll_idempotent|].
  split; [|split; [|split; [|reflexivity]]].
  - destruct (callsCleanupBrowser (data s)); [|reflexivity].
    apply delete_id. now apply Hbrowsers.
  - destruct (callsReleaseProxy (data s)); [|reflexivity].
    apply delete_id. now apply Hproxies.
  - destruct (callsReleaseProxy (data s)); [|reflexivity].
    now rewrite Hproxies.
Qed.

(** C4: the cleanup never throws: on every session resource set, whatever
    the outside calls do, it returns a report, and the report says
    [success: true].  It is idempotent: a second call on the set the first
    call left returns [success: true] with no error, makes no outside call
    (no timer operation, no call to the engine, the automation context or
    the memory managers, no stop or delete request), and leaves the session
    data and the registries of the browser and proxy managers as they
    were. *)
Theorem cleanup_never_throws_and_is_idempotent (w1 w2 : World)
  (reason1 reason2 : jsstring) (s : CState) :
  let first := cleanup w1 reason1 s in
  let second := cleanup w2 reason2 first.1 in
  (exists r1, first.2 = Ok r1 /\ success r1 = true)
  /\ (exists r2, second.2 = Ok r2 /\ success r2 = true /\ errors r2 = [])
  /\ trace second.1 = []
  /\ data second.1 = data first.1
  /\ activeBrowsers second.1 = activeBrowsers first.1
  /\ allocatedProxies second.1 = allocatedProxies first.1
  /\ proxyUsageStats second.1 = proxyUsageStats first.1.
Proof.
  intros first second.
  assert (Hclean : cleaned first.1).
  { unfold first, cleanup. rewrite cleanup_runs_all_phases.
    apply cleaned_afterPhases. }
  destruct (cleanup_of_cleaned w2 reason2 first.1 Hclean) as (D & B & P & U & T).
  fold second in D, B, P, U, T.
  split; [|split].
  - unfold first, cleanup. rewrite cleanup_runs_all_phases.
    eexists. split; reflexivity.
  - unfold second, cleanup. rewrite cleanup_runs_all_phases.
    eexists. repeat split; reflexivity.
  - auto.
Qed.

End CleanupTheorems.

(* ===================================================================== *)
(** * The window monitor *)
(* ===================================================================== *)

Section Polling.
Import JS Monitor.
Variable config : MonitoringConfig.

(** A poll that finds the window active only counts the check and resets
    the error counter. *)
Lemma poll_active (w : PollWorld) (s : Sys) :
  monitoringState s -> answersActive w ->
  performWindowCheck config w s
  = updateSession (withErrorCount 0) (updateSession (withCheck (pollClock w)) s).
Proof.
  intros [Hflag Hdata] Hactive. unfold performWindowCheck.
  rewrite Hflag, Hdata. unfold answersActive in Hactive. rewrite Hactive.
  reflexivity.
Qed.

(** A failed poll below the retry limit only counts the check and the
    error. *)
Lemma poll_failure_below (w : PollWorld) (s : Sys) :
  monitoringState s -> checkFails w ->
  errorCount (session s) + 1 < maxRetries config ->
  performWindowCheck config w s
  = updateSession (fun m => withErrorCount (errorCount m + 1) m)
      (updateSession (withCheck (pollClock w)) s).
Proof.
  intros [Hflag Hdata] [message Hfail] Hbelow. unfold performWindowCheck.
  rewrite Hflag, Hdata, Hfail. cbn [orb].
  cbn [updateSession session withCheck withErrorCount errorCount].
  replace (maxRetries config <=? errorCount (session s) + 1) with false
    by (symmetry; apply Nat.leb_gt; lia).
  reflexivity.
Qed.

(** A failed poll that reaches the retry limit marks the window closed
    and, with automatic cleanup, handles the closing. *)
Lemma poll_failure_reaching (w : PollWorld) (s : Sys) :
  monitoringState s -> checkFails w ->
  maxRetries config <= errorCount (session s) + 1 ->
  enableAutoCleanup config = true ->
  performWindowCheck config w s
  = handleWindowClosed w
      (setStatus WINDOW_CLOSED
         (updateSession (fun m => withErrorCount (errorCount m + 1) m)
            (updateSession (withCheck (pollClock w)) s))).
Proof.
  intros [Hflag Hdata] [message Hfail] Hreach Hauto. unfold performWindowCheck.
  rewrite Hflag, Hdata, Hfail, Hauto. cbn [orb].
  cbn [updateSession session withCheck withErrorCount errorCount].
  replace (maxRetries config <=? errorCount (session s) + 1) with true
    by (symmetry; apply Nat.leb_le; lia).
  reflexivity.
Qed.

(** Once the stop flag of the session data is set and the session is no
    longer registered, a poll does nothing. *)
Lemma poll_after_cleanup (w : PollWorld) (s : Sys) :
  truthyFlag (Cleanup.monitorStopFlag (Cleanup.data (resources s))) = true ->
  sessionId (session s) ∉ activeSessions s ->
  performWindowCheck config w s = s.
Proof.
  intros Hflag Hgone. unfold performWindowCheck, stopMonitoring.
  rewrite Hflag, orb_true_r.
  now rewrite bool_decide_eq_false_2.
Qed.

Lemma polls_after_cleanup (ws : list PollWorld) (s : Sys) :
  truthyFlag (Cleanup.monitorStopFlag (Cleanup.data (resources s))) = true ->
  sessionId (session s) ∉ activeSessions s ->
  polls config ws s = s.
Proof.
  intros Hflag Hgone. unfold polls.
  induction ws as [|w ws IH]; simpl; [reflexivity|].
  now rewrite poll_after_cleanup.
Qed.

End Polling.

Section WindowClosed.
Import JS Monitor.

Lemma stopMonitoringTimer_frame (s : Sys) :
  let s' := stopMonitoringTimer s in
  session s' = withTimer None (session s)
  /\ activeSessions s' = activeSessions s
  /\ statusLog s' = statusLog s
  /\ cleanupCalls s' = cleanupCalls s.
Proof.
  unfold stopMonitoringTimer.
  destruct s as [[id pid st t0 t1 n e timer flag] r active log calls].
  destruct timer as [timer|]; cbn;
    destruct (Cleanup.monitorInterval _); cbn; repeat split.
Qed.

(** Handling a closed window calls the cleanup once, logs the two status
    changes, removes the session from the active sessions and leaves the
    stop flag of the session data set. *)
Lemma handleWindowClosed_effect (w : PollWorld) (s : Sys) :
  let s' := handleWindowClosed w s in
  cleanupCalls s' = cleanupCalls s + 1
  /\ statusLog s' = statusLog s ++ [CLEANUP_IN_PROGRESS; CLEANUP_COMPLETED]
  /\ status (session s') = CLEANUP_COMPLETED
  /\ sessionId (session s') = sessionId (session s)
  /\ (sessionId (session s) ∉ activeSessions s')
  /\ monitorInterval (session s') = None
  /\ Cleanup.released (Cleanup.data (resources s')).
Proof.
  unfold handleWindowClosed.
  pose proof (stopMonitoringTimer_frame (setStatus CLEANUP_IN_PROGRESS s))
    as (Hsession & Hactive & Hlog & Hcalls).
  set (s2 := stopMonitoringTimer (setStatus CLEANUP_IN_PROGRESS s)) in *.
  rewrite cleanup_runs_all_phases.
  destruct (afterPhases_effect (cleanupWorld w) (resources s2))
    as (D & _).
  cbn -[CleanupEffect.afterPhases]. rewrite Hcalls, Hlog, Hsession, Hactive, D.
  cbn. rewrite <- app_assoc. repeat split; try reflexivity.
  intros Hin. apply elem_of_difference in Hin as [_ Hnot].
  apply Hnot, elem_of_singleton. reflexivity.
Qed.

End WindowClosed.

Section Closing.
Import JS Monitor.
Variable config : MonitoringConfig.
Hypothesis retries : maxRetries config = 3.
Hypothesis automatic : enableAutoCleanup config = true.

Lemma counted_monitoring (s : Sys) (f : MonitoringSession -> MonitoringSession) :
  monitoringState s ->
  stopFlag (f (session s)) = stopFlag (session s) ->
  monitoringState (updateSession f s).
Proof.
  intros [Hflag Hdata] Hf. split; cbn; [now rewrite Hf|exact Hdata].
Qed.

(** Marking the window closed and handling it. *)
Lemma closing_closedOnce (s0 s : Sys) (k : nat) (w : PollWorld)
  (f : MonitoringSession -> MonitoringSession) :
  counting s0 k s ->
  sessionId (f (withCheck (pollClock w) (session s))) = sessionId (session s) ->
  closedOnce s0
    (handleWindowClosed w
       (setStatus WINDOW_CLOSED
          (updateSession f (updateSession (withCheck (pollClock w)) s)))).
Proof.
  intros (_ & _ & Hid & Hlog & Hcalls & _) Hf.
  set (marked := setStatus WINDOW_CLOSED
                   (updateSession f (updateSession (withCheck (pollClock w)) s))).
  pose proof (handleWindowClosed_effect w marked)
    as (Hcalls' & Hlog' & _ & Hid' & Hgone & _ & Hreleased).
  assert (Hmarked : sessionId (session marked) = sessionId (session s0)).
  { unfold marked. cbn [setStatus session sessionId updateSession].
    cbn [setStatus session sessionId updateSession] in Hf. now rewrite Hf. }
  rewrite Hmarked in Hid', Hgone.
  split; [|split; [assumption|split; [assumption|split]]].
  - destruct Hreleased as (_ & _ & _ & _ & _ & _ & _ & _ & ->). reflexivity.
  - rewrite Hlog'. unfold marked. cbn [statusLog setStatus updateSession].
    rewrite Hlog, <- app_assoc. reflexivity.
  - rewrite Hcalls'. unfold marked. cbn [cleanupCalls setStatus updateSession].
    now rewrite Hcalls.
Qed.

(** One poll that does not find the window active, on a session with
    fewer than three errors in a row: either one more error is counted, or
    the window is closed. *)
Lemma poll_not_active (s0 s : Sys) (k : nat) (w : PollWorld) :
  counting s0 k s -> k < 3 -> ~ answersActive w ->
  (k + 1 < 3 /\ counting s0 (k + 1) (performWindowCheck config w s))
  \/ closedOnce s0 (performWindowCheck config w s).
Proof.
  intros Hcount Hk Hnot.
  pose proof Hcount as (Hmon & Herr & Hid & Hlog & Hcalls & Hactive).
  unfold answersActive in Hnot.
  destruct (checkAdsPowerWindowStatus (fetchOutcome w)) as [[|]|message] eqn:Hcheck.
  - (* the check says closed *)
    right. destruct Hmon as [Hflag Hdata]. unfold performWindowCheck.
    rewrite Hflag, Hdata, Hcheck, automatic. cbn [orb].
    apply (closing_closedOnce s0 s k w (fun m => m) Hcount). reflexivity.
  - congruence.
  - (* the check throws *)
    assert (Hfail : checkFails w) by (now exists message).
    destruct (decide (k + 1 < 3)) as [Hbelow|Hreach].
    + left. split; [assumption|].
      rewrite poll_failure_below by (try assumption; rewrite Herr, retries; lia).
      split; [|repeat split; try assumption].
      * apply counted_monitoring; [|reflexivity]. now apply counted_monitoring.
      * cbn. now rewrite Herr.
    + right.
      rewrite poll_failure_reaching
        by (try assumption; rewrite Herr, retries; lia).
      apply (closing_closedOnce s0 s k w
               (fun m => withErrorCount (errorCount m + 1) m) Hcount).
      reflexivity.
Qed.

Lemma polls_closedOnce (s0 s : Sys) (ws : list PollWorld) :
  closedOnce s0 s -> polls config ws s = s.
Proof.
  intros (Hflag & Hid & Hgone & _). apply polls_after_cleanup; [assumption|].
  now rewrite Hid.
Qed.

(** Three polls in a row that do not find the window active close it. *)
Lemma three_polls_close (s0 s : Sys) (w1 w2 w3 : PollWorld) :
  counting s0 0 s ->
  ~ answersActive w1 -> ~ answersActive w2 -> ~ answersActive w3 ->
  closedOnce s0 (polls config [w1; w2; w3] s).
Proof.
  intros Hcount H1 H2 H3. unfold polls. cbn [fold_left].
  destruct (poll_not_active s0 s 0 w1 Hcount) as [[_ Hc1]|Hclosed];
    [lia|assumption| |].
  - destruct (poll_not_active s0 _ 1 w2 Hc1) as [[_ Hc2]|Hclosed];
      [lia|assumption| |].
    + destruct (poll_not_active s0 _ 2 w3 Hc2) as [[Habs _]|Hclosed];
        [lia|assumption|lia|assumption].
    + change (closedOnce s0 (polls config [w3] (performWindowCheck config w2
                (performWindowCheck config w1 s)))).
      now rewrite (polls_closedOnce s0).
  - change (closedOnce s0 (polls config [w2; w3] (performWindowCheck config w1 s))).
    now rewrite (polls_closedOnce s0).
Qed.

End Closing.

Section MonitorTheorems.
Import JS Monitor.

(** C5: in the per-poll step, a check that finds the window active resets
    the error counter to zero and keeps the session monitored.  With
    [maxRetries = 3] and automatic cleanup, three polls in a row after it
    that do not find the window active (the request fails, or the answer
    says the window is gone) take the session through WINDOW_CLOSED,
    CLEANUP_IN_PROGRESS and CLEANUP_COMPLETED: the cleanup is called once,
    the session is removed from the active sessions, and whatever polls
    follow call no further cleanup, change no status and do not bring the
    session back.  When the three polls are failed checks (the check
    throws), the window is closed by the third and not before. *)
Theorem three_failed_checks_one_cleanup (config : MonitoringConfig) (s : Sys)
  (active : PollWorld) (failures later : list PollWorld) :
  maxRetries config = 3 ->
  enableAutoCleanup config = true ->
  monitoringState s ->
  answersActive active ->
  Forall (fun w => ~ answersActive w) failures ->
  length failures = 3 ->
  let reset := performWindowCheck config active s in
  let closed := polls config failures reset in
  let final := polls config later closed in
  errorCount (session reset) = 0
  /\ monitoringState reset
  /\ statusLog reset = statusLog s
  /\ cleanupCalls reset = cleanupCalls s
  /\ statusLog closed
     = statusLog s ++ [WINDOW_CLOSED; CLEANUP_IN_PROGRESS; CLEANUP_COMPLETED]
  /\ cleanupCalls closed = cleanupCalls s + 1
  /\ (sessionId (session s) ∉ activeSessions closed)
  /\ final = closed
  /\ (Forall checkFails failures ->
      cleanupCalls (polls config (take 2 failures) reset) = cleanupCalls s
      /\ statusLog (polls config (take 2 failures) reset) = statusLog s).
Proof.
  intros Hretries Hauto Hmon Hactive Hfail Hlen reset closed final.
  destruct failures as [|f1 [|f2 [|f3 [|f4 rest]]]]; try discriminate.
  apply Forall_cons in Hfail as [Hf1 Hfail].
  apply Forall_cons in Hfail as [Hf2 Hfail].
  apply Forall_cons in Hfail as [Hf3 _].
  assert (Hreset : reset
                   = updateSession (withErrorCount 0)
                       (updateSession (withCheck (pollClock active)) s))
    by (now apply poll_active).
  assert (Hcount : counting s 0 reset).
  { rewrite Hreset. split; [|repeat split].
    apply counted_monitoring; [|reflexivity]. now apply counted_monitoring. }
  pose proof (three_polls_close config Hretries Hauto s reset f1 f2 f3
                Hcount Hf1 Hf2 Hf3) as Hclosed.
  fold closed in Hclosed.
  pose proof Hclosed as (Hflag & Hid & Hgone & Hlog & Hcalls).
  split; [now rewrite Hreset|]. split; [apply Hcount|].
  split; [apply Hcount|]. split; [apply Hcount|].
  split; [assumption|]. split; [assumption|]. split; [assumption|].
  split; [apply (polls_closedOnce config s closed later Hclosed)|].
  intros Hthrow.
  apply Forall_cons in Hthrow as [Ht1 Hthrow].
  apply Forall_cons in Hthrow as [Ht2 _].
  cbn [take polls fold_left].
  pose proof Hcount as (Hmon0 & Herr0 & _).
  rewrite (poll_failure_below config f1 reset Hmon0 Ht1)
    by (rewrite Herr0, Hretries; lia).
  set (counted := updateSession (fun m => withErrorCount (errorCount m + 1) m)
                    (updateSession (withCheck (pollClock f1)) reset)).
  assert (Hmon1 : monitoringState counted).
  { apply counted_monitoring; [|reflexivity]. now apply counted_monitoring. }
  assert (Herr1 : errorCount (session counted) + 1 < maxRetries config).
  { unfold counted. cbn. rewrite Herr0, Hretries. lia. }
  rewrite (poll_failure_below config f2 counted Hmon1 Ht2 Herr1).
  split; [apply Hcount|apply Hcount].
Qed.

(** The statement at a monitored session with a browser profile and a
    proxy: one "Active" answer, two timeouts and a server error, then two
    more polls. *)
Lemma three_failed_checks_one_cleanup_witness :
  let reset := performWindowCheck defaultConfig Inputs.activePoll Inputs.monitored in
  let closed :=
    polls defaultConfig
      [Inputs.timeoutPoll; Inputs.timeoutPoll; Inputs.serverErrorPoll] reset in
  let final := polls defaultConfig [Inputs.activePoll; Inputs.timeoutPoll] closed in
  cleanupCalls closed = cleanupCalls Inputs.monitored + 1
  /\ (sessionId (session Inputs.monitored) ∉ activeSessions closed)
  /\ final = closed.
Proof.
  intros reset closed final.
  assert (H1 : maxRetries defaultConfig = 3) by reflexivity.
  assert (H2 : enableAutoCleanup defaultConfig = true) by reflexivity.
  assert (H3 : monitoringState Inputs.monitored) by (split; reflexivity).
  assert (H4 : answersActive Inputs.activePoll) by reflexivity.
  assert (H5 : Forall (fun w => ~ answersActive w)
                 [Inputs.timeoutPoll; Inputs.timeoutPoll; Inputs.serverErrorPoll])
    by (repeat constructor; discriminate).
  assert (H6 : length [Inputs.timeoutPoll; Inputs.timeoutPoll;
                       Inputs.serverErrorPoll] = 3) by reflexivity.
  pose proof (three_failed_checks_one_cleanup defaultConfig Inputs.monitored
                Inputs.activePoll
                [Inputs.timeoutPoll; Inputs.timeoutPoll; Inputs.serverErrorPoll]
                [Inputs.activePoll; Inputs.timeoutPoll] H1 H2 H3 H4 H5 H6) as H.
  destruct H as (_ & _ & _ & _ & _ & Hcalls & Hgone & Hfinal & _).
  split; [exact Hcalls|]. split; [exact Hgone|exact Hfinal].
Defined.

End MonitorTheorems.

(* ===================================================================== *)
(** * Identifiers and normal forms of the answer memory *)
(* ===================================================================== *)

Section Digests.
Import JS Md5.

Lemma leBytes_length (n : nat) : forall v, length (leBytes n v) = n.
Proof. induction n as [|n IH]; intros v; simpl; [reflexivity|now rewrite IH]. Qed.

Lemma leBytes_bytes (n : nat) : forall v, Forall (fun b => (b < 256)%N) (leBytes n v).
Proof.
  induction n as [|n IH]; intros v; simpl; constructor; [|apply IH].
  apply N.mod_lt. discriminate.
Qed.

Lemma digest_length (msg : list N) : length (digest msg) = 16.
Proof. unfold digest. cbv zeta. rewrite !length_app, !leBytes_length. reflexivity. Qed.

Lemma digest_bytes (msg : list N) : Forall (fun b => (b < 256)%N) (digest msg).
Proof. unfold digest. cbv zeta. rewrite !Forall_app. repeat split; apply leBytes_bytes. Qed.

Lemma hexDigit_hex (v : N) : (v < 16)%N -> isHexDigit (hexDigit v).
Proof.
  intros Hv. unfold hexDigit, isHexDigit.
  destruct (N.ltb_spec v 10); [left|right]; lia.
Qed.

Lemma hexOfBytes_length (bs : list N) : length (hexOfBytes bs) = 2 * length bs.
Proof. unfold hexOfBytes. induction bs as [|b bs IH]; simpl; [reflexivity|]. rewrite IH. lia. Qed.

Lemma hexOfBytes_hex (bs : list N) :
  Forall (fun b => (b < 256)%N) bs -> Forall isHexDigit (hexOfBytes bs).
Proof.
  induction 1 as [|b bs Hb _ IH]; simpl; [constructor|].
  constructor; [|constructor; [|exact IH]]; apply hexDigit_hex.
  - apply N.Div0.div_lt_upper_bound. lia.
  - apply N.mod_lt. discriminate.
Qed.

Lemma md5hex_length (s : jsstring) : length (md5hex s) = 32.
Proof. unfold md5hex. now rewrite hexOfBytes_length, digest_length. Qed.

Lemma md5hex_hex (s : jsstring) : Forall isHexDigit (md5hex s).
Proof. unfold md5hex. apply hexOfBytes_hex, digest_bytes. Qed.

Lemma prefix_of_digest (n : nat) (s : jsstring) :
  n <= 32 ->
  length (substring0 n (md5hex s)) = n
  /\ Forall isHexDigit (substring0 n (md5hex s)).
Proof.
  intros Hn. unfold substring0. split.
  - rewrite length_take, md5hex_length. lia.
  - apply Forall_take, md5hex_hex.
Qed.

End Digests.

Section Identifiers.
Import JS Memory.

(** X1: every identifier the memory derives is a string of lower-case
    hexadecimal digits of a fixed length: sixteen for the fingerprint of a
    question, twelve for a questionnaire and ten for a digital person,
    whatever the texts they are derived from. *)
Theorem identifiers_are_hexadecimal (text pageUrl url : jsstring)
  (person : Engine.DigitalPersonProfile) :
  (length (generateQuestionId text pageUrl) = 16
   /\ Forall isHexDigit (generateQuestionId text pageUrl))
  /\ (length (generateQuestionnaireId url) = 12
      /\ Forall isHexDigit (generateQuestionnaireId url))
  /\ (length (Engine.generateDigitalPersonId person) = 10
      /\ Forall isHexDigit (Engine.generateDigitalPersonId person)).
Proof.
  unfold generateQuestionId, generateQuestionnaireId, Engine.generateDigitalPersonId.
  cbv zeta.
  split; [|split]; apply prefix_of_digest; lia.
Qed.

End Identifiers.

Section NormalForm.
Import JS Memory.


Lemma trimStart_Forall (P : N -> Prop) (s : jsstring) :
  Forall P s -> Forall P (trimStart s).
Proof.
  induction 1 as [|c s Hc Hs IH]; simpl; [constructor|].
  destruct (isSpace c); [exact IH|now constructor].
Qed.

Lemma trim_Forall (P : N -> Prop) (s : jsstring) : Forall P s -> Forall P (trim s).
Proof.
  intros Hs. unfold trim, trimEnd.
  apply Forall_rev, trimStart_Forall, Forall_rev, trimStart_Forall, Hs.
Qed.





Lemma replaceSpaceRuns_symbols (text : jsstring) :
  forallb isSymbol text = true -> replaceSpaceRuns text = text.
Proof.
  induction text as [|c text IH]; simpl; [reflexivity|].
  intros H. apply andb_true_iff in H as [Hc Htext].
  unfold isSymbol in Hc. apply andb_true_iff in Hc as [_ Hspace].
  apply negb_true_iff in Hspace. rewrite Hspace. now rewrite IH.
Qed.

Lemma normalize_symbols (text : jsstring) :
  forallb isSymbol text = true -> normalizeQuestionText text = [].
Proof.
  intros Hsym. unfold normalizeQuestionText. cbv zeta.
  rewrite (replaceSpaceRuns_symbols text Hsym).
  assert (Hall : Forall (fun c => isSymbol c = true) (trim text)).
  { apply trim_Forall. apply Forall_forall. intros c Hc.
    rewrite forallb_forall in Hsym. apply Hsym. now apply list_elem_of_In. }
  assert (Hstrip : stripNonWord (trim text) = []).
  { unfold stripNonWord. induction Hall as [|c s Hc _ IH]; simpl; [reflexivity|].
    unfold isSymbol in Hc. apply andb_true_iff in Hc as [Hw Hs].
    apply negb_true_iff in Hw, Hs. rewrite Hw, Hs. exact IH. }
  rewrite Hstrip. reflexivity.
Qed.

(** X3: a question text without any [\w] character and without white
    space (a question written in Chinese characters, say) is normalised to
    the empty string.  All such questions of one page therefore have the
    same fingerprint: recording a second one adds no question, changes no
    counter, and replaces the record of the first. *)
Theorem symbol_only_questions_share_a_fingerprint (mem : QuestionnaireMemory)
  (c1 c2 : RecordCall) :
  forallb isSymbol (callText c1) = true ->
  forallb isSymbol (callText c2) = true ->
  callPageUrl c1 = callPageUrl c2 ->
  let mem1 := (recordQuestionAnswer mem c1).2 in
  let mem2 := (recordQuestionAnswer mem1 c2).2 in
  normalizeQuestionText (callText c1) = []
  /\ callQuestionId c1 = callQuestionId c2
  /\ objectKeys (questions mem2) = objectKeys (questions mem1)
  /\ questionOrder mem2 = questionOrder mem1
  /\ totalQuestions mem2 = totalQuestions mem1
  /\ completedQuestions mem2 = completedQuestions mem1
  /\ getKey (callQuestionId c1) (questions mem2) = Some (callRecord c2).
Proof.
  intros H1 H2 Hurl mem1 mem2.
  assert (Hid : callQuestionId c1 = callQuestionId c2).
  { unfold callQuestionId. rewrite Hurl. apply fingerprint_of_normal_form.
    now rewrite !normalize_symbols. }
  assert (Hstored : hasKey (callQuestionId c2) (questions mem1) = true).
  { rewrite <- Hid. apply hasKey_elem. subst mem1. unfold recordQuestionAnswer.
    destruct (hasKey (callQuestionId c1) (questions mem)) eqn:Hhas;
      cbn [negb snd questions].
    - rewrite objectKeys_setKey_old by assumption. now apply hasKey_elem.
    - rewrite objectKeys_setKey_new by assumption. apply elem_of_app. right.
      apply list_elem_of_here. }
  split; [now apply normalize_symbols|]. split; [exact Hid|].
  subst mem2. unfold recordQuestionAnswer at 1 2 3 4 5. rewrite Hstored.
  cbn [negb snd questions questionOrder totalQuestions completedQuestions].
  split; [now apply objectKeys_setKey_old|].
  repeat split.
  rewrite getKey_setKey, Hid. now rewrite bool_decide_eq_true_2.
Qed.

(** The statement of X3 for two questions of a page written in Chinese. *)
Lemma symbol_only_questions_share_a_fingerprint_witness :
  let c1 := {| callText := js "你喜欢喝咖啡吗？"; callType := js "single_choice";
               callOptions := []; callAnswer := js "a"; callAnswerText := js "a";
               callPageUrl := Inputs.surveyUrl; callAttempts := 1;
               callConfidence := 1%Q; callNow := 2000 |} in
  let c2 := {| callText := js "您的年龄是？"; callType := js "single_choice";
               callOptions := []; callAnswer := js "b"; callAnswerText := js "b";
               callPageUrl := Inputs.surveyUrl; callAttempts := 1;
               callConfidence := 1%Q; callNow := 3000 |} in
  callQuestionId c1 = callQuestionId c2
  /\ totalQuestions
       (recordQuestionAnswer (recordQuestionAnswer Inputs.cityMemory c1).2 c2).2
     = totalQuestions (recordQuestionAnswer Inputs.cityMemory c1).2.
Proof.
  intros c1 c2.
  assert (H1 : forallb isSymbol (callText c1) = true) by (vm_compute; reflexivity).
  assert (H2 : forallb isSymbol (callText c2) = true) by (vm_compute; reflexivity).
  assert (H3 : callPageUrl c1 = callPageUrl c2)
    by exact (eq_refl Inputs.surveyUrl).
  pose proof (symbol_only_questions_share_a_fingerprint Inputs.cityMemory c1 c2
                H1 H2 H3) as H.
  destruct H as (_ & Hid & _ & _ & Htotal & _).
  split; [exact Hid|exact Htotal].
Defined.

End NormalForm.

(* ===================================================================== *)
(** * Suggestions of the answer memory *)
(* ===================================================================== *)

Section KeywordFree.
Import JS Memory.






End KeywordFree.

Section Symmetry.
Import JS Memory.

Lemma levenshtein_sym (s t : jsstring) :
  forall i j, Claimed.levenshtein s t i j = Claimed.levenshtein t s j i.
Proof.
  induction i as [|i IHi]; intros j.
  - rewrite lev_zero, levenshtein_zero_r. reflexivity.
  - induction j as [|j IHj].
    + rewrite lev_succ_zero, lev_zero. reflexivity.
    + rewrite !lev_succ_succ.
      rewrite (IHi (S j)), (IHi j), IHj.
      rewrite (N.eqb_sym (nth j t 0%N) (nth i s 0%N)). lia.
Qed.

Lemma editDistance_sym (s t : jsstring) :
  Claimed.editDistance s t = Claimed.editDistance t s.
Proof. unfold Claimed.editDistance. apply levenshtein_sym. Qed.

Lemma textSim_sym (s t : jsstring) : Claimed.textSim s t = Claimed.textSim t s.
Proof.
  unfold Claimed.textSim. cbv zeta.
  now rewrite (Nat.max_comm (length s)), editDistance_sym.
Qed.

Lemma jaccard_sym (A B : gset jsstring) : Claimed.jaccard A B = Claimed.jaccard B A.
Proof.
  unfold Claimed.jaccard.
  now rewrite (comm_L (∪) A B), (comm_L (∩) A B).
Qed.

(** X5: the similarity of two questions does not depend on which of the
    two is the query and which the stored record. *)
Theorem similarity_is_symmetric (text1 : jsstring) (opts1 : list jsstring)
  (text2 : jsstring) (opts2 : list jsstring) :
  (calculateQuestionSimilarity (extractQuestionFeatures text1 opts1)
                               (extractQuestionFeatures text2 opts2)
   == calculateQuestionSimilarity (extractQuestionFeatures text2 opts2)
                                  (extractQuestionFeatures text1 opts1))%Q.
Proof.
  rewrite !similarity_is_score. unfold Claimed.score.
  rewrite (textSim_sym (normalizeQuestionText text1)).
  rewrite (jaccard_sym (Claimed.keywordSet text1)).
  rewrite (jaccard_sym (Claimed.optionSet opts1)).
  rewrite (Nat.eqb_sym (length opts1)). reflexivity.
Qed.

End Symmetry.

Section Summary.
Import JS Memory MemorySummary.

Lemma getKey_of_key {V : Type} (obj : list (jsstring * V)) (k : jsstring) :
  k ∈ objectKeys obj -> exists v, getKey k obj = Some v.
Proof.
  induction obj as [|[k' v'] obj IH]; intros Hin.
  - apply elem_of_nil in Hin. contradiction.
  - simpl. destruct (bool_decide (k' = k)) eqn:Hk; [now exists v'|].
    apply IH. apply bool_decide_eq_false in Hk.
    unfold objectKeys in Hin. simpl in Hin.
    apply elem_of_cons in Hin as [->|Hin]; [contradiction|exact Hin].
Qed.

Lemma getKey_unique {V : Type} (obj : list (jsstring * V)) (k : jsstring) (v : V) :
  NoDup (objectKeys obj) -> (k, v) ∈ obj -> getKey k obj = Some v.
Proof.
  induction obj as [|[k' v'] obj IH]; intros Hnd Hin.
  - apply elem_of_nil in Hin. contradiction.
  - unfold objectKeys in Hnd. simpl in Hnd. apply NoDup_cons in Hnd as [Hfresh Hnd].
    simpl. apply elem_of_cons in Hin as [Heq|Hin].
    + injection Heq as -> ->. now rewrite bool_decide_eq_true_2.
    + rewrite bool_decide_eq_false_2; [now apply IH|].
      intros ->. apply Hfresh.
      apply (list_elem_of_fmap_2 fst) in Hin. exact Hin.
Qed.

Lemma preview_length (text : jsstring) : length (preview text) <= 103.
Proof.
  unfold preview, substring0.
  destruct (100 <? length text) eqn:Hlen.
  - rewrite length_app, length_take.
    change (length (js "...")) with 3. lia.
  - apply Nat.ltb_ge in Hlen. lia.
Qed.

(** The entries of a summary, for identifiers that are all stored. *)
Lemma summarize_stored (mem : QuestionnaireMemory) (ids : list jsstring) :
  Forall (fun id => id ∈ objectKeys (questions mem)) ids ->
  forall start,
    map summaryQuestionId (imap (fun i => summarize mem (start + i)) ids) = ids
    /\ map position (imap (fun i => summarize mem (start + i)) ids)
       = seq (start + 1) (length ids)
    /\ Forall (fun s =>
                 length (questionPreview s) <= 103
                 /\ exists record,
                      getKey (summaryQuestionId s) (questions mem) = Some record
                      /\ questionPreview s = preview (questionText record)
                      /\ summaryAnswerText s = answerText record
                      /\ summaryAttempts s = attempts record
                      /\ summaryConfidence s = confidence record)
              (imap (fun i => summarize mem (start + i)) ids).
Proof.
  induction 1 as [|id ids Hid _ IH]; intros start.
  - repeat split. constructor.
  - destruct (getKey_of_key _ _ Hid) as [record Hrecord].
    specialize (IH (S start)) as (IH1 & IH2 & IH3).
    rewrite imap_cons. cbn [map length seq].
    assert (Hshift : imap ((fun i => summarize mem (start + i)) ∘ S) ids
                     = imap (fun i => summarize mem (S start + i)) ids).
    { apply imap_ext. intros i x _. cbn. f_equal. lia. }
    rewrite Hshift, IH1, IH2.
    assert (Hhead : summarize mem (start + 0) id
                    = {| position := start + 0 + 1;
                         summaryQuestionId := id;
                         questionPreview := preview (questionText record);
                         summaryAnswerText := answerText record;
                         summaryAttempts := attempts record;
                         summaryConfidence := confidence record |}).
    { unfold summarize. now rewrite Hrecord. }
    rewrite Hhead. cbn [summaryQuestionId position].
    split; [reflexivity|].
    split; [replace (start + 0 + 1) with (start + 1) by lia;
            replace (S start + 1) with (S (start + 1)) by lia; reflexivity|].
    constructor; [|exact IH3].
    split; [apply preview_length|]. exists record. cbn. auto.
Qed.

(** X6: the summary of a memory that was only written by recordings lists
    every recorded question once, in the order of first recording and
    numbered from 1; every entry shows the stored answer of its question
    and at most 103 code units of its text, and none is the placeholder
    for a missing record. *)
Theorem summary_lists_every_question (qid pid : jsstring) (start now later : N)
  (calls : list RecordCall) :
  let mem := recordAll (newMemory qid pid start) calls in
  let summary := getMemorySummary mem now later in
  map summaryQuestionId (summaryQuestions summary) = questionOrder mem
  /\ map position (summaryQuestions summary) = seq 1 (totalQuestions mem)
  /\ Forall (fun s =>
               length (questionPreview s) <= 103
               /\ exists record,
                    getKey (summaryQuestionId s) (questions mem) = Some record
                    /\ questionPreview s = preview (questionText record)
                    /\ summaryAnswerText s = answerText record
                    /\ summaryAttempts s = attempts record
                    /\ summaryConfidence s = confidence record)
            (summaryQuestions summary).
Proof.
  intros mem summary.
  pose proof (recordAll_consistent calls _ (newMemory_consistent qid pid start))
    as (Hord & Hnd & Htot & Hcomp).
  fold mem in Hord, Hnd, Htot, Hcomp.
  assert (Hstored : Forall (fun id => id ∈ objectKeys (questions mem))
                           (questionOrder mem)).
  { rewrite <- Hord. apply Forall_forall. auto. }
  pose proof (summarize_stored mem (questionOrder mem) Hstored 0) as (H1 & H2 & H3).
  subst summary. unfold getMemorySummary. cbn [summaryQuestions].
  rewrite Htot. auto.
Qed.

End Summary.

Section Position.
Import JS Memory.

Lemma record_keyed (mem : QuestionnaireMemory) (c : RecordCall) :
  keyed mem -> keyed (recordQuestionAnswer mem c).2.
Proof.
  unfold keyed, recordQuestionAnswer. intros Hk.
  assert (Hset : Forall (fun kv => questionId kv.2 = kv.1)
                   (setKey (callQuestionId c) (callRecord c) (questions mem))).
  { induction Hk as [|[k v] obj Hkv Hobj IH]; simpl.
    - repeat constructor.
    - destruct (bool_decide (k = callQuestionId c)).
      + constructor; [reflexivity|assumption].
      + constructor; assumption. }
  destruct (negb (hasKey (callQuestionId c) (questions mem))); exact Hset.
Qed.

Lemma recordAll_keyed (calls : list RecordCall) :
  forall mem, keyed mem -> keyed (recordAll mem calls).
Proof.
  induction calls as [|c calls IH]; intros mem Hk; [exact Hk|].
  apply IH, record_keyed, Hk.
Qed.

Lemma indexOfPlus1_found (x : jsstring) (arr : list jsstring) :
  x ∈ arr ->
  1 <= indexOfPlus1 x arr <= length arr
  /\ arr !! (indexOfPlus1 x arr - 1) = Some x.
Proof.
  induction arr as [|y arr IH]; intros Hin.
  - apply elem_of_nil in Hin. contradiction.
  - simpl. destruct (bool_decide (y = x)) eqn:Hy.
    + apply bool_decide_eq_true in Hy as ->. split; [lia|reflexivity].
    + apply bool_decide_eq_false in Hy.
      apply elem_of_cons in Hin as [->|Hin]; [contradiction|].
      destruct (IH Hin) as [Hrange Hlookup].
      destruct (indexOfPlus1 x arr) as [|n]; [lia|].
      split; [lia|]. simpl in *. now rewrite Nat.sub_0_r in *.
Qed.

(** X7: in a memory that was only written by recordings, a suggestion
    refers to a stored question by its position: the number in the reason
    is between 1 and the number of questions, the question at that
    position of the order is the reference question, and the suggested
    answer is the answer stored for it. *)
Theorem suggestion_names_the_position (qid pid : jsstring) (start : N)
  (calls : list RecordCall) (text : jsstring) (opts : list jsstring) :
  let mem := recordAll (newMemory qid pid start) calls in
  match getConsistentAnswerSuggestion mem text opts with
  | None => True
  | Some s =>
      exists p record,
        1 <= p <= totalQuestions mem
        /\ questionOrder mem !! (p - 1) = Some (referenceQuestionId s)
        /\ similarityReason s = js "与第" ++ decimal (N.of_nat p) ++ js "题相似"
        /\ getKey (referenceQuestionId s) (questions mem) = Some record
        /\ suggestedAnswer s = answer record
        /\ suggestedAnswerText s = answerText record
        /\ referenceQuestionText s = questionText record
  end.
Proof.
  intros mem.
  pose proof (recordAll_consistent calls _ (newMemory_consistent qid pid start))
    as (Hord & Hnd & Htot & Hcomp).
  assert (Hkeyed : keyed mem).
  { apply recordAll_keyed. constructor. }
  fold mem in Hord, Hnd, Htot, Hcomp.
  unfold getConsistentAnswerSuggestion.
  pose proof (findSimilarQuestion_cases mem text opts defaultThreshold) as Hcases.
  cbv zeta in Hcases.
  destruct (findSimilarQuestion mem text opts defaultThreshold) as [best|];
    [|exact I].
  destruct Hcases as (_ & earlier & later & Hvalues & _).
  assert (Hbest : best ∈ objectValues (questions mem)).
  { rewrite Hvalues. apply elem_of_app. right. apply list_elem_of_here. }
  unfold objectValues in Hbest.
  apply list_elem_of_fmap in Hbest as ([key record] & Hsnd & Hentry).
  cbn in Hsnd. subst record.
  unfold keyed in Hkeyed. rewrite Forall_forall in Hkeyed.
  pose proof (Hkeyed _ Hentry) as Hid. cbn in Hid.
  assert (Hin : questionId best ∈ questionOrder mem).
  { rewrite Hord, Hid. apply (list_elem_of_fmap_2 fst) in Hentry. exact Hentry. }
  destruct (indexOfPlus1_found _ _ Hin) as [Hrange Hlookup].
  exists (indexOfPlus1 (questionId best) (questionOrder mem)), best.
  cbn [referenceQuestionId similarityReason suggestedAnswer suggestedAnswerText
       referenceQuestionText].
  split; [lia|]. split; [exact Hlookup|]. split; [reflexivity|].
  split; [|auto].
  apply getKey_unique; [now rewrite <- Hord|]. now rewrite Hid.
Qed.

End Position.

Section RoundTrip.
Import JS Memory.

(** X8: exporting a memory and importing the exported data gives a memory
    that answers every request for a suggestion as the original does (and
    without an exception). *)
Theorem exported_memory_suggests_the_same (mem : QuestionnaireMemory)
  (text : jsstring) (opts : list jsstring) :
  Imported.getConsistentAnswerSuggestion
    (Imported.importMemory (Imported.exportMemory mem)) text opts
  = Ok (getConsistentAnswerSuggestion mem text opts).
Proof.
  unfold Imported.getConsistentAnswerSuggestion, getConsistentAnswerSuggestion.
  rewrite findSimilarQuestion_exported.
  destruct (findSimilarQuestion mem text opts defaultThreshold) as [best|];
    reflexivity.
Qed.

End RoundTrip.

(* ===================================================================== *)
(** * The log of the completion detector *)
(* ===================================================================== *)

Section DetectorLog.
Import JS Completion CompletionLog.

(** What [recordDetectionHistory] does to a history that is within its
    bound. *)
Lemma recordDetectionHistory_effect (m : Manager) (now : N) (url title : jsstring)
  (verdict : CompletionDetectionResult) :
  0 < maxHistoryRecords m ->
  length (pageStateHistory m) <= maxHistoryRecords m ->
  let entry := mkHistory now url title verdict in
  let m' := recordDetectionHistory m now url title verdict in
  length (pageStateHistory m') <= maxHistoryRecords m
  /\ length (pageStateHistory m') <= length (pageStateHistory m) + 1
  /\ last (pageStateHistory m') = Some entry
  /\ exists dropped,
       pageStateHistory m ++ [entry] = dropped ++ pageStateHistory m'
       /\ length dropped <= 1.
Proof.
  intros Hpos Hlen entry m'. subst m'. unfold recordDetectionHistory.
  cbn [pageStateHistory]. fold entry.
  set (history := pageStateHistory m ++ [entry]).
  assert (Hhistory : length history = length (pageStateHistory m) + 1).
  { subst history. rewrite length_app. reflexivity. }
  destruct (maxHistoryRecords m <? length history) eqn:Hover.
  - apply Nat.ltb_lt in Hover.
    assert (Hdrop : length history - maxHistoryRecords m = 1) by lia.
    rewrite Hdrop. split; [rewrite length_drop; lia|].
    split; [rewrite length_drop; lia|]. split.
    + subst history. destruct (pageStateHistory m) as [|h rest].
      * simpl in Hlen, Hover. lia.
      * cbn [app drop]. rewrite drop_0. apply last_snoc.
    + exists (take 1 history). split; [now rewrite take_drop|].
      rewrite length_take. lia.
  - apply Nat.ltb_ge in Hover. split; [lia|]. split; [lia|]. split.
    + subst history. apply last_snoc.
    + exists []. split; [reflexivity|simpl; lia].
Qed.

(** What one detection does to the manager. *)
Lemma detection_effect (m : Manager) (page : Page)
  (executionTime : Z) (now : N) :
  0 < maxHistoryRecords m ->
  length (pageStateHistory m) <= maxHistoryRecords m ->
  let verdict := (intelligentCompletionDetection m page executionTime now).1 in
  let m' := (intelligentCompletionDetection m page executionTime now).2 in
  completionCheckCount m' = completionCheckCount m + 1
  /\ maxHistoryRecords m' = maxHistoryRecords m
  /\ length (pageStateHistory m') <= maxHistoryRecords m
  /\ length (pageStateHistory m') <= length (pageStateHistory m) + 1
  /\ match entryOf page executionTime now verdict with
     | Some entry =>
         last (pageStateHistory m') = Some entry
         /\ lastCompletionCheck m' = Some now
         /\ exists dropped,
              pageStateHistory m ++ [entry] = dropped ++ pageStateHistory m'
              /\ length dropped <= 1
     | None =>
         successType verdict = js "detection_error"
         /\ pageStateHistory m' = pageStateHistory m
         /\ lastCompletionCheck m' = lastCompletionCheck m
     end.
Proof.
  intros Hpos Hlen verdict m'. subst verdict m'.
  unfold intelligentCompletionDetection, entryOf.
  destruct (pageUrl page) as [url|e1]; cbn [mbind Res_bind tryCatch fst snd].
  - destruct (pageTitle page) as [title|e2]; cbn [mbind Res_bind tryCatch fst snd].
    + set (m1 := {| pageStateHistory := pageStateHistory m;
                    lastCompletionCheck := lastCompletionCheck m;
                    completionCheckCount := completionCheckCount m + 1;
                    maxHistoryRecords := maxHistoryRecords m |}).
      set (verdict := if detectStrictCompletionSignals page url _
                      then completeResult now executionTime
                      else continueResult now executionTime).
      pose proof (recordDetectionHistory_effect m1 now url title verdict Hpos Hlen)
        as (H1 & H2 & H3 & H4).
      cbn [pageStateHistory maxHistoryRecords] in H1, H2, H3, H4.
      repeat split; try assumption.
    + repeat split; cbn; lia.
  - repeat split; cbn; lia.
Qed.



Lemma filter_partition_length {A : Type} (f : A -> bool) (l : list A) :
  length (List.filter f l) + length (List.filter (fun x => negb (f x)) l)
  = length l.
Proof.
  induction l as [|x l IH]; simpl; [reflexivity|].
  destruct (f x); simpl; lia.
Qed.

(** The invariant of a manager that was created and then only used through
    detections and resets. *)
Lemma performAll_bounds (calls : list Call) :
  forall m,
    maxHistoryRecords m = 10 ->
    length (pageStateHistory m) <= 10 ->
    length (pageStateHistory m) <= completionCheckCount m ->
    let m' := performAll m calls in
    maxHistoryRecords m' = 10
    /\ length (pageStateHistory m') <= 10
    /\ length (pageStateHistory m') <= completionCheckCount m'.
Proof.
  induction calls as [|c calls IH]; intros m Hmax Hlen Hcount.
  - cbn. auto.
  - cbn [performAll fold_left]. apply IH; destruct c as [page e now|]; cbn [perform].
    + pose proof (detection_effect m page e now) as H.
      rewrite Hmax in H. apply H; lia.
    + exact Hmax.
    + pose proof (detection_effect m page e now) as H.
      rewrite Hmax in H. apply H; lia.
    + simpl. lia.
    + pose proof (detection_effect m page e now) as H.
      rewrite Hmax in H.
      destruct H as (H1 & _ & _ & H4 & _); [lia|lia|]. lia.
    + simpl. lia.
Qed.

(** X10: whatever detections and resets a manager has gone through since
    it was created, its statistics add up: every entry of the history is
    counted either as a completion or as a continuation, the history has
    at most ten entries, and it never has more entries than checks were
    counted. *)
Theorem detection_statistics_add_up (calls : list Call) :
  let stats := getDetectionStats (performAll newManager calls) in
  completionCount stats + continuationCount stats = historyCount stats
  /\ historyCount stats <= 10
  /\ historyCount stats <= totalChecks stats.
Proof.
  intros stats. subst stats. unfold getDetectionStats.
  cbn [completionCount continuationCount historyCount totalChecks].
  split; [apply filter_partition_length|].
  assert (H : maxHistoryRecords newManager = 10) by reflexivity.
  pose proof (performAll_bounds calls newManager H) as Hbounds.
  cbv zeta in Hbounds. simpl in Hbounds.
  destruct Hbounds as (_ & H1 & H2); [lia|lia|]. split; assumption.
Qed.

End DetectorLog.

(* ===================================================================== *)
(** * Runs of the answering loop in which every round fails *)
(* ===================================================================== *)

Section FailingRounds.
Import JS Loop LoopFailure.
Variables (cfg : Config) (worlds : nat -> RoundWorld).
Hypothesis continues : forall attempt, detectorContinues (worlds attempt).
Hypothesis throws : forall attempt, navigationThrows (worlds attempt).

Lemma navigation_fails (attempt : nat) (pageState : PageState) :
  navSuccess (performIntelligentNavigation (worlds attempt) pageState) = false.
Proof.
  destruct (throws attempt) as [message Hthrow].
  unfold performIntelligentNavigation. cbv zeta. rewrite Hthrow.
  destruct (hasSubmitButton (navigationOptions pageState)),
           (hasNextButton (navigationOptions pageState)),
           (hasContinueButton (navigationOptions pageState));
    reflexivity.
Qed.

(** A failing round counts one more failure in a row, processes no page,
    and takes no answer back. *)
Lemma failing_round (attempt : nat) (st : LoopState) :
  let st' := (runRound cfg attempt (worlds attempt) st).1 in
  pagesProcessed st' = pagesProcessed st
  /\ continuousFailures st' = continuousFailures st + 1
  /\ totalQuestionsAnswered st <= totalQuestionsAnswered st'
  /\ (runRound cfg attempt (worlds attempt) st).2
     = if (maxContinuousFailures cfg <=? continuousFailures st + 1)%nat
       then Broke else NextRound.
Proof.
  unfold runRound.
  destruct (performDeepPageAnalysis (worlds attempt)) as [pageState|].
  - unfold roundBody.
    pose proof (continues attempt (completionManager st)
                  (Z.of_N (clock (worlds attempt)) - Z.of_nat attempt * 1000)%Z
                  (clock (worlds attempt))) as Hcont.
    destruct (Completion.intelligentCompletionDetection _ _ _ _)
      as [completionResult manager'].
    cbn [fst] in Hcont. rewrite Hcont. cbn [andb].
    destruct (if hasQuestions pageState && hasUnAnsweredQuestions pageState
              then answerQuestionsIntelligently (worlds attempt) pageState
                     (memoryManager st)
              else (0, memoryManager st)) as [answered memory'].
    rewrite navigation_fails. cbn [negb].
    destruct (maxContinuousFailures cfg <=? continuousFailures st + 1);
      cbn; repeat split; lia.
  - unfold roundCatch.
    destruct (maxContinuousFailures cfg <=? continuousFailures st + 1);
      cbn; repeat split; lia.
Qed.

(** The loop from a round on, when the budget of failures is reached
    before the budget of rounds. *)
Lemma failing_rounds (needed : nat) :
  forall (remaining attempt : nat) (st : LoopState),
    continuousFailures st + S needed = maxContinuousFailures cfg ->
    S needed <= remaining ->
    let run := rounds cfg worlds remaining attempt st in
    cause run = FailureBudget
    /\ roundsRun run = attempt + needed
    /\ totalPagesProcessed (result run) = pagesProcessed st
    /\ totalQuestionsAnswered
         (runRound cfg attempt (worlds attempt) st).1
       <= resultQuestionsAnswered (result run)
    /\ LoopShape.exhausted (result run).
Proof.
  induction needed as [|needed IH]; intros remaining attempt st Hbudget Hrem;
    (destruct remaining as [|remaining]; [lia|]);
    cbn [rounds];
    pose proof (failing_round attempt st) as (Hpages & Hfail & Hanswered & Hexit);
    destruct (runRound cfg attempt (worlds attempt) st) as [st' exit];
    cbn [fst snd] in *; subst exit.
  - rewrite (proj2 (Nat.leb_le _ _)) by lia. cbn.
    repeat split; try lia. all: try apply finish_exhausted.
  - rewrite (proj2 (Nat.leb_gt _ _)) by lia. cbv beta iota.
    assert (Hbudget' : continuousFailures st' + S needed = maxContinuousFailures cfg)
      by lia.
    assert (Hrem' : S needed <= remaining) by lia.
    pose proof (IH remaining (S attempt) st' Hbudget' Hrem')
      as (Hcause & Hrounds & Hresult & Hmore & Hshape).
    pose proof (failing_round (S attempt) st') as (_ & _ & Hnext & _).
    repeat split; try assumption; try lia; apply Hshape.
Qed.

End FailingRounds.

Section FailingRuns.
Import JS Loop LoopFailure.

(** X11: when the navigation action throws in every round and no page
    shows a completion signal, the loop ends on the failure budget: it
    runs exactly [maxContinuousFailures] rounds, processes no page, and
    returns the status "failed" with the page and answer counts as its
    reason. *)
Theorem failing_navigation_ends_the_run (cfg : Config)
  (memory : option Memory.QuestionnaireMemory) (manager : Completion.Manager)
  (worlds : nat -> RoundWorld) :
  1 <= maxContinuousFailures cfg <= maxContinuousAttempts cfg ->
  (forall attempt, detectorContinues (worlds attempt)) ->
  (forall attempt, navigationThrows (worlds attempt)) ->
  let run := executeContinuousAnswering cfg memory manager worlds in
  cause run = FailureBudget
  /\ roundsRun run = maxContinuousFailures cfg
  /\ totalPagesProcessed (result run) = 0
  /\ finalStatus (result run) = js "failed".
Proof.
  intros Hbudget Hcont Hnav run. subst run. unfold executeContinuousAnswering.
  destruct (maxContinuousFailures cfg) as [|needed] eqn:Hmax; [lia|].
  pose proof (failing_rounds cfg worlds Hcont Hnav needed
                (maxContinuousAttempts cfg) 1 (initialState memory manager))
    as H.
  cbv zeta in H. destruct H as (Hcause & Hrounds & Hpages & _ & Hshape & _).
  - cbn. lia.
  - lia.
  - cbn [initialState pagesProcessed] in Hpages.
    split; [exact Hcause|]. split; [lia|]. split; [exact Hpages|].
    rewrite Hshape, Hpages. reflexivity.
Qed.

Lemma quietPage_continues (w : RoundWorld) :
  detectionPage w = Inputs.quietPage -> detectorContinues w.
Proof.
  intros Hpage m executionTime now. rewrite Hpage.
  change Inputs.quietPage
    with (Claimed.pageOfSignals Inputs.surveyUrl (js "Survey")
            (Ok (Some (js "Page 2 of 30"))) (fun _ => Ok 0)).
  rewrite detection_on_signals.
  assert (Hnone : Claimed.signalPresentIgnoringCase Inputs.surveyUrl
                    (Ok (Some (js "Page 2 of 30"))) (fun _ => Ok 0) = false)
    by (vm_compute; reflexivity).
  rewrite Hnone. reflexivity.
Qed.

(** The statement of X11 for a backend that never manages to click. *)
Lemma failing_navigation_ends_the_run_witness :
  let run := executeContinuousAnswering defaultConfig None Completion.newManager
               (fun _ => Inputs.badRound) in
  roundsRun run = 8 /\ finalStatus (result run) = js "failed".
Proof.
  intros run.
  assert (H1 : 1 <= maxContinuousFailures defaultConfig
               <= maxContinuousAttempts defaultConfig) by (simpl; lia).
  assert (H2 : forall attempt : nat, detectorContinues Inputs.badRound)
    by (intros _; apply quietPage_continues; reflexivity).
  assert (H3 : forall attempt : nat, navigationThrows Inputs.badRound)
    by (intros _; exists (js "click failed"); reflexivity).
  pose proof (failing_navigation_ends_the_run defaultConfig None
                Completion.newManager (fun _ => Inputs.badRound) H1 H2 H3) as H.
  destruct H as (_ & Hrounds & _ & Hstatus).
  split; [exact Hrounds|exact Hstatus].
Defined.

(** The count a round takes over when its answering action works. *)
Lemma answering_round_counts (cfg : Config) (attempt : nat) (w : RoundWorld)
  (st : LoopState) (mem : Memory.QuestionnaireMemory) :
  detectorContinues w ->
  answersQuestions w ->
  memoryManager st = Some mem ->
  totalQuestionsAnswered st + 1
  <= totalQuestionsAnswered (runRound cfg attempt w st).1.
Proof.
  intros Hcont (pageState & Hextract & Hq & Hun & Hcount & Hact & url & Hurl) Hmem.
  unfold runRound, performDeepPageAnalysis. rewrite Hextract.
  cbn [mbind Res_bind tryCatch]. unfold roundBody.
  pose proof (Hcont (completionManager st)
                (Z.of_N (clock w) - Z.of_nat attempt * 1000)%Z (clock w)) as Hc.
  destruct (Completion.intelligentCompletionDetection _ _ _ _)
    as [completionResult manager'].
  cbn [fst] in Hc. rewrite Hc, Hq, Hun. cbn [andb].
  unfold answerQuestionsIntelligently. rewrite Hact, Hmem, Hurl.
  cbn [mbind Res_bind tryCatch].
  destruct (negb (navSuccess (performIntelligentNavigation w pageState)));
    [destruct (maxContinuousFailures cfg <=? continuousFailures st + 1)|];
    cbn; lia.
Qed.

(** X12: the engine calls a run a success as soon as one question was
    counted as answered.  When the answering action of the first round
    works but the navigation action throws in every round, the loop ends
    with the status "failed" and no page processed, and the engine reports
    [success: true], with every counted question as answered and none as
    skipped or failed. *)
Theorem engine_reports_success_without_a_page
  (person : Engine.DigitalPersonProfile) (url : jsstring) (clock : Engine.Clock)
  (manager : Completion.Manager) (sessionErrors : list jsstring)
  (worlds : nat -> RoundWorld) :
  (forall attempt, detectorContinues (worlds attempt)) ->
  (forall attempt, navigationThrows (worlds attempt)) ->
  answersQuestions (worlds 1) ->
  let run := Engine.enhancedRun person url clock manager worlds in
  let answer :=
    Engine.executeQuestionnaireAnswering person url clock manager sessionErrors
      worlds in
  finalStatus (result run) = js "failed"
  /\ totalPagesProcessed (result run) = 0
  /\ Engine.success answer = true
  /\ 1 <= Engine.answeredQuestions answer
  /\ Engine.totalQuestions answer = Engine.answeredQuestions answer
  /\ Engine.skippedQuestions answer = 0
  /\ Engine.failedQuestions answer = 0.
Proof.
  intros Hcont Hnav Hanswers run answer.
  subst answer. unfold Engine.executeQuestionnaireAnswering. fold run.
  cbn [Engine.success Engine.answeredQuestions Engine.totalQuestions
       Engine.skippedQuestions Engine.failedQuestions].
  subst run. unfold Engine.enhancedRun, executeContinuousAnswering.
  set (memory := Engine.newMemoryManager url person (Engine.memoryCreated clock)).
  pose proof (failing_rounds Engine.engineConfig worlds Hcont Hnav 7 200 1
                (initialState (Some memory) manager)) as H.
  cbv zeta in H. destruct H as (_ & _ & Hpages & Hmore & Hshape & _);
    [reflexivity|lia|].
  pose proof (answering_round_counts Engine.engineConfig 1 (worlds 1)
                (initialState (Some memory) manager) memory (Hcont 1) Hanswers
                eq_refl) as Hfirst.
  cbn [initialState totalQuestionsAnswered pagesProcessed] in Hfirst, Hpages.
  change (maxContinuousAttempts Engine.engineConfig) with 200.
  set (outcome := rounds Engine.engineConfig worlds 200 1
                    (initialState (Some memory) manager)) in *.
  assert (Hpos : 1 <= resultQuestionsAnswered (result outcome)) by lia.
  split; [rewrite Hshape, Hpages; reflexivity|]. split; [exact Hpages|].
  split; [|auto].
  rewrite (proj2 (Nat.ltb_lt _ _)) by lia. apply orb_true_r.
Qed.

(** The statement of X12 for a page with three open questions on which
    the backend answers but never manages to click. *)
Lemma engine_reports_success_without_a_page_witness :
  let page := {| hasQuestions := true; questionCount := 3;
                 hasUnAnsweredQuestions := true;
                 navigationOptions := navigationOptions Inputs.nextOnly;
                 pageType := questionnaire; completionSignals := [] |} in
  let round := {| extractOutcome := Ok (Some page);
                  detectionPage := Inputs.quietPage; clock := 5000;
                  answerAct := Ok tt; urlAfterAnswer := Ok Inputs.surveyUrl;
                  backupAct := Ok tt; urlAfterBackup := Ok Inputs.surveyUrl;
                  navigationAct := Throw (js "click failed");
                  loadState := Ok tt |} in
  let person := {| Engine.name := js "Li"; Engine.age := 30;
                   Engine.gender := js "f"; Engine.occupation := js "teacher" |} in
  let clock := {| Engine.startTime := 1000; Engine.memoryCreated := 1001;
                  Engine.lastActivity := 9000; Engine.finished := 9001;
                  Engine.named := 9002 |} in
  Engine.success
    (Engine.executeQuestionnaireAnswering person Inputs.surveyUrl clock
       Completion.newManager [] (fun _ => round)) = true.
Proof.
  intros page round person clock.
  assert (H1 : forall attempt : nat, detectorContinues round)
    by (intros _; apply quietPage_continues; reflexivity).
  assert (H2 : forall attempt : nat, navigationThrows round)
    by (intros _; exists (js "click failed"); reflexivity).
  assert (H3 : answersQuestions round).
  { exists page. repeat split; try reflexivity; [simpl; lia|].
    exists Inputs.surveyUrl. reflexivity. }
  pose proof (engine_reports_success_without_a_page person Inputs.surveyUrl clock
                Completion.newManager [] (fun _ => round) H1 H2 H3) as H.
  destruct H as (_ & _ & H & _). exact H.
Defined.

End FailingRuns.

(* ===================================================================== *)
(** * What a cleanup reports, requests and leaves alone *)
(* ===================================================================== *)

Section PhaseOutcomes.
Import JS Cleanup CleanupEffect CleanupReport.
Variable w : World.

Lemma phase1_outcome (s : CState) :
  phaseOutcome (phase1StopMonitoring w) s STOP_MONITORING "phase1"
    (pauseWorks w (data s)) [].
Proof.
  destruct s as [d m br ap us tr].
  destruct d as [sid pid pinfo sh eng binfo adsm pm mm dpm mi flag addl].
  destruct m as [ph st res].
  unfold phaseOutcome, pauseWorks.
  destruct mi as [timer|]; destruct eng as [engine|];
    try destruct (pauseOutcome w) as [[]|e] eqn:Hpause;
    run_phase; close_outcome.
Qed.

Lemma phase2_outcome (s : CState) :
  phaseOutcome (phase2CleanupStagehand w) s CLEANUP_STAGEHAND "phase2" true [].
Proof.
  destruct s as [d m br ap us tr].
  destruct d as [sid pid pinfo sh eng binfo adsm pm mm dpm mi flag addl].
  destruct m as [ph st res].
  unfold phaseOutcome.
  destruct eng as [engine|];
    (destruct sh as [[shid [ctx|]]|];
     [ destruct (pagesOutcome w) as [[|[[url|e]|] pages]|e] eqn:Hpages;
       [ | destruct (negb (includes url (js "chrome://"))
                     && negb (includes url (js "about:"))) eqn:Hurl;
           [ | destruct (closeOutcome w) as [[]|e] eqn:Hclose ] | | | ]
     | | ]);
    run_phase; close_outcome.
Qed.

Lemma phase3_outcome (s : CState) :
  phaseOutcome (phase3CleanupMemory w) s CLEANUP_MEMORY "phase3" true [].
Proof.
  destruct s as [d m br ap us tr].
  destruct d as [sid pid pinfo sh eng binfo adsm pm mm dpm mi flag addl].
  destruct m as [ph st res].
  unfold phaseOutcome.
  destruct mm as [memory|];
    (destruct dpm as [personMemory|];
     [ destruct (saveOutcome w) as [[]|e] eqn:Hsave;
       [ destruct (cleanupMemoryOutcome w) as [[]|e] eqn:Hclean | ]
     | ]);
    run_phase; close_outcome.
Qed.

Lemma phase4_outcome (s : CState) :
  phaseOutcome (phase4CleanupAdsPower w) s CLEANUP_ADSPOWER "phase4" true
    (requestsFor s).
Proof.
  destruct s as [d m br ap us tr].
  destruct d as [sid pid pinfo sh eng binfo adsm pm mm dpm mi flag addl].
  destruct m as [ph st res].
  unfold phaseOutcome, requestsFor, callsCleanupBrowser.
  destruct binfo as [info|];
    (destruct adsm as [ads|];
     [ destruct pid as [[|c pid]|];
       [ | destruct (br !! (c :: pid)) as [profile|] eqn:Hbrowser;
           [ destruct (stopOutcome w) as [[]|e] eqn:Hstop;
             destruct (deleteOutcome w) as [[]|e'] eqn:Hdelete | ] | ]
     | ]);
    run_phase; close_outcome.
Qed.

Lemma phase5_outcome (s : CState) :
  phaseOutcome (phase5CleanupProxy w) s CLEANUP_PROXY "phase5" true [].
Proof.
  destruct s as [d m br ap us tr].
  destruct d as [sid pid pinfo sh eng binfo adsm pm mm dpm mi flag addl].
  destruct m as [ph st res].
  unfold phaseOutcome.
  destruct pinfo as [info|];
    (destruct pm as [proxies|];
     [ destruct sid as [|c sid];
       [ | destruct (ap !! (c :: sid)) as [proxy|] eqn:Hproxy ]
     | ]);
    run_phase; close_outcome.
Qed.

Lemma phase6_outcome (s : CState) :
  phaseOutcome (phase6CleanupThreads w) s CLEANUP_THREADS "phase6" true [].
Proof.
  destruct s as [d m br ap us tr].
  destruct d as [sid pid pinfo sh eng binfo adsm pm mm dpm mi flag addl].
  destruct m as [ph st res].
  unfold phaseOutcome.
  destruct mi as [timer|]; destruct addl as [resources|];
    run_phase; close_outcome.
Qed.

End PhaseOutcomes.

Section WholeReport.
Import JS Cleanup CleanupEffect CleanupReport.
Variable w : World.

(** The cleanup manager and the requests after the six phases. *)
Lemma afterPhases_outcome (s : CState) :
  exists r1 r2 r3 r4 r5 r6,
    phaseSuccess r1 = pauseWorks w (data s)
    /\ phaseSuccess r2 = true /\ phaseSuccess r3 = true
    /\ phaseSuccess r4 = true /\ phaseSuccess r5 = true
    /\ phaseSuccess r6 = true
    /\ manager (afterPhases w s)
       = {| currentPhase := COMPLETED;
            cleanupStartTime := startClock w;
            cleanupResults :=
              <["phase6" := r6]> (<["phase5" := r5]> (<["phase4" := r4]>
              (<["phase3" := r3]> (<["phase2" := r2]> (<["phase1" := r1]>
                 (cleanupResults (manager s))))))) |}
    /\ List.filter browserRequest (trace (afterPhases w s))
       = List.filter browserRequest (trace s) ++ requestsFor s.
Proof.
  unfold afterPhases.
  set (s0 := (setManager _ s).1).
  pose proof (phase1_effect w s0) as (_ & D1 & B1 & _).
  pose proof (phase1_outcome w s0) as ((r1 & S1 & M1) & T1).
  set (s1 := (phase1StopMonitoring w s0).1) in *.
  pose proof (phase2_effect w s1) as (_ & D2 & B2 & _).
  pose proof (phase2_outcome w s1) as ((r2 & S2 & M2) & T2).
  set (s2 := (phase2CleanupStagehand w s1).1) in *.
  pose proof (phase3_effect w s2) as (_ & D3 & B3 & _).
  pose proof (phase3_outcome w s2) as ((r3 & S3 & M3) & T3).
  set (s3 := (phase3CleanupMemory w s2).1) in *.
  pose proof (phase4_outcome w s3) as ((r4 & S4 & M4) & T4).
  set (s4 := (phase4CleanupAdsPower w s3).1) in *.
  pose proof (phase5_outcome w s4) as ((r5 & S5 & M5) & T5).
  set (s5 := (phase5CleanupProxy w s4).1) in *.
  pose proof (phase6_outcome w s5) as ((r6 & S6 & M6) & T6).
  set (s6 := (phase6CleanupThreads w s5).1) in *.
  exists r1, r2, r3, r4, r5, r6.
  change (trace (setPhase COMPLETED s6).1) with (trace s6).
  assert (Mfinal : manager (setPhase COMPLETED s6).1
                   = {| currentPhase := COMPLETED;
                        cleanupStartTime := cleanupStartTime (manager s6);
                        cleanupResults := cleanupResults (manager s6) |})
    by reflexivity.
  assert (D0 : data s0 = data s) by reflexivity.
  assert (B0 : activeBrowsers s0 = activeBrowsers s) by reflexivity.
  assert (T0 : trace s0 = trace s) by reflexivity.
  assert (M0 : manager s0 = {| currentPhase := currentPhase (manager s);
                               cleanupStartTime := startClock w;
                               cleanupResults := cleanupResults (manager s) |})
    by reflexivity.
  assert (Hrequests : requestsFor s3 = requestsFor s).
  { unfold requestsFor. rewrite B3, B2, B1, B0, D3, D2, D1, D0.
    unfold afterPhase1, callsCleanupBrowser.
    destruct (data s) as [sid pid pinfo sh eng binfo adsm pm mm dpm mi flag addl].
    destruct mi; reflexivity. }
  rewrite D0 in S1.
  clearbody s0 s1 s2 s3 s4 s5 s6.
  rewrite Mfinal, M6, M5, M4, M3, M2, M1, M0. cbn [cleanupStartTime cleanupResults].
  rewrite T6, T5, T4, T3, T2, T1, T0, Hrequests, !app_nil_r.
  repeat split; assumption.
Qed.

End WholeReport.

Section ReportTheorems.
Import JS Cleanup CleanupEffect CleanupReport.

Lemma size_phaseKeys : size phaseKeys = 6.
Proof. reflexivity. Qed.

Lemma six_keys_absorb (k1 k2 k3 k4 k5 k6 : string) (X : gset string) :
  X ⊆ list_to_set [k1; k2; k3; k4; k5; k6] ->
  {[k6]} ∪ ({[k5]} ∪ ({[k4]} ∪ ({[k3]} ∪ ({[k2]} ∪ ({[k1]} ∪ X)))))
  = list_to_set [k1; k2; k3; k4; k5; k6].
Proof.
  cbn [list_to_set foldr]. intros HX. apply set_eq. intros x.
  specialize (HX x). revert HX.
  rewrite !elem_of_union, !elem_of_singleton, elem_of_empty. tauto.
Qed.

(** X13: a cleanup that starts with a manager whose results hold nothing
    but phase entries returns a report with [success: true], no error, the
    time between its two clock readings, and six completed phases.  The
    entries of the phases 2 to 6 always say [success: true]; the entry of
    phase 1 says [success: false] exactly when there is an engine and
    pausing it throws, and the report says [success: true] even then. *)
Theorem cleanup_report_counts_six_phases (w : World) (reason : jsstring)
  (s : CState) :
  dom (cleanupResults (manager s)) ⊆ phaseKeys ->
  exists r r1,
    (cleanup w reason s).2 = Ok r
    /\ success r = true
    /\ errors r = []
    /\ phasesCompleted r = 6
    /\ cleanupTime r = (Z.of_N (endClock w) - Z.of_N (startClock w))%Z
    /\ dom (details r) = phaseKeys
    /\ details r !! "phase1"%string = Some r1
    /\ phaseSuccess r1 = pauseWorks w (data s)
    /\ (forall key, key ∈ ["phase2"; "phase3"; "phase4"; "phase5"; "phase6"]%string ->
        exists rk, details r !! key = Some rk /\ phaseSuccess rk = true)
    /\ currentPhase (manager (cleanup w reason s).1) = COMPLETED.
Proof.
  intros Hdom. unfold cleanup. rewrite cleanup_runs_all_phases.
  destruct (afterPhases_outcome w (freshTrace s))
    as (r1 & r2 & r3 & r4 & r5 & r6 & S1 & S2 & S3 & S4 & S5 & S6 & Hmanager & _).
  change (data (freshTrace s)) with (data s) in S1.
  change (manager (freshTrace s)) with (manager s) in Hmanager.
  unfold report. cbn [fst snd]. rewrite Hmanager.
  cbn [cleanupResults cleanupStartTime currentPhase success errors
       phasesCompleted cleanupTime details].
  set (results := <["phase6"%string := r6]> _).
  assert (Hkeys : dom results = phaseKeys).
  { subst results. rewrite !dom_insert_L. now apply six_keys_absorb. }
  exists {| success := true;
            cleanupTime := (Z.of_N (endClock w) - Z.of_N (startClock w))%Z;
            phasesCompleted := size results;
            details := results;
            errors := [] |}, r1.
  cbn [success errors phasesCompleted cleanupTime details].
  split; [reflexivity|]. split; [reflexivity|]. split; [reflexivity|].
  split; [rewrite <- size_dom, Hkeys; exact size_phaseKeys|]. split; [reflexivity|].
  split; [exact Hkeys|].
  split; [subst results; repeat (rewrite lookup_insert_ne by discriminate);
          apply lookup_insert_eq|].
  split; [exact S1|].
  split; [|reflexivity].
  intros key Hkey.
  repeat (apply elem_of_cons in Hkey as [->|Hkey];
          [eexists; split;
           [subst results; repeat (rewrite lookup_insert_ne by discriminate);
            apply lookup_insert_eq|assumption]|]).
  apply elem_of_nil in Hkey. contradiction.
Qed.

(** The statement of X13 at a session with an engine that cannot be
    paused. *)
Lemma cleanup_report_counts_six_phases_witness :
  let w := {| startClock := 9000; endClock := 9050;
              pauseOutcome := Throw (js "engine is gone");
              pagesOutcome := Ok []; closeOutcome := Ok tt;
              saveOutcome := Ok tt; cleanupMemoryOutcome := Ok tt;
              stopOutcome := Ok tt; deleteOutcome := Ok tt;
              fallbackCloseOutcome := Ok tt |} in
  exists r r1,
    (cleanup w (js "test") Inputs.sessionResources).2 = Ok r
    /\ success r = true
    /\ phasesCompleted r = 6
    /\ details r !! "phase1"%string = Some r1
    /\ phaseSuccess r1 = false.
Proof.
  intros w.
  assert (H : dom (cleanupResults (manager Inputs.sessionResources)) ⊆ phaseKeys)
    by (apply empty_subseteq).
  destruct (cleanup_report_counts_six_phases w (js "test") Inputs.sessionResources H)
    as (r & r1 & H1 & H2 & _ & H4 & _ & _ & H7 & H8 & _).
  exists r, r1. repeat split; assumption.
Defined.

(** X14: a cleanup touches nothing of other sessions.  In the two
    registries it changes at most the entry under the profile id and the
    entry under the session id of its session data, and the only requests
    it sends to the browser service are a stop and a delete request for
    the profile registered under that profile id, when there is one. *)
Theorem cleanup_touches_only_its_session (w : World) (reason : jsstring)
  (s : CState) :
  let s' := (cleanup w reason s).1 in
  (forall key, key <> default [] (profileId (data s)) ->
               activeBrowsers s' !! key = activeBrowsers s !! key)
  /\ (forall key, key <> sessionId (data s) ->
                  allocatedProxies s' !! key = allocatedProxies s !! key
                  /\ proxyUsageStats s' !! key = proxyUsageStats s !! key)
  /\ List.filter browserRequest (trace s') = requestsFor s.
Proof.
  intros s'. subst s'. unfold cleanup. rewrite cleanup_runs_all_phases.
  unfold report. cbn [fst].
  destruct (afterPhases_effect w (freshTrace s)) as (_ & B & P & U & _).
  destruct (afterPhases_outcome w (freshTrace s))
    as (r1 & r2 & r3 & r4 & r5 & r6 & _ & _ & _ & _ & _ & _ & _ & Hrequests).
  rewrite B, P, U, Hrequests.
  unfold browsersAfter, proxiesAfter, usageAfter.
  change (data (freshTrace s)) with (data s).
  change (activeBrowsers (freshTrace s)) with (activeBrowsers s).
  change (allocatedProxies (freshTrace s)) with (allocatedProxies s).
  change (proxyUsageStats (freshTrace s)) with (proxyUsageStats s).
  split; [|split; [|reflexivity]].
  - intros key Hkey. destruct (callsCleanupBrowser (data s)); [|reflexivity].
    now rewrite lookup_delete_ne.
  - intros key Hkey. destruct (callsReleaseProxy (data s)); [|split; reflexivity].
    rewrite lookup_delete_ne by congruence.
    split; [reflexivity|].
    destruct (allocatedProxies s !! sessionId (data s)); [|reflexivity].
    now rewrite lookup_delete_ne.
Qed.

(** X15: one cleanup releases the session.  Afterwards every handle of
    the session data is undefined and its stop flag is set, while the
    session id, the profile id and the references to the two managers are
    kept; the browser registry has no entry under the profile id and the
    proxy registry none under the session id, when the session data refers
    to the respective manager. *)
Theorem cleanup_releases_the_session (w : World) (reason : jsstring) (s : CState) :
  let s' := (cleanup w reason s).1 in
  data s' = releaseAll (data s)
  /\ released (data s')
  /\ sessionId (data s') = sessionId (data s)
  /\ profileId (data s') = profileId (data s)
  /\ adsPowerManager (data s') = adsPowerManager (data s)
  /\ proxyManager (data s') = proxyManager (data s)
  /\ (callsCleanupBrowser (data s) = true ->
      activeBrowsers s' !! default [] (profileId (data s)) = None)
  /\ (callsReleaseProxy (data s) = true ->
      allocatedProxies s' !! sessionId (data s) = None).
Proof.
  intros s'. subst s'. unfold cleanup. rewrite cleanup_runs_all_phases.
  unfold report. cbn [fst].
  destruct (afterPhases_effect w (freshTrace s)) as (D & B & P & _ & _).
  rewrite D, B, P. change (data (freshTrace s)) with (data s).
  unfold browsersAfter, proxiesAfter.
  change (data (freshTrace s)) with (data s).
  change (activeBrowsers (freshTrace s)) with (activeBrowsers s).
  change (allocatedProxies (freshTrace s)) with (allocatedProxies s).
  split; [reflexivity|]. split; [repeat split|].
  split; [reflexivity|]. split; [reflexivity|]. split; [reflexivity|].
  split; [reflexivity|].
  split; intros ->; apply lookup_delete_eq.
Qed.

(** The statement of X15 at a session with a browser and a proxy. *)
Lemma cleanup_releases_the_session_witness :
  let s' := (cleanup Inputs.calmWorld (js "closed") Inputs.sessionResources).1 in
  activeBrowsers s' !! js "profile-1" = None
  /\ allocatedProxies s' !! js "session-1" = None.
Proof.
  intros s'.
  pose proof (cleanup_releases_the_session Inputs.calmWorld (js "closed")
                Inputs.sessionResources) as H.
  destruct H as (_ & _ & _ & _ & _ & _ & Hbrowser & Hproxy).
  split; [apply Hbrowser; reflexivity|apply Hproxy; reflexivity].
Defined.

End ReportTheorems.

(* ===================================================================== *)
(** * The window monitor: the status request, stopping, polling *)
(* ===================================================================== *)

Section StatusMessages.
Import JS Monitor MonitorMessages.

(** A text in which the first unit of [p] does not occur does not
    include [p]. *)
Lemma includes_without_head (s : jsstring) (h : N) (p : jsstring) :
  forallb (fun c => negb (h =? c)%N) s = true ->
  includes s (h :: p) = false.
Proof.
  induction s as [|c s IH]; intros Hs; [reflexivity|].
  cbn [forallb] in Hs. apply andb_prop in Hs as [Hc Hs].
  cbn [includes startsWith]. rewrite (IH Hs).
  apply negb_true_iff in Hc. rewrite Hc. reflexivity.
Qed.

Lemma decimalFuel_digits (fuel : nat) (n : N) (acc : jsstring) :
  forallb (fun c => (c <? 0x3A)%N) acc = true ->
  forallb (fun c => (c <? 0x3A)%N) (decimalFuel fuel n acc) = true.
Proof.
  revert n acc. induction fuel as [|fuel IH]; intros n acc Hacc; [exact Hacc|].
  cbn [decimalFuel].
  assert (Hnext : forallb (fun c => (c <? 0x3A)%N) ((0x30 + n mod 10)%N :: acc) = true).
  { cbn [forallb]. rewrite Hacc, andb_true_r. apply N.ltb_lt.
    pose proof (N.mod_upper_bound n 10). lia. }
  destruct (n <? 10)%N; [exact Hnext|]. apply IH, Hnext.
Qed.

(** The digits of a number are below the letters. *)
Lemma decimal_digits (n : N) :
  forallb (fun c => (c <? 0x3A)%N) (decimal n) = true.
Proof. apply decimalFuel_digits. reflexivity. Qed.

Lemma digits_without (h : N) (s : jsstring) :
  (0x3A <= h)%N ->
  forallb (fun c => (c <? 0x3A)%N) s = true ->
  forallb (fun c => negb (h =? c)%N) s = true.
Proof.
  intros Hh Hs. apply forallb_forall. intros c Hc.
  rewrite forallb_forall in Hs. specialize (Hs c Hc).
  apply N.ltb_lt in Hs. apply negb_true_iff, N.eqb_neq. lia.
Qed.

(** The message for a response that is not ok names no network problem. *)
Lemma status_message_is_no_network_problem (httpStatus : N) :
  networkProblem (js "AdsPower API 返回 " ++ decimal httpStatus) = false.
Proof.
  unfold networkProblem.
  change (js "timeout") with (0x74%N :: js "imeout").
  change (js "ECONNREFUSED") with (0x45%N :: js "CONNREFUSED").
  rewrite !includes_without_head; [reflexivity| |].
  - rewrite forallb_app. apply andb_true_intro. split; [reflexivity|].
    apply digits_without; [lia|apply decimal_digits].
  - rewrite forallb_app. apply andb_true_intro. split; [reflexivity|].
    apply digits_without; [lia|apply decimal_digits].
Qed.

(** X16: what the status request reports.  A response that is ok
    reports the window open exactly for code 0 with the status "Active".
    A response that is not ok reports the window closed, for the status
    404 and for every other status alike: the error thrown for the other
    statuses never mentions a timeout or a refused connection.  A failed
    request, or a body that cannot be read, is rethrown when its message
    mentions one of the two, and reports the window closed otherwise. *)
Theorem status_request_verdicts (f : FetchOutcome) :
  checkAdsPowerWindowStatus f
  = match f with
    | Responded true _ (Ok b) => Ok (negb (isActiveBody b))
    | Responded false _ _ => Ok true
    | Responded true _ (Throw message) | Rejected message =>
        if networkProblem message then Throw message else Ok true
    end.
Proof.
  unfold checkAdsPowerWindowStatus, networkProblem.
  destruct f as [[|] httpStatus body|message].
  - destruct body as [b|message]; [|reflexivity].
    cbn -[includes js]. destruct (isActiveBody b); reflexivity.
  - destruct (httpStatus =? 404)%N; [reflexivity|].
    pose proof (status_message_is_no_network_problem httpStatus) as Hno.
    unfold networkProblem in Hno. rewrite Hno. reflexivity.
  - reflexivity.
Qed.

End StatusMessages.

Section Stopping.
Import JS Monitor.

(** What clearing the timers does to the shared state. *)
Lemma stopMonitoringTimer_resources (s : Sys) :
  let r := resources s in
  let r' := resources (stopMonitoringTimer s) in
  Cleanup.data r' = Cleanup.withInterval None (Cleanup.data r)
  /\ Cleanup.manager r' = Cleanup.manager r
  /\ Cleanup.activeBrowsers r' = Cleanup.activeBrowsers r
  /\ Cleanup.allocatedProxies r' = Cleanup.allocatedProxies r
  /\ Cleanup.proxyUsageStats r' = Cleanup.proxyUsageStats r
  /\ exists timers, Cleanup.trace r' = Cleanup.trace r ++ map Cleanup.ClearInterval timers.
Proof.
  unfold stopMonitoringTimer.
  destruct s as [[id pid st t0 t1 n e timer flag]
                 [[sid prof pinfo sh eng binfo adsm pm mm dpm mi sflag addl]
                    m br ap us tr] active log calls].
  destruct timer as [timer|]; destruct mi as [mi|]; cbn;
    unfold mbind, Cleanup.M_bind, Cleanup.call, Cleanup.setData; cbn;
    repeat split.
  - exists [timer; mi]. now rewrite <- app_assoc.
  - now exists [timer].
  - now exists [mi].
  - exists []. now rewrite app_nil_r.
Qed.

End Stopping.

Section StoppingTheorems.
Import JS Monitor.

(** X17: stopping the monitoring of a registered session by hand
    releases nothing.  It sets both stop flags, clears the timer, logs
    [IDLE] and removes the session from the active sessions; no cleanup
    is called, the registries of browsers and proxies are as before, and
    every later poll of the timer callback leaves the state as it is. *)
Theorem stopping_runs_no_cleanup (config : MonitoringConfig)
  (ws : list PollWorld) (s : Sys) :
  sessionId (session s) ∈ activeSessions s ->
  let s' := stopMonitoring (sessionId (session s)) s in
  stopFlag (session s') = true
  /\ monitorInterval (session s') = None
  /\ status (session s') = IDLE
  /\ statusLog s' = statusLog s ++ [IDLE]
  /\ activeSessions s' = activeSessions s ∖ {[ sessionId (session s) ]}
  /\ cleanupCalls s' = cleanupCalls s
  /\ Cleanup.data (resources s')
     = Cleanup.withInterval None
         (Cleanup.withStopFlag (Some true) (Cleanup.data (resources s)))
  /\ Cleanup.activeBrowsers (resources s') = Cleanup.activeBrowsers (resources s)
  /\ Cleanup.allocatedProxies (resources s') = Cleanup.allocatedProxies (resources s)
  /\ Cleanup.proxyUsageStats (resources s') = Cleanup.proxyUsageStats (resources s)
  /\ (exists timers, Cleanup.trace (resources s')
                     = Cleanup.trace (resources s) ++ map Cleanup.ClearInterval timers)
  /\ polls config ws s' = s'.
Proof.
  intros Hin s'. subst s'. unfold stopMonitoring.
  rewrite bool_decide_eq_true_2 by exact Hin. cbv zeta.
  set (s2 := onResources _ (updateSession (withStopFlag true) s)).
  pose proof (stopMonitoringTimer_frame s2) as (Hsession & Hactive & Hlog & Hcalls).
  pose proof (stopMonitoringTimer_resources s2) as (D & _ & B & P & U & timers & T).
  set (s3 := stopMonitoringTimer s2) in *.
  assert (Hdata : Cleanup.data (resources s3)
                  = Cleanup.withInterval None
                      (Cleanup.withStopFlag (Some true) (Cleanup.data (resources s))))
    by (rewrite D; reflexivity).
  assert (Hgone : sessionId (session s)
                  ∉ activeSessions s ∖ {[ sessionId (session s) ]}).
  { intros Hmember. apply elem_of_difference in Hmember as [_ Hnot].
    apply Hnot, elem_of_singleton. reflexivity. }
  cbn [removeActive setStatus session resources activeSessions statusLog
       cleanupCalls stopFlag monitorInterval status].
  rewrite Hsession, Hactive, Hlog, Hcalls, B, P, U, T.
  split; [reflexivity|]. split; [reflexivity|]. split; [reflexivity|].
  split; [reflexivity|]. split; [reflexivity|]. split; [reflexivity|].
  split; [exact Hdata|]. split; [reflexivity|]. split; [reflexivity|].
  split; [reflexivity|]. split; [exists timers; reflexivity|].
  apply polls_after_cleanup.
  - cbn [resources removeActive setStatus]. rewrite Hdata. reflexivity.
  - cbn [session activeSessions sessionId removeActive setStatus].
    rewrite Hsession, Hactive. exact Hgone.
Qed.

(** The statement of X17 at a session that was just started. *)
Lemma stopping_runs_no_cleanup_witness :
  let s' := stopMonitoring (js "session-1") Inputs.monitored in
  statusLog s' = [MONITORING; IDLE]
  /\ cleanupCalls s' = 0
  /\ Cleanup.activeBrowsers (resources s')
     = Cleanup.activeBrowsers Inputs.sessionResources
  /\ polls defaultConfig [Inputs.timeoutPoll; Inputs.timeoutPoll; Inputs.timeoutPoll] s'
     = s'.
Proof.
  intros s'.
  assert (Hin : sessionId (session Inputs.monitored) ∈ activeSessions Inputs.monitored)
    by (apply elem_of_union_r, elem_of_singleton; reflexivity).
  pose proof (stopping_runs_no_cleanup defaultConfig
                [Inputs.timeoutPoll; Inputs.timeoutPoll; Inputs.timeoutPoll]
                Inputs.monitored Hin) as H.
  destruct H as (_ & _ & _ & Hlog & _ & Hcalls & _ & Hbrowsers & _ & _ & _ & Hpolls).
  split; [exact Hlog|]. split; [exact Hcalls|]. split; [exact Hbrowsers|exact Hpolls].
Defined.

End StoppingTheorems.

Section WithoutCleanup.
Import JS Monitor.
Variable config : MonitoringConfig.
Hypothesis manual : enableAutoCleanup config = false.

(** Without automatic cleanup a poll only counts and logs. *)
Lemma poll_without_cleanup (w : PollWorld) (s : Sys) :
  monitoringState s ->
  let s' := performWindowCheck config w s in
  monitoringState s'
  /\ resources s' = resources s
  /\ activeSessions s' = activeSessions s
  /\ cleanupCalls s' = cleanupCalls s
  /\ monitorInterval (session s') = monitorInterval (session s)
  /\ checkCount (session s') = checkCount (session s) + 1
  /\ (statusLog s' = statusLog s \/ statusLog s' = statusLog s ++ [WINDOW_CLOSED]).
Proof.
  intros [Hflag Hdata]. unfold performWindowCheck.
  rewrite Hflag, Hdata, manual. cbn [orb].
  destruct (checkAdsPowerWindowStatus (fetchOutcome w)) as [[|]|message].
  - cbn. repeat split; auto.
  - cbn. repeat split; auto.
  - cbn [updateSession session withCheck withErrorCount errorCount].
    destruct (maxRetries config <=? _); cbn; repeat split; auto.
Qed.

End WithoutCleanup.

Section WithoutCleanupTheorems.
Import JS Monitor.

(** X18: with [enableAutoCleanup] off the monitor never stops by
    itself.  Whatever the polls of a monitored session find, the session
    stays monitored and registered with its timer, no cleanup is called,
    the session data and the registries stay as they are, every poll is
    counted, and the only status ever logged is [WINDOW_CLOSED]. *)
Theorem without_auto_cleanup_polling_goes_on (config : MonitoringConfig)
  (ws : list PollWorld) (s : Sys) :
  enableAutoCleanup config = false ->
  monitoringState s ->
  let s' := polls config ws s in
  monitoringState s'
  /\ resources s' = resources s
  /\ activeSessions s' = activeSessions s
  /\ cleanupCalls s' = cleanupCalls s
  /\ monitorInterval (session s') = monitorInterval (session s)
  /\ checkCount (session s') = checkCount (session s) + length ws
  /\ exists k, k <= length ws
               /\ statusLog s' = statusLog s ++ repeat WINDOW_CLOSED k.
Proof.
  intros Hmanual. revert s. induction ws as [|w ws IH]; intros s Hs.
  - cbn. repeat split; try apply Hs; try lia.
    exists 0. split; [lia|]. cbn. now rewrite app_nil_r.
  - pose proof (poll_without_cleanup config Hmanual w s Hs)
      as (Hs1 & R1 & A1 & C1 & M1 & N1 & L1).
    specialize (IH _ Hs1) as (Hs2 & R2 & A2 & C2 & M2 & N2 & k & Hk & L2).
    unfold polls in *. cbn [fold_left length].
    rewrite R2, A2, C2, M2, N2, L2, R1, A1, C1, M1, N1.
    split; [exact Hs2|]. split; [reflexivity|]. split; [reflexivity|].
    split; [reflexivity|]. split; [reflexivity|]. split; [lia|].
    destruct L1 as [-> | ->].
    + exists k. split; [lia|reflexivity].
    + exists (S k). split; [lia|]. now rewrite <- app_assoc.
Qed.

(** The statement of X18 at three polls that time out and one that is
    answered with a server error. *)
Lemma without_auto_cleanup_polling_goes_on_witness :
  let config := {| checkInterval := 2000; maxRetries := 3;
                   timeoutDuration := 10000; enableAutoCleanup := false |} in
  let s' := polls config [Inputs.timeoutPoll; Inputs.timeoutPoll;
                          Inputs.timeoutPoll; Inputs.serverErrorPoll]
              Inputs.monitored in
  cleanupCalls s' = 0
  /\ resources s' = resources Inputs.monitored
  /\ checkCount (session s') = 4.
Proof.
  intros config s'.
  assert (Hs : monitoringState Inputs.monitored) by (split; reflexivity).
  pose proof (without_auto_cleanup_polling_goes_on config
                [Inputs.timeoutPoll; Inputs.timeoutPoll;
                 Inputs.timeoutPoll; Inputs.serverErrorPoll]
                Inputs.monitored eq_refl Hs) as H.
  destruct H as (_ & Hres & _ & Hcalls & _ & Hcount & _).
  split; [exact Hcalls|]. split; [exact Hres|exact Hcount].
Defined.

End WithoutCleanupTheorems.

(* ===================================================================== *)
(** * The lifecycle events of the sessions *)
(* ===================================================================== *)

Section Entries.
Import JS Memory.
Context {V : Type}.
Implicit Types (obj : list (jsstring * V)) (k : jsstring) (v : V).

Lemma getKey_missing k obj : hasKey k obj = false -> getKey k obj = None.
Proof.
  unfold hasKey. induction obj as [|[k' v'] obj IH]; simpl; [reflexivity|].
  destruct (bool_decide (k' = k)); simpl; [discriminate|exact IH].
Qed.

Lemma getKey_present k obj : hasKey k obj = true -> exists v, getKey k obj = Some v.
Proof. intros H. apply getKey_of_key, hasKey_elem, H. Qed.

Lemma getKey_hasKey k v obj : getKey k obj = Some v -> hasKey k obj = true.
Proof.
  intros H. destruct (hasKey k obj) eqn:Hk; [reflexivity|].
  rewrite (getKey_missing _ _ Hk) in H. discriminate.
Qed.

Lemma getKey_entry k v obj : getKey k obj = Some v -> (k, v) ∈ obj.
Proof.
  induction obj as [|[k' v'] obj IH]; simpl; [discriminate|].
  case_bool_decide as Hk.
  - intros [= ->]. subst. apply list_elem_of_here.
  - intros H. apply list_elem_of_further, IH, H.
Qed.

Lemma filter_keys_NoDup (P : jsstring * V -> bool) obj :
  NoDup (objectKeys obj) -> NoDup (objectKeys (List.filter P obj)).
Proof.
  unfold objectKeys. induction obj as [|[k' v'] obj IH]; simpl; [auto|].
  intros Hnd. apply NoDup_cons in Hnd as [Hfresh Hnd].
  destruct (P (k', v')); [|auto]. simpl. apply NoDup_cons. split; [|auto].
  intros Hin. apply Hfresh. apply list_elem_of_fmap in Hin as ([k1 v1] & -> & Hin).
  apply list_elem_of_In, filter_In in Hin as [Hin _].
  apply list_elem_of_In in Hin. apply (list_elem_of_fmap_2 fst) in Hin. exact Hin.
Qed.

Lemma getKey_filter (P : jsstring * V -> bool) k obj :
  NoDup (objectKeys obj) ->
  getKey k (List.filter P obj)
  = match getKey k obj with
    | Some v => if P (k, v) then Some v else None
    | None => None
    end.
Proof.
  unfold objectKeys. induction obj as [|[k' v'] obj IH]; simpl; [reflexivity|].
  intros Hnd. apply NoDup_cons in Hnd as [Hfresh Hnd].
  case_bool_decide as Hk.
  - subst k'. destruct (P (k, v')) eqn:HP; simpl.
    + now rewrite bool_decide_eq_true_2.
    + rewrite (IH Hnd). destruct (getKey k obj) as [v|] eqn:Hget; [|reflexivity].
      exfalso. apply Hfresh. apply getKey_entry in Hget.
      apply (list_elem_of_fmap_2 fst) in Hget. exact Hget.
  - destruct (P (k', v')); simpl; [rewrite bool_decide_eq_false_2 by exact Hk|];
      apply IH, Hnd.
Qed.

Lemma setKey_wellFormed k v obj :
  NoDup (objectKeys obj) -> NoDup (objectKeys (setKey k v obj)).
Proof.
  intros Hnd. destruct (hasKey k obj) eqn:Hk.
  - now rewrite objectKeys_setKey_old.
  - rewrite objectKeys_setKey_new by exact Hk.
    apply NoDup_app. split; [exact Hnd|]. split; [|apply NoDup_singleton].
    intros x Hx Hx'. apply list_elem_of_singleton in Hx'. subst x.
    apply hasKey_not_elem in Hk. contradiction.
Qed.

Lemma length_setKey_old k v obj :
  hasKey k obj = true -> length (setKey k v obj) = length obj.
Proof.
  intros H. pose proof (objectKeys_setKey_old k v obj H) as E.
  apply (f_equal (@length _)) in E. unfold objectKeys in E.
  now rewrite !length_map in E.
Qed.

(** Assigning distinct new keys one after the other appends them. *)
Lemma assign_all_new (entries obj : list (jsstring * V)) :
  NoDup (objectKeys (obj ++ entries)) ->
  fold_left (fun acc kv => setKey kv.1 kv.2 acc) entries obj = obj ++ entries.
Proof.
  revert obj. induction entries as [|[k v] entries IH]; intros obj Hnd; simpl.
  - now rewrite app_nil_r.
  - assert (Hnew : hasKey k obj = false).
    { apply hasKey_not_elem. unfold objectKeys in *. rewrite fmap_app in Hnd.
      apply NoDup_app in Hnd as (_ & Hdisjoint & _). intros Hin.
      apply (Hdisjoint k Hin). simpl. apply list_elem_of_here. }
    assert (Hset : setKey k v obj = obj ++ [(k, v)]).
    { clear -Hnew. unfold hasKey in Hnew.
      induction obj as [|[k' v'] obj IHobj]; simpl in *; [reflexivity|].
      destruct (bool_decide (k' = k)); simpl in *; [discriminate|].
      now rewrite IHobj. }
    rewrite Hset, IH; rewrite <- app_assoc; [reflexivity|exact Hnd].
Qed.



End Entries.

Section Counting.
Import JS Memory Lifecycle.
Context {A : Type}.
Implicit Types (obj : list (jsstring * list A)) (k : jsstring).

Lemma total_from obj (a : nat) :
  fold_left (fun total kv => total + length kv.2) obj a
  = a + fold_left (fun total kv => total + length kv.2) obj 0.
Proof.
  revert a. induction obj as [|kv obj IH]; intros a; simpl; [lia|].
  rewrite (IH (a + _)), (IH (length _)). lia.
Qed.

Lemma total_cons kv obj :
  fold_left (fun total kv => total + length kv.2) (kv :: obj) 0
  = length kv.2 + fold_left (fun total kv => total + length kv.2) obj 0.
Proof. simpl. apply total_from. Qed.

Lemma total_push k (e : A) obj :
  hasKey k obj = true ->
  fold_left (fun total kv => total + length kv.2)
    (setKey k (default [] (getKey k obj) ++ [e]) obj) 0
  = S (fold_left (fun total kv => total + length kv.2) obj 0).
Proof.
  unfold hasKey. induction obj as [|[k' v'] obj IH]; [discriminate|].
  cbn [existsb fst getKey setKey]. destruct (bool_decide (k' = k)); cbn [orb].
  - intros _. rewrite !total_cons. cbn [snd default]. rewrite length_app. simpl. lia.
  - intros H. rewrite !total_cons, (IH H). cbn [snd]. lia.
Qed.

Lemma total_new k obj :
  hasKey k obj = false ->
  fold_left (fun total kv => total + length kv.2) (setKey k [] obj) 0
  = fold_left (fun total kv => total + length kv.2) obj 0.
Proof.
  unfold hasKey. induction obj as [|[k' v'] obj IH]; [reflexivity|].
  cbn [existsb fst setKey]. destruct (bool_decide (k' = k)); cbn [orb]; [discriminate|].
  intros H. now rewrite !total_cons, (IH H).
Qed.


End Counting.

Section Recording.
Import JS Memory Lifecycle.

Lemma recordEvent_events (m : Manager) (id : jsstring) (ev : EventInput) (now : N) :
  events (recordEvent m id ev now)
  = setKey id (getSessionEvents m id ++ [stamped ev now])
      (if hasKey id (events m) then events m else setKey id [] (events m)).
Proof.
  unfold recordEvent, getSessionEvents, stamped. cbv zeta.
  match goal with |- context [if (?c =? 0)%nat then _ else _] => destruct (c =? 0)%nat end;
    cbn [events saveEventsToFile withEvents];
    destruct (hasKey id (events m)) eqn:Hk; cbn [negb]; try reflexivity.
  all: rewrite getKey_setKey, bool_decide_eq_true_2 by reflexivity.
  all: now rewrite (getKey_missing _ _ Hk).
Qed.

Lemma recordEvent_getKey (m : Manager) (id : jsstring) (ev : EventInput) (now : N)
  (other : jsstring) :
  getKey other (events (recordEvent m id ev now))
  = if bool_decide (other = id)
    then Some (getSessionEvents m id ++ [stamped ev now])
    else getKey other (events m).
Proof.
  rewrite recordEvent_events, getKey_setKey.
  case_bool_decide as Hother; [reflexivity|].
  destruct (hasKey id (events m)); [reflexivity|].
  rewrite getKey_setKey. now rewrite bool_decide_eq_false_2.
Qed.

Lemma recordEvent_count (m : Manager) (id : jsstring) (ev : EventInput) (now : N) :
  getTotalEventsCount (recordEvent m id ev now) = S (getTotalEventsCount m).
Proof.
  unfold getTotalEventsCount. rewrite recordEvent_events. unfold getSessionEvents.
  destruct (hasKey id (events m)) eqn:Hk.
  - now apply total_push.
  - rewrite <- (total_new id (events m) Hk).
    assert (Hnow : hasKey id (setKey id [] (events m)) = true).
    { apply hasKey_elem. rewrite objectKeys_setKey_new by exact Hk.
      apply elem_of_app. right. apply list_elem_of_here. }
    rewrite <- (total_push id (stamped ev now) _ Hnow).
    rewrite getKey_setKey, bool_decide_eq_true_2 by reflexivity.
    now rewrite (getKey_missing _ _ Hk).
Qed.

Lemma recordEvent_written (m : Manager) (id : jsstring) (ev : EventInput) (now : N) :
  written (recordEvent m id ev now)
  = if (S (getTotalEventsCount m) mod 50 =? 0)%nat
    then written m ++ [events (recordEvent m id ev now)]
    else written m.
Proof.
  pose proof (recordEvent_count m id ev now) as Hcount.
  unfold recordEvent in *. cbv zeta in *.
  set (m2 := withEvents _ m) in *.
  destruct (getTotalEventsCount m2 mod 50 =? 0)%nat eqn:Hsave.
  - change (getTotalEventsCount (saveEventsToFile m2)) with (getTotalEventsCount m2)
      in Hcount.
    rewrite <- Hcount, Hsave. reflexivity.
  - rewrite <- Hcount, Hsave. reflexivity.
Qed.

Lemma recordEvent_wellFormed (m : Manager) (id : jsstring) (ev : EventInput) (now : N) :
  wellFormed m -> wellFormed (recordEvent m id ev now).
Proof.
  unfold wellFormed. rewrite recordEvent_events. intros Hnd.
  apply setKey_wellFormed. destruct (hasKey id (events m)); [exact Hnd|].
  now apply setKey_wellFormed.
Qed.

Lemma recordEvent_length (m : Manager) (id : jsstring) (ev : EventInput) (now : N) :
  length (events (recordEvent m id ev now))
  = if hasKey id (events m) then length (events m) else S (length (events m)).
Proof.
  rewrite recordEvent_events. destruct (hasKey id (events m)) eqn:Hk.
  - now apply length_setKey_old.
  - rewrite length_setKey_old.
    + rewrite length_setKey_new by exact Hk. lia.
    + apply hasKey_elem. rewrite objectKeys_setKey_new by exact Hk.
      apply elem_of_app. right. apply list_elem_of_here.
Qed.

Lemma every_fiftieth (n : nat) :
  S n / 50 = n / 50 + (if (S n mod 50 =? 0)%nat then 1 else 0).
Proof.
  pose proof (Nat.div_mod_eq n 50) as Hn.
  pose proof (Nat.div_mod_eq (S n) 50) as HSn.
  pose proof (Nat.mod_upper_bound n 50) as Hr.
  pose proof (Nat.mod_upper_bound (S n) 50) as Hr'.
  destruct (S n mod 50 =? 0)%nat eqn:Hzero.
  - apply Nat.eqb_eq in Hzero. lia.
  - apply Nat.eqb_neq in Hzero. lia.
Qed.

Lemma recordEvents_effect (calls : list (jsstring * EventInput * N)) (m : Manager) :
  getTotalEventsCount (recordEvents m calls) = getTotalEventsCount m + length calls
  /\ length (written (recordEvents m calls)) + getTotalEventsCount m / 50
     = length (written m) + (getTotalEventsCount m + length calls) / 50.
Proof.
  revert m. induction calls as [|[[id ev] now] calls IH]; intros m.
  - change (recordEvents m []) with m. cbn [length].
    rewrite !Nat.add_0_r. split; reflexivity.
  - change (recordEvents m ((id, ev, now) :: calls))
      with (recordEvents (recordEvent m id ev now) calls).
    cbn [length].
    destruct (IH (recordEvent m id ev now)) as [Hcount Hwritten].
    rewrite recordEvent_count in Hcount, Hwritten.
    rewrite recordEvent_written in Hwritten.
    pose proof (every_fiftieth (getTotalEventsCount m)) as Hdiv.
    split; [lia|].
    replace (getTotalEventsCount m + S (length calls))
      with (S (getTotalEventsCount m) + length calls) by lia.
    destruct (S (getTotalEventsCount m) mod 50 =? 0)%nat;
      rewrite ?length_app in Hwritten; cbn [length] in Hwritten; lia.
Qed.

End Recording.

Section RecordingTheorems.
Import JS Memory Lifecycle.

(** X19: an event that is recorded becomes the latest event of its
    session, behind the events the session had; the events of every other
    session are as before, and the number of events grows by one. *)
Theorem recorded_event_is_the_latest (m : Manager) (id : jsstring)
  (ev : EventInput) (now : N) :
  let m' := recordEvent m id ev now in
  getSessionEvents m' id = getSessionEvents m id ++ [stamped ev now]
  /\ getLatestEvent m' id = Some (stamped ev now)
  /\ getTotalEventsCount m' = S (getTotalEventsCount m)
  /\ forall other, other <> id ->
       getSessionEvents m' other = getSessionEvents m other
       /\ getLatestEvent m' other = getLatestEvent m other.
Proof.
  intros m'. subst m'.
  unfold getSessionEvents at 1, getLatestEvent at 1.
  rewrite recordEvent_getKey, bool_decide_eq_true_2 by reflexivity.
  split; [reflexivity|]. split; [apply last_snoc|].
  split; [apply recordEvent_count|].
  intros other Hother. unfold getSessionEvents, getLatestEvent.
  rewrite recordEvent_getKey, bool_decide_eq_false_2 by exact Hother.
  split; reflexivity.
Qed.

(** X20: the events file is written once for every fifty recorded
    events.  After any sequence of [recordEvent] calls on a new manager
    the number of writes is the number of calls divided by fifty, rounded
    down, so up to forty-nine of the latest events are in memory only. *)
Theorem events_are_saved_every_fifty (calls : list (jsstring * EventInput * N)) :
  let m := recordEvents newManager calls in
  getTotalEventsCount m = length calls
  /\ length (written m) = length calls / 50.
Proof.
  intros m. subst m.
  destruct (recordEvents_effect calls newManager) as [Hcount Hwritten].
  change (getTotalEventsCount newManager) with 0 in *.
  change (length (written newManager)) with 0 in *.
  change (0 / 50) with 0 in Hwritten.
  split; [exact Hcount|]. cbn [Nat.add] in Hwritten. lia.
Qed.

End RecordingTheorems.

Section Sessions.
Import JS Memory Lifecycle.

Lemma sessionsWhoseLast_elem (test : LifecycleEvent -> bool) (m : Manager)
  (id : jsstring) :
  wellFormed m ->
  id ∈ sessionsWhoseLast test m
  <-> exists evs e, getKey id (events m) = Some evs /\ last evs = Some e
                    /\ test e = true.
Proof.
  intros Hnd. unfold sessionsWhoseLast. rewrite list_elem_of_fmap. split.
  - intros ([k evs] & -> & Hin).
    apply list_elem_of_In, filter_In in Hin as [Hin Htest].
    cbn [fst snd] in *. destruct (last evs) as [e|] eqn:Hlast; [|discriminate].
    exists evs, e. split; [|split; [exact Hlast|exact Htest]].
    apply getKey_unique; [exact Hnd|]. apply list_elem_of_In, Hin.
  - intros (evs & e & Hget & Hlast & Htest). exists (id, evs).
    split; [reflexivity|]. apply list_elem_of_In, filter_In.
    split; [apply list_elem_of_In, getKey_entry, Hget|].
    cbn [snd]. rewrite Hlast. exact Htest.
Qed.

Lemma exclusive_filters_length {A : Type} (p q r : A -> bool) (l : list A) :
  (forall x, p x = true -> q x = false /\ r x = false) ->
  (forall x, q x = true -> r x = false) ->
  length (List.filter p l) + length (List.filter q l) + length (List.filter r l)
  <= length l.
Proof.
  intros Hp Hq. induction l as [|x l IH]; simpl; [lia|].
  destruct (p x) eqn:Ep.
  - destruct (Hp x Ep) as [-> ->]. simpl. lia.
  - destruct (q x) eqn:Eq.
    + rewrite (Hq x Eq). simpl. lia.
    + destruct (r x); simpl; lia.
Qed.

Lemma filter_again {A : Type} (p : A -> bool) (l : list A) :
  List.filter p (List.filter p l) = List.filter p l.
Proof.
  induction l as [|x l IH]; simpl; [reflexivity|].
  destruct (p x) eqn:Ep; simpl; [rewrite Ep, IH|]; auto.
Qed.

Lemma filter_shorter {A : Type} (p : A -> bool) (l : list A) :
  length (List.filter p l) <= length l.
Proof. induction l as [|x l IH]; simpl; [lia|]. destruct (p x); simpl; lia. Qed.

Lemma filter_all {A : Type} (p : A -> bool) (l : list A) :
  length (List.filter p l) = length l -> List.filter p l = l.
Proof.
  induction l as [|x l IH]; simpl; [reflexivity|].
  pose proof (filter_shorter p l). destruct (p x); simpl; intros Hlen.
  - f_equal. apply IH. lia.
  - lia.
Qed.


End Sessions.

Section SessionTheorems.
Import JS Memory Lifecycle.

(** X21: cleaning up a session deletes nothing.  It appends one event of
    type "cleaned" to the events of the session, all of which are kept,
    and creates the session when it was unknown; afterwards the status of
    the session is "cleaned" and the session is listed neither as active
    nor as completed nor as failed. *)
Theorem cleaned_session_is_only_marked (m : Manager) (id : jsstring) (now : N) :
  wellFormed m ->
  let m' := cleanupSession m id now in
  getSessionEvents m' id
  = getSessionEvents m id
    ++ [{| eventType := js "cleaned"; timestamp := now; eventData := None |}]
  /\ length (events m')
     = (if hasKey id (events m) then length (events m) else S (length (events m)))
  /\ status (getSessionStatus m' id) = js "cleaned"
  /\ (id ∉ getActiveSessions m')
  /\ (id ∉ getCompletedSessions m')
  /\ (id ∉ getFailedSessions m').
Proof.
  intros Hnd m'. subst m'. unfold cleanupSession.
  set (ev := {| inputType := js "cleaned"; inputData := None |}).
  pose proof (recordEvent_wellFormed m id ev now Hnd) as Hnd'.
  pose proof (recordEvent_getKey m id ev now id) as Hget.
  rewrite bool_decide_eq_true_2 in Hget by reflexivity.
  assert (Hlisted : forall test, test (stamped ev now) = false ->
                                 id ∉ sessionsWhoseLast test (recordEvent m id ev now)).
  { intros test Htest Hin.
    apply sessionsWhoseLast_elem in Hin as (evs & e & Hevs & Hlast & He); [|exact Hnd'].
    rewrite Hget in Hevs. injection Hevs as <-. rewrite last_snoc in Hlast.
    injection Hlast as <-. congruence. }
  split; [unfold getSessionEvents at 1; now rewrite Hget|].
  split; [apply recordEvent_length|].
  split.
  { unfold getSessionStatus; cbv zeta; cbn [status]; rewrite Hget;
          cbn [default from_option Datatypes.id]. rewrite last_snoc; reflexivity. }
  split; [|split]; apply Hlisted; reflexivity.
Qed.

(** The statement of X21 at a session that completed. *)
Lemma cleaned_session_is_only_marked_witness :
  let completed := {| inputType := js "completed"; inputData := None |} in
  let m := recordEvent newManager (js "session-1") completed 1000 in
  let m' := cleanupSession m (js "session-1") 2000 in
  getCompletedSessions m = [js "session-1"]
  /\ length (getSessionEvents m' (js "session-1")) = 2
  /\ (js "session-1" ∉ getCompletedSessions m').
Proof.
  intros completed m m'.
  assert (Hnd : wellFormed m) by (apply NoDup_singleton).
  pose proof (cleaned_session_is_only_marked m (js "session-1") 2000 Hnd) as H.
  destruct H as (Hevents & _ & _ & _ & Hcompleted & _).
  split; [reflexivity|]. split; [|exact Hcompleted].
  fold m' in Hevents. rewrite Hevents. reflexivity.
Defined.

(** X22: the statistics never count a session twice.  The numbers of
    active, completed and failed sessions together do not exceed the
    number of sessions, and the success rate lies between 0 and 1. *)
Theorem statistics_count_each_session_once (m : Manager) :
  let st := getStats m in
  activeSessions st + completedSessions st + failedSessions st <= totalSessions st
  /\ (0 <= successRate st <= 1)%Q.
Proof.
  intros st. subst st. unfold getStats. cbv zeta.
  cbn [activeSessions completedSessions failedSessions totalSessions successRate].
  unfold getActiveSessions, getCompletedSessions, getFailedSessions,
    sessionsWhoseLast. rewrite !length_map.
  set (active := List.filter _ (events m)).
  set (completed := List.filter _ (events m)).
  set (failed := List.filter _ (events m)).
  assert (Hsum : length active + length completed + length failed
                 <= length (events m)).
  { subst active completed failed. apply exclusive_filters_length.
    - intros [k evs]. cbn [snd]. destruct (last evs) as [e|]; [|discriminate].
      intros Hactive. apply negb_true_iff, bool_decide_eq_false in Hactive.
      split; apply bool_decide_eq_false; intros Htype; apply Hactive;
        rewrite Htype; unfold terminalTypes;
        [apply list_elem_of_here|apply list_elem_of_further, list_elem_of_here].
    - intros [k evs]. cbn [snd]. destruct (last evs) as [e|]; [|discriminate].
      intros Hcompleted. apply bool_decide_eq_true in Hcompleted.
      apply bool_decide_eq_false. rewrite Hcompleted. discriminate. }
  split; [exact Hsum|].
  destruct (0 <? length (events m)) eqn:Hsome; [|split; discriminate].
  apply Nat.ltb_lt in Hsome. unfold QofNat.
  assert (Htotal : (0 < inject_Z (Z.of_nat (length (events m))))%Q).
  { change 0%Q with (inject_Z 0). rewrite <- Zlt_Qlt. lia. }
  split.
  - apply Qle_shift_div_l; [exact Htotal|]. rewrite Qmult_0_l.
    change 0%Q with (inject_Z 0). rewrite <- Zle_Qle. lia.
  - apply Qle_shift_div_r; [exact Htotal|]. rewrite Qmult_1_l.
    rewrite <- Zle_Qle. lia.
Qed.

(** X23: old sessions are dropped whatever their state.  A session
    stays exactly when it has no event or its last event is not older than
    the age limit; whether it is active plays no part.  The sessions that
    stay keep their events, the file is written exactly when a session
    was dropped, and a second run at the same time changes nothing. *)
Theorem old_sessions_are_dropped_in_any_state (m : Manager) (now maxAge : N) :
  wellFormed m ->
  let cutoffTime := (Z.of_N now - Z.of_N maxAge)%Z in
  let m' := cleanupOldEvents m now maxAge in
  wellFormed m'
  /\ (forall id,
        getKey id (events m')
        = match getKey id (events m) with
          | Some evs => if expired cutoffTime evs then None else Some evs
          | None => None
          end)
  /\ written m'
     = (if length (events m') <? length (events m)
        then written m ++ [events m'] else written m)
  /\ cleanupOldEvents m' now maxAge = m'.
Proof.
  intros Hnd cutoffTime m'.
  set (keep := fun kv : jsstring * list LifecycleEvent =>
                 negb (expired cutoffTime kv.2)).
  set (kept := List.filter keep (events m)).
  pose proof (filter_shorter keep (events m)) as Hshort. fold kept in Hshort.
  assert (Hm' : m' = if 0 <? length (events m) - length kept
                     then saveEventsToFile (withEvents kept m)
                     else withEvents kept m) by reflexivity.
  assert (Hevents : events m' = kept)
    by (rewrite Hm'; destruct (0 <? _); reflexivity).
  assert (Hagain : cleanupOldEvents m' now maxAge
                   = if 0 <? length (events m') - length (List.filter keep (events m'))
                     then saveEventsToFile (withEvents (List.filter keep (events m')) m')
                     else withEvents (List.filter keep (events m')) m')
    by reflexivity.
  assert (Hkept : List.filter keep kept = kept) by apply filter_again.
  rewrite Hagain, Hevents, Hkept.
  rewrite Nat.sub_diag. change (0 <? 0) with false. cbv iota.
  split; [unfold wellFormed; rewrite Hevents; apply filter_keys_NoDup, Hnd|].
  split.
  { intros id. subst kept. rewrite getKey_filter by exact Hnd.
    destruct (getKey id (events m)) as [evs|]; [|reflexivity].
    subst keep. cbn [snd]. destruct (expired cutoffTime evs); reflexivity. }
  clearbody m'. subst m'.
  destruct (0 <? length (events m) - length kept) eqn:Hcount.
  - apply Nat.ltb_lt in Hcount.
    replace (length kept <? length (events m)) with true
      by (symmetry; apply Nat.ltb_lt; lia).
    split; reflexivity.
  - apply Nat.ltb_ge in Hcount.
    replace (length kept <? length (events m)) with false
      by (symmetry; apply Nat.ltb_ge; lia).
    split; reflexivity.
Qed.

(** The statement of X23 at a session that is active and a week old. *)
Lemma old_sessions_are_dropped_in_any_state_witness :
  let started := {| inputType := js "started"; inputData := None |} in
  let m := recordEvent newManager (js "session-1") started 1000 in
  let m' := cleanupOldEvents m (1001 + defaultMaxAge) defaultMaxAge in
  getActiveSessions m = [js "session-1"]
  /\ getKey (js "session-1") (events m') = None
  /\ written m' = [[]].
Proof.
  intros started m m'.
  assert (Hnd : wellFormed m) by (apply NoDup_singleton).
  pose proof (old_sessions_are_dropped_in_any_state m (1001 + defaultMaxAge)
                defaultMaxAge Hnd) as H.
  destruct H as (_ & Hget & Hwritten & _).
  split; [reflexivity|]. subst m'.
  split; [rewrite (Hget (js "session-1")); reflexivity|].
  rewrite Hwritten. reflexivity.
Defined.



End SessionTheorems.

(* ===================================================================== *)
(** * The cache of observed answers ([MemoryManager]) *)
(* ===================================================================== *)

Section Sorting.
Context {A : Type}.
Variable before : A -> A -> bool.
Hypothesis before_total : forall x y, before x y = false -> before y x = true.
Hypothesis before_trans :
  forall x y z, before x y = true -> before y z = true -> before x z = true.

Lemma insertBy_Permutation (x : A) (l : list A) :
  Permutation (insertBy before x l) (x :: l).
Proof.
  induction l as [|y l IH]; simpl; [reflexivity|].
  destruct (before x y); [reflexivity|].
  rewrite IH. apply perm_swap.
Qed.

Lemma sortBy_Permutation (l : list A) : Permutation (sortBy before l) l.
Proof.
  unfold sortBy. induction l as [|x l IH]; simpl; [reflexivity|].
  now rewrite insertBy_Permutation, IH.
Qed.

Lemma insertBy_sorted (x : A) (l : list A) :
  sortedBy before l -> sortedBy before (insertBy before x l).
Proof.
  induction l as [|y l IH]; simpl; [intros _; split; [constructor|exact I]|].
  intros [Hy Hl]. destruct (before x y) eqn:Hxy; simpl.
  - split; [|split; assumption].
    constructor; [exact Hxy|].
    eapply Forall_impl; [exact Hy|]. intros z Hz. cbn in Hz.
    now apply (before_trans x y z).
  - split; [|now apply IH].
    rewrite insertBy_Permutation. constructor; [|exact Hy].
    now apply before_total.
Qed.

Lemma sortBy_sorted (l : list A) : sortedBy before (sortBy before l).
Proof.
  unfold sortBy. induction l as [|x l IH]; simpl; [exact I|].
  now apply insertBy_sorted.
Qed.

(** In a sorted list the first [n] elements are before all the others. *)
Lemma sorted_take_drop (n : nat) (l : list A) (x y : A) :
  sortedBy before l -> x ∈ take n l -> y ∈ drop n l -> before x y = true.
Proof.
  revert n. induction l as [|z l IH]; intros n Hsorted Hx Hy.
  - rewrite take_nil in Hx. apply elem_of_nil in Hx. contradiction.
  - destruct Hsorted as [Hz Hl]. destruct n as [|n]; simpl in *.
    + apply elem_of_nil in Hx. contradiction.
    + apply elem_of_cons in Hx as [->|Hx].
      * rewrite Forall_forall in Hz. apply Hz.
        apply (subseteq_drop n l), Hy.
      * now apply (IH n).
Qed.

(** In a sorted list an element is before every later one. *)
Lemma sorted_lookup (l : list A) (i j : nat) (x y : A) :
  sortedBy before l -> i < j -> l !! i = Some x -> l !! j = Some y ->
  before x y = true.
Proof.
  revert i j. induction l as [|z l IH]; intros i j Hsorted Hij Hi Hj.
  - rewrite lookup_nil in Hi. discriminate.
  - destruct Hsorted as [Hz Hl]. destruct j as [|j]; [lia|].
    destruct i as [|i]; simpl in *.
    + injection Hi as <-. rewrite Forall_forall in Hz. apply Hz.
      eapply list_elem_of_lookup_2, Hj.
    + apply (IH i j); auto. lia.
Qed.

End Sorting.

Section Filters.
Context {A : Type}.
Implicit Types (p q : A -> bool) (l : list A).

Lemma List_filter_Permutation p l1 l2 :
  Permutation l1 l2 -> Permutation (List.filter p l1) (List.filter p l2).
Proof.
  induction 1 as [|x l1 l2 _ IH|x y l|l1 l2 l3 _ IH1 _ IH2]; simpl.
  - reflexivity.
  - destruct (p x); [now constructor|exact IH].
  - destruct (p x), (p y); try reflexivity. apply perm_swap.
  - now rewrite IH1.
Qed.

Lemma List_filter_none p l :
  (forall x, x ∈ l -> p x = false) -> List.filter p l = [].
Proof.
  induction l as [|x l IH]; intros H; simpl; [reflexivity|].
  rewrite (H x) by apply list_elem_of_here.
  apply IH. intros y Hy. apply H, list_elem_of_further, Hy.
Qed.

Lemma List_filter_every p l :
  (forall x, x ∈ l -> p x = true) -> List.filter p l = l.
Proof.
  induction l as [|x l IH]; intros H; simpl; [reflexivity|].
  rewrite (H x) by apply list_elem_of_here. f_equal.
  apply IH. intros y Hy. apply H, list_elem_of_further, Hy.
Qed.

Lemma List_filter_twice p q l :
  List.filter p (List.filter q l) = List.filter (fun x => q x && p x) l.
Proof.
  induction l as [|x l IH]; simpl; [reflexivity|].
  destruct (q x); simpl; [destruct (p x)|]; now rewrite IH.
Qed.

Lemma List_filter_elem p l x : x ∈ List.filter p l <-> x ∈ l /\ p x = true.
Proof. rewrite !list_elem_of_In. apply filter_In. Qed.

End Filters.

Section Deleting.
Import JS Memory.
Context {V : Type}.
Implicit Types (obj del : list (jsstring * V)) (k : jsstring).

Lemma delete_all del obj :
  fold_left (fun cache kv => deleteKey kv.1 cache) del obj
  = List.filter (fun kv => negb (hasKey kv.1 del)) obj.
Proof.
  revert obj. induction del as [|[k v] del IH]; intros obj; simpl.
  - symmetry. apply List_filter_every. reflexivity.
  - rewrite IH. unfold deleteKey. rewrite List_filter_twice.
    apply filter_ext. intros [k' v']. cbn [fst hasKey existsb].
    rewrite (bool_decide_ext (k' = k) (k = k')) by (split; congruence).
    fold (hasKey k' del). now rewrite negb_orb.
Qed.

Lemma hasKey_of_entry k v obj : (k, v) ∈ obj -> hasKey k obj = true.
Proof.
  intros Hin. apply hasKey_elem. apply (list_elem_of_fmap_2 fst) in Hin. exact Hin.
Qed.

Lemma deleteKey_length k obj :
  NoDup (objectKeys obj) -> hasKey k obj = true ->
  length (deleteKey k obj) + 1 = length obj.
Proof.
  unfold objectKeys, hasKey, deleteKey.
  induction obj as [|[k' v'] obj IH]; simpl; [discriminate|].
  intros Hnd. apply NoDup_cons in Hnd as [Hfresh Hnd].
  case_bool_decide as Hk; simpl.
  - intros _. subst k'. rewrite List_filter_every; [lia|].
    intros [k1 v1] Hin. cbn [fst]. apply negb_true_iff, bool_decide_eq_false.
    intros ->. apply Hfresh. apply (list_elem_of_fmap_2 fst) in Hin. exact Hin.
  - intros H. specialize (IH Hnd H). lia.
Qed.

End Deleting.

Section CacheLemmas.
Import JS Memory Cache.

Lemma olderFirst_total (a b : jsstring * CachedRecord) :
  olderFirst a b = false -> olderFirst b a = true.
Proof. unfold olderFirst. rewrite N.leb_gt, N.leb_le. lia. Qed.

Lemma olderFirst_trans (a b c : jsstring * CachedRecord) :
  olderFirst a b = true -> olderFirst b c = true -> olderFirst a c = true.
Proof. unfold olderFirst. rewrite !N.leb_le. lia. Qed.

Lemma newerFirst_total (a b : CachedRecord) :
  newerFirst a b = false -> newerFirst b a = true.
Proof. unfold newerFirst. rewrite N.leb_gt, N.leb_le. lia. Qed.

Lemma newerFirst_trans (a b c : CachedRecord) :
  newerFirst a b = true -> newerFirst b c = true -> newerFirst a c = true.
Proof. unfold newerFirst. rewrite !N.leb_le. lia. Qed.

Lemma evictionCount_positive : 0 < evictionCount.
Proof. apply Nat.ltb_lt. reflexivity. Qed.

(** What [cleanupOldMemories] leaves: the entries behind the first
    [evictionCount] ones of the sorted entries. *)
Lemma cleanupOldMemories_kept (m : Manager) :
  NoDup (objectKeys (memoryCache m)) ->
  Permutation (memoryCache (cleanupOldMemories m))
    (drop evictionCount (sortBy olderFirst (memoryCache m))).
Proof.
  intros Hnd. unfold cleanupOldMemories. cbv zeta. cbn [memoryCache withCache].
  rewrite delete_all.
  set (sorted := sortBy olderFirst (memoryCache m)).
  assert (Hperm : Permutation sorted (memoryCache m)) by apply sortBy_Permutation.
  assert (Hsplit : sorted = take evictionCount sorted ++ drop evictionCount sorted)
    by (symmetry; apply take_drop).
  assert (Hkeys : NoDup (objectKeys sorted)).
  { unfold objectKeys.
    assert (Hfst : Permutation (map fst sorted) (map fst (memoryCache m)))
      by apply Permutation_map, Hperm.
    rewrite Hfst. exact Hnd. }
  set (gone := take evictionCount sorted) in *.
  set (kept := drop evictionCount sorted) in *.
  rewrite <- (List_filter_Permutation _ _ _ Hperm), Hsplit, List.filter_app.
  rewrite Hsplit in Hkeys. unfold objectKeys in Hkeys. rewrite map_app in Hkeys.
  apply NoDup_app in Hkeys as (_ & Hdisjoint & _).
  rewrite List_filter_none, List_filter_every; [reflexivity| |].
  - intros [k v] Hin. cbn [fst]. apply negb_true_iff.
    destruct (hasKey k gone) eqn:Hk; [|reflexivity]. exfalso.
    apply hasKey_elem in Hk. apply (Hdisjoint k Hk).
    apply (list_elem_of_fmap_2 fst) in Hin. exact Hin.
  - intros [k v] Hin. cbn [fst]. apply negb_false_iff.
    now apply hasKey_of_entry with v.
Qed.

Lemma cleanupOldMemories_effect (m : Manager) :
  NoDup (objectKeys (memoryCache m)) ->
  let m' := cleanupOldMemories m in
  length (memoryCache m') = length (memoryCache m) - evictionCount
  /\ (forall kv, kv ∈ memoryCache m' -> kv ∈ memoryCache m)
  /\ (forall old kept, old ∈ memoryCache m -> old ∉ memoryCache m' ->
                       kept ∈ memoryCache m' ->
                       (timestamp old.2 <= timestamp kept.2)%N)
  /\ written m' = written m.
Proof.
  intros Hnd m'. pose proof (cleanupOldMemories_kept m Hnd) as Hkept. fold m' in Hkept.
  set (sorted := sortBy olderFirst (memoryCache m)) in *.
  assert (Hperm : Permutation sorted (memoryCache m)) by apply sortBy_Permutation.
  split; [|split; [|split; [|reflexivity]]].
  - rewrite Hkept, length_drop. now rewrite Hperm.
  - intros kv Hin. rewrite Hkept in Hin. rewrite <- Hperm.
    apply (subseteq_drop evictionCount sorted), Hin.
  - intros old kept Hold Hgone Hin. rewrite Hkept in Hin, Hgone.
    rewrite <- Hperm, <- (take_drop evictionCount sorted) in Hold.
    apply elem_of_app in Hold as [Hold|Hold]; [|contradiction].
    apply N.leb_le. change (olderFirst old kept = true).
    apply (sorted_take_drop olderFirst evictionCount sorted);
      [|exact Hold|exact Hin].
    apply sortBy_sorted; [apply olderFirst_total|apply olderFirst_trans].
Qed.

End CacheLemmas.

Section Observing.
Import JS Memory Cache.

Lemma setKey_Forall {V : Type} (P : jsstring * V -> Prop) (k : jsstring) (v : V)
  (obj : list (jsstring * V)) :
  Forall P obj -> P (k, v) -> Forall P (setKey k v obj).
Proof.
  intros Hobj Hkv. induction Hobj as [|[k' v'] obj Hhead Htail IH]; simpl.
  - constructor; [exact Hkv|constructor].
  - destruct (bool_decide (k' = k)); constructor; assumption.
Qed.

Lemma List_filter_Forall {A : Type} (P : A -> Prop) (p : A -> bool) (l : list A) :
  Forall P l -> Forall P (List.filter p l).
Proof.
  rewrite !Forall_forall. intros H x Hx. apply List_filter_elem in Hx as [Hx _].
  now apply H.
Qed.

Lemma length_setKey {V : Type} (k : jsstring) (v : V) (obj : list (jsstring * V)) :
  length (setKey k v obj)
  = if hasKey k obj then length obj else S (length obj).
Proof.
  destruct (hasKey k obj) eqn:Hk.
  - now apply length_setKey_old.
  - rewrite length_setKey_new by exact Hk. lia.
Qed.

Lemma cleanupOldMemories_wellFormed (m : Manager) :
  wellFormed m -> wellFormed (cleanupOldMemories m).
Proof.
  intros [Hnd Hkeys]. unfold wellFormed, cleanupOldMemories. cbv zeta.
  cbn [memoryCache withCache]. rewrite delete_all.
  split; [now apply filter_keys_NoDup|now apply List_filter_Forall].
Qed.

Lemma saved_cache (c : bool) (m : Manager) :
  memoryCache (if c then saveMemoryToFile m else m) = memoryCache m.
Proof. now destruct c. Qed.

(** The cache after one observation. *)
Lemma cacheObserveResult_cache (m : Manager) (o : Observation) :
  memoryCache (cacheObserveResult m o)
  = let stored := withCache (setKey (obsKey o) (obsRecord o) (memoryCache m)) m in
    if maxCacheSize <? length (memoryCache stored)
    then memoryCache (cleanupOldMemories stored)
    else memoryCache stored.
Proof.
  unfold cacheObserveResult. cbv zeta. rewrite saved_cache.
  now destruct (maxCacheSize <? _).
Qed.

Lemma observe_invariant (m : Manager) (o : Observation) :
  wellFormed m -> length (memoryCache m) <= maxCacheSize ->
  wellFormed (cacheObserveResult m o)
  /\ length (memoryCache (cacheObserveResult m o)) <= maxCacheSize.
Proof.
  intros [Hnd Hkeys] Hsize.
  set (stored := withCache (setKey (obsKey o) (obsRecord o) (memoryCache m)) m).
  assert (Hstored : wellFormed stored).
  { split; cbn [stored memoryCache withCache].
    - now apply setKey_wellFormed.
    - apply setKey_Forall; [exact Hkeys|reflexivity]. }
  assert (Hlength : length (memoryCache stored) <= S (length (memoryCache m))).
  { cbn [stored memoryCache withCache]. rewrite length_setKey.
    destruct (hasKey _ _); lia. }
  unfold wellFormed. rewrite cacheObserveResult_cache. cbv zeta. fold stored.
  destruct (maxCacheSize <? length (memoryCache stored)) eqn:Hfull.
  - pose proof (cleanupOldMemories_wellFormed stored Hstored) as Hclean.
    destruct (cleanupOldMemories_effect stored (proj1 Hstored)) as (Hlen & _).
    split; [exact Hclean|]. rewrite Hlen.
    pose proof evictionCount_positive. lia.
  - apply Nat.ltb_ge in Hfull. split; [exact Hstored|exact Hfull].
Qed.

Lemma observeAll_invariant (os : list Observation) (m : Manager) :
  wellFormed m -> length (memoryCache m) <= maxCacheSize ->
  wellFormed (observeAll m os)
  /\ length (memoryCache (observeAll m os)) <= maxCacheSize.
Proof.
  revert m. induction os as [|o os IH]; intros m Hm Hsize; [now split|].
  change (observeAll m (o :: os)) with (observeAll (cacheObserveResult m o) os).
  destruct (observe_invariant m o Hm Hsize) as [Hm' Hsize'].
  now apply IH.
Qed.

Lemma import_counting (memories : list CachedRecord)
  (cache : list (jsstring * CachedRecord)) (n : nat) :
  fold_left (fun acc memory => (setKey (keyOf memory) memory acc.1, acc.2 + 1))
    memories (cache, n)
  = (fold_left (fun acc kv => setKey kv.1 kv.2 acc)
       (map (fun memory => (keyOf memory, memory)) memories) cache,
     n + length memories).
Proof.
  revert cache n. induction memories as [|memory memories IH]; intros cache n.
  - cbn. f_equal. lia.
  - cbn [fold_left map length fst snd]. rewrite IH. f_equal. lia.
Qed.

Lemma keyed_entries (cache : list (jsstring * CachedRecord)) :
  Forall (fun kv => kv.1 = keyOf kv.2) cache ->
  map (fun memory => (keyOf memory, memory)) (objectValues cache) = cache.
Proof.
  unfold objectValues. induction 1 as [|[k v] cache Hk _ IH]; simpl; [reflexivity|].
  cbn [fst snd] in Hk. now rewrite <- Hk, IH.
Qed.

(** The records with a property, newest first. *)
Lemma sorted_listing (p : CachedRecord -> bool) (records : list CachedRecord) :
  let l := sortBy newerFirst (List.filter p records) in
  Permutation l (List.filter p records)
  /\ (forall r, r ∈ l <-> r ∈ records /\ p r = true)
  /\ forall i j a b, i < j -> l !! i = Some a -> l !! j = Some b ->
                     (timestamp b <= timestamp a)%N.
Proof.
  intros l.
  assert (Hperm : Permutation l (List.filter p records)) by apply sortBy_Permutation.
  split; [exact Hperm|]. split.
  - intros r. rewrite Hperm. apply List_filter_elem.
  - intros i j a b Hij Ha Hb. apply N.leb_le. change (newerFirst a b = true).
    apply (sorted_lookup newerFirst l i j); auto.
    apply sortBy_sorted; [apply newerFirst_total|apply newerFirst_trans].
Qed.

End Observing.

Section CacheTheorems.
Import JS Memory Cache.



(** X26: the cleanup of the cache removes the oldest entries.  It
    deletes a tenth of the capacity, or everything when the cache holds
    less; every entry it deletes has a time stamp not later than that of
    every entry it keeps, and it does not write the file. *)
Theorem eviction_removes_the_oldest (m : Manager) :
  NoDup (objectKeys (memoryCache m)) ->
  let m' := cleanupOldMemories m in
  length (memoryCache m') = length (memoryCache m) - evictionCount
  /\ (forall kv, kv ∈ memoryCache m' -> kv ∈ memoryCache m)
  /\ (forall old kept, old ∈ memoryCache m -> old ∉ memoryCache m' ->
                       kept ∈ memoryCache m' ->
                       (timestamp old.2 <= timestamp kept.2)%N)
  /\ written m' = written m.
Proof. apply cleanupOldMemories_effect. Qed.

End CacheTheorems.

Section CacheExamples.
Import JS Memory Cache.

(** A record kept under the key made of its properties. *)
Lemma stored_keys_distinct (a b : CachedRecord) :
  keyOf a <> keyOf b ->
  wellFormed (withCache [(keyOf a, a); (keyOf b, b)] newManager).
Proof.
  intros Hne. split; cbn [memoryCache withCache].
  - apply NoDup_cons. split; [|apply NoDup_singleton].
    intros Hin. apply list_elem_of_singleton in Hin. contradiction.
  - repeat constructor.
Qed.

End CacheExamples.

Section MoreCacheTheorems.
Import JS Memory Cache.

(** The statement of X26 at a cache of two entries, which the cleanup
    empties. *)
Lemma eviction_removes_the_oldest_witness :
  let a := obsRecord {| obsPersonId := js "p1"; obsQuestionnaireId := js "q1";
                        obsQuestionText := js "a"; obsAnswer := js "1";
                        obsSuccess := true; obsContext := None;
                        obsIdClock := 1; obsStampClock := 1 |} in
  let b := obsRecord {| obsPersonId := js "p2"; obsQuestionnaireId := js "q1";
                        obsQuestionText := js "a"; obsAnswer := js "2";
                        obsSuccess := true; obsContext := None;
                        obsIdClock := 2; obsStampClock := 2 |} in
  let m := withCache [(js "k1", a); (js "k2", b)] newManager in
  length (memoryCache (cleanupOldMemories m)) = 0.
Proof.
  intros a b m.
  assert (Hnd : NoDup (objectKeys (memoryCache m))).
  { apply NoDup_cons. split; [|apply NoDup_singleton].
    intros Hin. apply list_elem_of_singleton in Hin. discriminate. }
  exact (proj1 (eviction_removes_the_oldest m Hnd)).
Defined.

(** X27: the cache stays within its capacity.  After any sequence of
    [cacheObserveResult] calls on a new manager the cache holds at most
    [maxCacheSize] records, under distinct keys, each under the key made
    of its person, its questionnaire and its question hash. *)
Theorem cache_stays_within_its_capacity (os : list Observation) :
  let m := observeAll newManager os in
  length (memoryCache m) <= maxCacheSize
  /\ NoDup (objectKeys (memoryCache m))
  /\ Forall (fun kv => kv.1 = keyOf kv.2) (memoryCache m).
Proof.
  intros m.
  assert (Hnew : wellFormed newManager) by (split; constructor).
  assert (Hsize : length (memoryCache newManager) <= maxCacheSize)
    by (cbn; lia).
  destruct (observeAll_invariant os newManager Hnew Hsize) as [[Hnd Hkeys] Hlen].
  split; [exact Hlen|]. split; [exact Hnd|exact Hkeys].
Qed.

(** X28: the records of a person, and those of a questionnaire, are
    listed newest first.  The list holds exactly the records of the cache
    with that person (or questionnaire), each as often as the cache holds
    it, and a record is never followed by a newer one. *)
Theorem memories_are_listed_newest_first (m : Manager) (wanted : jsstring) :
  let ofPerson := fun r => bool_decide (MemoryManager.recordPersonId (memo r) = wanted) in
  let ofQuestionnaire := fun r => bool_decide (questionnaireId r = wanted) in
  let byPerson := getMemoriesByDigitalPerson m wanted in
  let byQuestionnaire := getMemoriesByQuestionnaire m wanted in
  (Permutation byPerson (List.filter ofPerson (exportMemories m))
   /\ (forall r, r ∈ byPerson
                 <-> r ∈ exportMemories m
                     /\ MemoryManager.recordPersonId (memo r) = wanted)
   /\ forall i j a b, i < j -> byPerson !! i = Some a -> byPerson !! j = Some b ->
                      (timestamp b <= timestamp a)%N)
  /\ (Permutation byQuestionnaire (List.filter ofQuestionnaire (exportMemories m))
      /\ (forall r, r ∈ byQuestionnaire
                    <-> r ∈ exportMemories m /\ questionnaireId r = wanted)
      /\ forall i j a b, i < j -> byQuestionnaire !! i = Some a ->
                         byQuestionnaire !! j = Some b ->
                         (timestamp b <= timestamp a)%N).
Proof.
  intros ofPerson ofQuestionnaire byPerson byQuestionnaire.
  destruct (sorted_listing ofPerson (exportMemories m)) as (P1 & E1 & S1).
  destruct (sorted_listing ofQuestionnaire (exportMemories m)) as (P2 & E2 & S2).
  split; (split; [assumption|split; [|assumption]]).
  - intros r. etransitivity; [exact (E1 r)|].
    unfold ofPerson. now rewrite bool_decide_eq_true.
  - intros r. etransitivity; [exact (E2 r)|].
    unfold ofQuestionnaire. now rewrite bool_decide_eq_true.
Qed.

(** X29: deleting a record by its identifier removes the first entry
    whose record has the identifier, and nothing else; the file is not
    written.  The result is [true], except for a record without a
    question text: that record is deleted too, but the result is [false],
    as it is when no record has the identifier. *)
Theorem deleted_memory_is_not_saved (m : Manager) (memoryId : jsstring) :
  NoDup (objectKeys (memoryCache m)) ->
  let r := deleteMemory m memoryId in
  written r.2 = written m
  /\ match findById memoryId (memoryCache m) with
     | None => r = (false, m)
     | Some (key, memory) =>
         MemoryManager.recordId (memo memory) = memoryId
         /\ r.1 = match MemoryManager.recordQuestionText (memo memory) with
                  | Some _ => true
                  | None => false
                  end
         /\ getKey key (memoryCache r.2) = None
         /\ length (memoryCache r.2) + 1 = length (memoryCache m)
         /\ forall other, other <> key ->
              getKey other (memoryCache r.2) = getKey other (memoryCache m)
     end.
Proof.
  intros Hnd r. subst r. unfold deleteMemory.
  destruct (findById memoryId (memoryCache m)) as [[key memory]|] eqn:Hfind;
    [|split; reflexivity].
  unfold findById in Hfind. apply find_some in Hfind as [Hin Hid].
  cbn [snd] in Hid. apply bool_decide_eq_true in Hid.
  apply list_elem_of_In in Hin.
  cbn [fst snd written withCache memoryCache].
  split; [reflexivity|]. split; [exact Hid|].
  split; [destruct (MemoryManager.recordQuestionText (memo memory)); reflexivity|].
  unfold deleteKey.
  split; [|split].
  - rewrite getKey_filter by exact Hnd.
    destruct (getKey key (memoryCache m)); [|reflexivity].
    cbn [fst]. now rewrite bool_decide_eq_true_2.
  - apply (deleteKey_length key (memoryCache m) Hnd).
    now apply hasKey_of_entry with memory.
  - intros other Hother. rewrite getKey_filter by exact Hnd.
    destruct (getKey other (memoryCache m)); [|reflexivity].
    cbn [fst]. now rewrite bool_decide_eq_false_2.
Qed.

(** The statement of X29 at a record without a question text. *)
Lemma deleted_memory_is_not_saved_witness :
  let imported :=
    {| memo := {| MemoryManager.recordId := js "id-1";
                  MemoryManager.recordPersonId := js "p1";
                  MemoryManager.recordQuestionText := None;
                  MemoryManager.recordAnswer := js "30" |};
       questionnaireId := js "q1"; questionHash := js "h1";
       timestamp := 1; success := true; context := None |} in
  let m := withCache [(js "p1:q1:h1", imported)] newManager in
  (deleteMemory m (js "id-1")).1 = false
  /\ memoryCache (deleteMemory m (js "id-1")).2 = []
  /\ written (deleteMemory m (js "id-1")).2 = [].
Proof.
  intros imported m.
  assert (Hnd : NoDup (objectKeys (memoryCache m))) by apply NoDup_singleton.
  pose proof (deleted_memory_is_not_saved m (js "id-1") Hnd) as [Hwritten _].
  split; [reflexivity|]. split; [reflexivity|exact Hwritten].
Defined.

(** X30: exported records import back.  Importing what
    [exportMemories] gave into a new manager gives the same cache, entry
    by entry; the number returned is the number of records, and the file
    is written once, with these records. *)
Theorem exported_memories_import_back (m : Manager) :
  wellFormed m ->
  let r := importMemories newManager (exportMemories m) in
  r.1 = length (memoryCache m)
  /\ memoryCache r.2 = memoryCache m
  /\ written r.2 = [WriteFile (exportMemories m)].
Proof.
  intros [Hnd Hkeys] r. subst r. unfold importMemories, exportMemories. cbv zeta.
  cbn [memoryCache newManager]. rewrite import_counting.
  rewrite (keyed_entries _ Hkeys).
  rewrite (assign_all_new (memoryCache m) []) by exact Hnd.
  cbn [fst snd app memoryCache saveMemoryToFile withCache written newManager].
  unfold objectValues. rewrite length_map.
  split; [reflexivity|]. split; reflexivity.
Qed.

(** The statement of X30 at a cache of two observed answers. *)
Lemma exported_memories_import_back_witness :
  let a := {| memo := {| MemoryManager.recordId := js "id-1";
                         MemoryManager.recordPersonId := js "p1";
                         MemoryManager.recordQuestionText := Some (js "a");
                         MemoryManager.recordAnswer := js "1" |};
              questionnaireId := js "q1"; questionHash := js "h1";
              timestamp := 1; success := true; context := None |} in
  let b := {| memo := {| MemoryManager.recordId := js "id-2";
                         MemoryManager.recordPersonId := js "p2";
                         MemoryManager.recordQuestionText := Some (js "a");
                         MemoryManager.recordAnswer := js "2" |};
              questionnaireId := js "q1"; questionHash := js "h1";
              timestamp := 2; success := true; context := None |} in
  let m := withCache [(keyOf a, a); (keyOf b, b)] newManager in
  (importMemories newManager (exportMemories m)).1 = 2
  /\ memoryCache (importMemories newManager (exportMemories m)).2 = memoryCache m.
Proof.
  intros a b m.
  assert (Hne : keyOf a <> keyOf b) by discriminate.
  pose proof (exported_memories_import_back m (stored_keys_distinct a b Hne)) as H.
  destruct H as (Hcount & Hcache & _).
  split; [exact Hcount|exact Hcache].
Defined.

End MoreCacheTheorems.
